(** * estereo.py: WAVE container codec and stereo/mono sample transforms

    A shallow embedding of [src/estereo.py].  Files are byte lists kept in a
    finite map from paths to contents, Python integers are [Z], the [struct]
    module is modelled field by field, and every function that can raise
    returns a [resultado]. *)

From Stdlib Require Import ZArith Lia List Strings.Byte.
From stdpp Require Import gmap strings list fin_maps.

Open Scope Z_scope.

(** ** Exceptions and results *)

(** The exceptions the module can raise.  [TypeError] carries the message of
    the [raise] statement; [struct.error] is raised by [struct.pack] and
    [struct.unpack]; [FileNotFoundError] by [open(..., 'rb')].  [Agotado] is
    not a Python exception: it marks an exhausted iteration budget of the
    chunk loop and is shown below never to be returned. *)
Inductive excepcion : Type :=
| TypeError (msg : string)
| StructError
| FileNotFoundError
| Agotado.

Inductive resultado (A : Type) : Type :=
| Ok (a : A)
| Err (e : excepcion).

Arguments Ok {A} a.
Arguments Err {A} e.

#[export] Instance resultado_ret : MRet resultado := fun A a => Ok a.

#[export] Instance resultado_bind : MBind resultado := fun A B k m =>
  match m with
  | Ok a => k a
  | Err e => Err e
  end.

(** The three error kinds of the specification, and the kind each message of
    the source belongs to. *)
Inductive clase_error : Type :=
| FormatError
| ChannelMismatchError
| InvalidChannelModeError.

Definition msg_no_wave : string := "El archivo no es un WAVE válido".
Definition msg_formato : string := "Formato de audio no compatible".
Definition msg_no_estereo : string := "El archivo no es estéreo".
Definition msg_canal : string := "Canal no válido".
Definition msg_izq_no_mono : string := "El canal izquierdo no es mono".
Definition msg_der_no_mono : string := "El canal derecho no es mono".
Definition msg_no_32 : string := "La señal no está codificada en 32 bits".
Definition msg_none : string := "NoneType".

Definition clase (e : excepcion) : option clase_error :=
  match e with
  | TypeError m =>
      if decide (m = msg_no_wave) then Some FormatError
      else if decide (m = msg_formato) then Some FormatError
      else if decide (m = msg_no_32) then Some FormatError
      else if decide (m = msg_no_estereo) then Some ChannelMismatchError
      else if decide (m = msg_izq_no_mono) then Some ChannelMismatchError
      else if decide (m = msg_der_no_mono) then Some ChannelMismatchError
      else if decide (m = msg_canal) then Some InvalidChannelModeError
      else None
  | _ => None
  end.

(** ** Bytes *)

#[export] Instance byte_eq_decision : EqDecision byte := byte_eq_dec.

Definition Z_of_byte (b : byte) : Z := Z.of_N (Byte.to_N b).

Definition byte_of_Z (z : Z) : byte :=
  match Byte.of_N (Z.to_N (z mod 256)) with
  | Some b => b
  | None => "000"%byte
  end.

Inductive orden_bytes : Type := LittleEndian | BigEndian.

(** [n] bytes of [v], least significant first (two's complement for a
    negative [v]). *)
Fixpoint le_bytes (n : nat) (v : Z) : list byte :=
  match n with
  | O => []
  | S k => byte_of_Z (v mod 256) :: le_bytes k (v / 256)
  end.

Fixpoint le_value (bs : list byte) : Z :=
  match bs with
  | [] => 0
  | b :: t => Z_of_byte b + 256 * le_value t
  end.

Definition codificar (o : orden_bytes) (n : nat) (v : Z) : list byte :=
  match o with
  | LittleEndian => le_bytes n v
  | BigEndian => rev (le_bytes n v)
  end.

(** Reinterpretation of an unsigned [n]-byte value as a signed one. *)
Definition con_signo (n : nat) (v : Z) : Z :=
  if decide (v < 256 ^ Z.of_nat n / 2) then v else v - 256 ^ Z.of_nat n.

(** ** The [struct] module *)

Module Struct.

(** Format [4s] and friends: a bytes field, cut or padded with zero bytes
    to its width. *)
Definition pack_s (n : nat) (s : list byte) : resultado (list byte) :=
  Ok (take n (s ++ replicate n "000"%byte)).

(** Unsigned field of [n] bytes ([H]: 2, [I]: 4); out of range raises. *)
Definition pack_uint (o : orden_bytes) (n : nat) (v : Z) : resultado (list byte) :=
  if decide (0 <= v < 256 ^ Z.of_nat n) then Ok (codificar o n v)
  else Err StructError.

(** Signed field of [n] bytes ([h]: 2); out of range raises. *)
Definition pack_int (o : orden_bytes) (n : nat) (v : Z) : resultado (list byte) :=
  if decide (- (256 ^ Z.of_nat n / 2) <= v < 256 ^ Z.of_nat n / 2)
  then Ok (codificar o n v)
  else Err StructError.

Definition pack_H (o : orden_bytes) : Z -> resultado (list byte) := pack_uint o 2.
Definition pack_I (o : orden_bytes) : Z -> resultado (list byte) := pack_uint o 4.
Definition pack_h (o : orden_bytes) : Z -> resultado (list byte) := pack_int o 2.

(** The fields of one format string, packed left to right. *)
Fixpoint pack (campos : list (resultado (list byte))) : resultado (list byte) :=
  match campos with
  | [] => Ok []
  | c :: resto =>
      b ← c;
      bs ← pack resto;
      Ok (b ++ bs)
  end.

(** Format ['<' + c * n] with the arguments [*vals]: the number of
    arguments has to be the number of fields. *)
Definition pack_rep (campo : Z -> resultado (list byte)) (n : Z) (vals : list Z)
  : resultado (list byte) :=
  if decide (Z.of_nat (length vals) = n) then pack (map campo vals)
  else Err StructError.

Definition campo (off len : nat) (b : list byte) : list byte :=
  take len (drop off b).

Definition unpack_H (b : list byte) : Z := le_value b.
Definition unpack_I (b : list byte) : Z := le_value b.
Definition unpack_h (b : list byte) : Z := con_signo 2 (le_value b).

(** [struct.unpack('<4sI4s', b)] *)
Definition unpack_4sI4s (b : list byte) : resultado (list byte * Z * list byte) :=
  if decide (length b = 12%nat)
  then Ok (campo 0 4 b, unpack_I (campo 4 4 b), campo 8 4 b)
  else Err StructError.

(** [struct.unpack('<4sI', b)] *)
Definition unpack_4sI (b : list byte) : resultado (list byte * Z) :=
  if decide (length b = 8%nat)
  then Ok (campo 0 4 b, unpack_I (campo 4 4 b))
  else Err StructError.

(** [struct.unpack('<HHIIHH', b)] *)
Definition unpack_HHIIHH (b : list byte) : resultado (Z * Z * Z * Z * Z * Z) :=
  if decide (length b = 16%nat)
  then Ok (unpack_H (campo 0 2 b), unpack_H (campo 2 2 b),
           unpack_I (campo 4 4 b), unpack_I (campo 8 4 b),
           unpack_H (campo 12 2 b), unpack_H (campo 14 2 b))
  else Err StructError.

Fixpoint trozos (ancho : nat) (dec : list byte -> Z) (n : nat) (b : list byte) : list Z :=
  match n with
  | O => []
  | S m => dec (take ancho b) :: trozos ancho dec m (drop ancho b)
  end.

(** Format ['<' + c * n]: the buffer has to hold exactly [n] fields. *)
Definition unpack_rep (ancho : nat) (dec : list byte -> Z) (n : Z) (b : list byte)
  : resultado (list Z) :=
  if decide (Z.of_nat (length b) = Z.of_nat ancho * Z.max 0 n)
  then Ok (trozos ancho dec (Z.to_nat n) b)
  else Err StructError.

(** [struct.unpack('<h', struct.pack('<H', v))[0]] needs the one-field forms. *)
Definition unpack_h1 (b : list byte) : resultado Z :=
  if decide (length b = 2%nat) then Ok (unpack_h b) else Err StructError.

End Struct.

(** ** Binary file objects and the file system *)

(** An open binary file: its contents and the current position.  Offsets are
    never negative in this module (they come from unsigned fields), so the
    failure of a seek before the start of the file is not modelled. *)
Record fichero_bin : Type := Fichero {
  contenido : list byte;
  posicion : Z
}.

(** [f.read(n)]: at most [n] bytes from the current position. *)
Definition f_read (n : Z) (f : fichero_bin) : list byte * fichero_bin :=
  let d := take (Z.to_nat n) (drop (Z.to_nat (posicion f)) (contenido f)) in
  (d, Fichero (contenido f) (posicion f + Z.of_nat (length d))).

(** [f.seek(off)] *)
Definition f_seek (off : Z) (f : fichero_bin) : fichero_bin :=
  Fichero (contenido f) off.

(** [f.seek(off, 1)]: relative to the current position, also past the end. *)
Definition f_seek_cur (off : Z) (f : fichero_bin) : fichero_bin :=
  Fichero (contenido f) (posicion f + off).

(** [f.tell()] *)
Definition f_tell (f : fichero_bin) : Z := posicion f.

(** [open(ruta, 'rb')] *)
Definition open_rb (fs : gmap string (list byte)) (ruta : string) : resultado fichero_bin :=
  match fs !! ruta with
  | Some c => Ok (Fichero c 0)
  | None => Err FileNotFoundError
  end.

(** [with open(ruta, 'wb') as f_out: f_out.write(...)]: opening truncates the
    file, so when the expression to be written raises, an empty file is
    left behind.  A failure of [open] itself is not modelled. *)
Definition escribir_wb (fs : gmap string (list byte)) (ruta : string)
    (datos : resultado (list byte)) : resultado unit * gmap string (list byte) :=
  match datos with
  | Ok b => (Ok tt, <[ruta := b]> fs)
  | Err e => (Err e, <[ruta := []]> fs)
  end.

(** Use of a dictionary entry as an integer ([f.seek(info['despl_datos'])],
    [info['tam_datos'] // 2], [frec_muestreo * canales]): [None] raises
    [TypeError]. *)
Definition entero (v : option Z) : resultado Z :=
  match v with
  | Some z => Ok z
  | None => Err (TypeError msg_none)
  end.

(** ** The WAVE header *)

Definition RIFF : list byte := ["R"; "I"; "F"; "F"]%byte.
Definition WAVE : list byte := ["W"; "A"; "V"; "E"]%byte.
Definition id_fmt : list byte := ["f"; "m"; "t"; " "]%byte.
Definition id_data : list byte := ["d"; "a"; "t"; "a"]%byte.

(** The dictionary returned by [leer_cabecera]; an entry is [None] until the
    chunk that sets it has been read. *)
Record dicc_info : Type := InfoAudio {
  despl_datos : option Z;
  tam_datos : option Z;
  formato : option Z;
  canales : option Z;
  frec_muestreo : option Z;
  bits_muestra : option Z
}.

Section Estereo.

(** The byte order of the host: the first [struct.pack] of
    [crear_cabecera] has no byte order mark and uses it. *)
Variable nativo : orden_bytes.

(** [crear_cabecera] (lines 10-23): the three [struct.pack] calls, each of
    which raises [struct.error] when a value does not fit its field. *)
Definition crear_cabecera (canales frec_muestreo bits_muestra tam_datos : Z)
  : resultado (list byte) :=
  let tasa_bytes := frec_muestreo * canales * bits_muestra / 8 in
  let bloque := canales * bits_muestra / 8 in
  let tam_riff := 36 + tam_datos in
  c1 ← Struct.pack [Struct.pack_s 4 RIFF; Struct.pack_I nativo tam_riff;
                    Struct.pack_s 4 WAVE];
  c2 ← Struct.pack [Struct.pack_s 4 id_fmt; Struct.pack_I LittleEndian 16;
                    Struct.pack_H LittleEndian 1;
                    Struct.pack_H LittleEndian canales;
                    Struct.pack_I LittleEndian frec_muestreo;
                    Struct.pack_I LittleEndian tasa_bytes;
                    Struct.pack_H LittleEndian bloque;
                    Struct.pack_H LittleEndian bits_muestra];
  c3 ← Struct.pack [Struct.pack_s 4 id_data; Struct.pack_I LittleEndian tam_datos];
  Ok (c1 ++ c2 ++ c3).

(** The [while True] loop of [leer_cabecera]; [n] bounds the number of
    iterations. *)
Fixpoint leer_subchunks (n : nat) (fichero : fichero_bin) (info_audio : dicc_info)
  : resultado (dicc_info * fichero_bin) :=
  match n with
  | O => Err Agotado
  | S n' =>
      let '(cab, fichero) := f_read 8 fichero in
      if decide (length cab < 8)%nat then Ok (info_audio, fichero)
      else
        '(ident, tam) ← Struct.unpack_4sI cab;
        if decide (ident = id_fmt) then
          let '(datos_fmt, fichero) := f_read tam fichero in
          '(fo, ca, fr, _, _, bi) ← Struct.unpack_HHIIHH (take 16 datos_fmt);
          leer_subchunks n' fichero
            (InfoAudio (despl_datos info_audio) (tam_datos info_audio)
                       (Some fo) (Some ca) (Some fr) (Some bi))
        else if decide (ident = id_data) then
          leer_subchunks n' (f_seek_cur tam fichero)
            (InfoAudio (Some (f_tell fichero)) (Some tam)
                       (formato info_audio) (canales info_audio)
                       (frec_muestreo info_audio) (bits_muestra info_audio))
        else
          leer_subchunks n' (f_seek_cur tam fichero) info_audio
  end.

(** [leer_cabecera] (lines 25-62).  The file object is returned with the
    dictionary because the callers go on reading from it.  The loop gets one
    iteration per byte of the file, more than it can use. *)
Definition leer_cabecera (fichero : fichero_bin) : resultado (dicc_info * fichero_bin) :=
  let fichero := f_seek 0 fichero in
  let '(b, fichero) := f_read 12 fichero in
  '(cab_riff, _, tipo_wave) ← Struct.unpack_4sI4s b;
  if decide (cab_riff <> RIFF \/ tipo_wave <> WAVE)
  then Err (TypeError msg_no_wave)
  else
    '(info_audio, fichero) ←
      leer_subchunks (S (length (contenido fichero))) fichero
        (InfoAudio None None None None None None);
    if decide (formato info_audio <> Some 1
               \/ bits_muestra info_audio ∉ [Some 16; Some 32])
    then Err (TypeError msg_formato)
    else Ok (info_audio, fichero).

(** [l[::2]]; [l[1::2]] is [rebanada2 (drop 1 l)]. *)
Fixpoint rebanada2 {A : Type} (l : list A) : list A :=
  match l with
  | [] => []
  | [x] => [x]
  | x :: _ :: resto => x :: rebanada2 resto
  end.

(** [zip(datos[::2], datos[1::2])] *)
Definition pares (datos : list Z) : list (Z * Z) :=
  zip (rebanada2 datos) (rebanada2 (drop 1 datos)).

(** [sum(ps, ())]: the tuples of [ps] one after the other. *)
Definition aplanar (ps : list (Z * Z)) : list Z :=
  flat_map (fun p : Z * Z => [fst p; snd p]) ps.

(** The [if canal == 0: ... elif ... else: raise] block of [estereo2mono]. *)
Definition mono_de_pares (canal : Z) (pares : list (Z * Z)) : resultado (list Z) :=
  if decide (canal = 0) then Ok (map (fun p : Z * Z => fst p) pares)
  else if decide (canal = 1) then Ok (map (fun p : Z * Z => snd p) pares)
  else if decide (canal = 2)
       then Ok (map (fun p : Z * Z => (fst p + snd p) / 2) pares)
  else if decide (canal = 3)
       then Ok (map (fun p : Z * Z => (fst p - snd p) / 2) pares)
  else Err (TypeError msg_canal).

(** [estereo2mono] (lines 64-94): everything up to [datos_mono] is computed
    before the output file is opened. *)
Definition estereo2mono (fic_estereo fic_salida : string) (canal : Z)
    (fs : gmap string (list byte)) : resultado unit * gmap string (list byte) :=
  let calculo :=
    f_est ← open_rb fs fic_estereo;
    '(info, f_est) ← leer_cabecera f_est;
    if decide (canales info <> Some 2) then Err (TypeError msg_no_estereo)
    else
      despl ← entero (despl_datos info);
      let f_est := f_seek despl f_est in
      tam ← entero (tam_datos info);
      let '(datos, f_est) := f_read tam f_est in
      muestras ← Struct.unpack_rep 2 Struct.unpack_h (tam / 2) datos;
      let pares := pares muestras in
      mono ← mono_de_pares canal pares;
      datos_mono ← Struct.pack_rep (Struct.pack_h LittleEndian)
                                   (Z.of_nat (length mono)) mono;
      Ok (info, datos_mono)
  in
  match calculo with
  | Err e => (Err e, fs)
  | Ok (info, datos_mono) =>
      escribir_wb fs fic_salida
        (frec ← entero (frec_muestreo info);
         cab ← crear_cabecera 1 frec 16 (Z.of_nat (length datos_mono));
         Ok (cab ++ datos_mono))
  end.

(** [mono2estereo] (lines 96-118): the left file is read in full before the
    right one is opened; the sample rate of the output is the left one. *)
Definition mono2estereo (fic_izq fic_der fic_salida : string)
    (fs : gmap string (list byte)) : resultado unit * gmap string (list byte) :=
  let calculo :=
    f_izq ← open_rb fs fic_izq;
    '(info_izq, f_izq) ← leer_cabecera f_izq;
    if decide (canales info_izq <> Some 1) then Err (TypeError msg_izq_no_mono)
    else
      despl ← entero (despl_datos info_izq);
      let f_izq := f_seek despl f_izq in
      tam ← entero (tam_datos info_izq);
      let '(leido, f_izq) := f_read tam f_izq in
      datos_izq ← Struct.unpack_rep 2 Struct.unpack_h (tam / 2) leido;
      f_der ← open_rb fs fic_der;
      '(info_der, f_der) ← leer_cabecera f_der;
      if decide (canales info_der <> Some 1) then Err (TypeError msg_der_no_mono)
      else
        despl ← entero (despl_datos info_der);
        let f_der := f_seek despl f_der in
        tam ← entero (tam_datos info_der);
        let '(leido, f_der) := f_read tam f_der in
        datos_der ← Struct.unpack_rep 2 Struct.unpack_h (tam / 2) leido;
        datos_est ← Struct.pack_rep (Struct.pack_h LittleEndian)
                                    (2 * Z.of_nat (length datos_izq))
                                    (aplanar (zip datos_izq datos_der));
        Ok (info_izq, datos_est)
  in
  match calculo with
  | Err e => (Err e, fs)
  | Ok (info_izq, datos_est) =>
      escribir_wb fs fic_salida
        (frec ← entero (frec_muestreo info_izq);
         cab ← crear_cabecera 2 frec 16 (Z.of_nat (length datos_est));
         Ok (cab ++ datos_est))
  end.

(** [((l + r) << 16 & 0xFFFF0000) | ((l - r) & 0xFFFF)] *)
Definition codificado (l r : Z) : Z :=
  Z.lor (Z.land (Z.shiftl (l + r) 16) 0xFFFF0000) (Z.land (l - r) 0xFFFF).

(** [codEstereo] (lines 120-138) *)
Definition codEstereo (fic_entrada fic_codificado : string)
    (fs : gmap string (list byte)) : resultado unit * gmap string (list byte) :=
  let calculo :=
    f ← open_rb fs fic_entrada;
    '(info, f) ← leer_cabecera f;
    if decide (canales info <> Some 2) then Err (TypeError msg_no_estereo)
    else
      despl ← entero (despl_datos info);
      let f := f_seek despl f in
      tam ← entero (tam_datos info);
      let '(leido, f) := f_read tam f in
      datos ← Struct.unpack_rep 2 Struct.unpack_h (tam / 2) leido;
      let pares := pares datos in
      let codificados := map (fun p : Z * Z => codificado (fst p) (snd p)) pares in
      datos_cod ← Struct.pack_rep (Struct.pack_I LittleEndian)
                                  (Z.of_nat (length codificados)) codificados;
      Ok (info, datos_cod)
  in
  match calculo with
  | Err e => (Err e, fs)
  | Ok (info, datos_cod) =>
      escribir_wb fs fic_codificado
        (frec ← entero (frec_muestreo info);
         cab ← crear_cabecera 1 frec 32 (Z.of_nat (length datos_cod));
         Ok (cab ++ datos_cod))
  end.

(** The [for cod in datos] loop of [decEstereo], appending to
    [reconstruido]. *)
Fixpoint reconstruir (datos : list Z) (reconstruido : list Z) : resultado (list Z) :=
  match datos with
  | [] => Ok reconstruido
  | cod :: resto =>
      let suma := Z.land (Z.shiftr cod 16) 0xFFFF in
      let dif := Z.land cod 0xFFFF in
      suma ← (b ← Struct.pack_H LittleEndian suma; Struct.unpack_h1 b);
      dif ← (b ← Struct.pack_H LittleEndian dif; Struct.unpack_h1 b);
      let izq := (suma + dif) / 2 in
      let der := (suma - dif) / 2 in
      reconstruir resto (reconstruido ++ [izq] ++ [der])
  end.

(** The two samples the body of that loop appends for the word [cod]. *)
Definition decodificar (cod : Z) : list Z :=
  let suma := con_signo 2 (Z.land (Z.shiftr cod 16) 0xFFFF) in
  let dif := con_signo 2 (Z.land cod 0xFFFF) in
  [(suma + dif) / 2; (suma - dif) / 2].

(** [decEstereo] (lines 140-167) *)
Definition decEstereo (fic_codificado fic_salida : string)
    (fs : gmap string (list byte)) : resultado unit * gmap string (list byte) :=
  let calculo :=
    f ← open_rb fs fic_codificado;
    '(info, f) ← leer_cabecera f;
    if decide (bits_muestra info <> Some 32) then Err (TypeError msg_no_32)
    else
      despl ← entero (despl_datos info);
      let f := f_seek despl f in
      tam ← entero (tam_datos info);
      let '(leido, f) := f_read tam f in
      datos ← Struct.unpack_rep 4 Struct.unpack_I (tam / 4) leido;
      reconstruido ← reconstruir datos [];
      datos_est ← Struct.pack_rep (Struct.pack_h LittleEndian)
                                  (Z.of_nat (length reconstruido)) reconstruido;
      Ok (info, datos_est)
  in
  match calculo with
  | Err e => (Err e, fs)
  | Ok (info, datos_est) =>
      escribir_wb fs fic_salida
        (frec ← entero (frec_muestreo info);
         cab ← crear_cabecera 2 frec 16 (Z.of_nat (length datos_est));
         Ok (cab ++ datos_est))
  end.

End Estereo.

(** ** Ranges, canonical streams and examples *)

(** The ranges of the fields [h], [H] and [I]. *)
Definition int16 (v : Z) : Prop := -32768 <= v <= 32767.
Definition uint16 (v : Z) : Prop := 0 <= v < 65536.
Definition uint32 (v : Z) : Prop := 0 <= v < 4294967296.

(** The inputs every field of the header can hold. *)
Definition cabecera_valida (canales frec_muestreo bits_muestra tam_datos : Z) : Prop :=
  uint16 canales /\ uint32 frec_muestreo /\
  uint32 (frec_muestreo * canales * bits_muestra / 8) /\
  uint16 (canales * bits_muestra / 8) /\
  uint16 bits_muestra /\ uint32 tam_datos /\ uint32 (36 + tam_datos).

(** The 44 bytes of the header, field by field: the outer triple, the body
    of the format chunk, and the whole. *)
Definition cabecera_riff (nativo : orden_bytes) (tam_datos : Z) : list byte :=
  RIFF ++ codificar nativo 4 (36 + tam_datos) ++ WAVE.

Definition cuerpo_fmt (canales frec_muestreo bits_muestra : Z) : list byte :=
  le_bytes 2 1 ++ le_bytes 2 canales ++ le_bytes 4 frec_muestreo ++
  le_bytes 4 (frec_muestreo * canales * bits_muestra / 8) ++
  le_bytes 2 (canales * bits_muestra / 8) ++ le_bytes 2 bits_muestra.

Definition cabecera_bytes (nativo : orden_bytes)
    (canales frec_muestreo bits_muestra tam_datos : Z) : list byte :=
  cabecera_riff nativo tam_datos ++
  (id_fmt ++ le_bytes 4 16 ++ cuerpo_fmt canales frec_muestreo bits_muestra) ++
  (id_data ++ le_bytes 4 tam_datos).

(** The dictionary before any chunk has been read. *)
Definition info_vacia : dicc_info := InfoAudio None None None None None None.

(** The sum-average and difference-average as claim C3 words them:
    truncating division, rounding toward zero. *)
Definition semisuma_hacia_cero (l r : Z) : Z := Z.quot (l + r) 2.
Definition semidif_hacia_cero (l r : Z) : Z := Z.quot (l - r) 2.

(** A stream with a damaged first marker, and one whose format chunk
    declares format code 3 (floating point). *)
Definition ej_marca_mala : list byte :=
  ["R"; "I"; "F"; "X"]%byte ++ drop 4 (cabecera_bytes LittleEndian 2 44100 16 0).

Definition ej_formato_3 : list byte :=
  take 20 (cabecera_bytes LittleEndian 2 44100 16 0) ++ le_bytes 2 3 ++
  drop 22 (cabecera_bytes LittleEndian 2 44100 16 0).

Definition ej_tramas : list (Z * Z) := [(4, 2); (-4, -2); (1, -1); (-1, -2); (-2, 1)].

Definition ej_datos : list byte := flat_map (le_bytes 2) (aplanar ej_tramas).

Definition ej_cab : list byte := cabecera_bytes LittleEndian 2 44100 16 20.

Definition ej_fs : gmap string (list byte) :=
  {[ "estereo.wav"%string := ej_cab ++ ej_datos ]}.

Definition ej_fs_mono : gmap string (list byte) :=
  {[ "mono.wav"%string := cabecera_bytes LittleEndian 1 44100 16 4 ++
                          flat_map (le_bytes 2) [5; -5] ]}.

Definition ej_izq : list Z := [1; -2; 300; -32768].
Definition ej_der : list Z := [7; 32767; 0; -1].

Definition ej_fs_monos : gmap string (list byte) :=
  <[ "der.wav"%string := cabecera_bytes LittleEndian 1 8000 16 8 ++
                         flat_map (le_bytes 2) ej_der ]>
  {[ "izq.wav"%string := cabecera_bytes LittleEndian 1 44100 16 8 ++
                         flat_map (le_bytes 2) ej_izq ]}.

Definition ej_fs_desiguales : gmap string (list byte) :=
  <[ "corto.wav"%string := cabecera_bytes LittleEndian 1 8000 16 4 ++
                           flat_map (le_bytes 2) [9; -9] ]>
  {[ "largo.wav"%string := cabecera_bytes LittleEndian 1 44100 16 8 ++
                           flat_map (le_bytes 2) ej_izq ]}.

Definition ej_tramas_rango : list (Z * Z) :=
  [(16383, 16383); (-16384, 16383); (0, -5); (-3, -4)].

Definition ej_fs_rango : gmap string (list byte) :=
  {[ "estereo.wav"%string := cabecera_bytes LittleEndian 2 44100 16 16 ++
                             flat_map (le_bytes 2) (aplanar ej_tramas_rango) ]}.

Definition ej_fs_desborde : gmap string (list byte) :=
  {[ "e.wav"%string := cabecera_bytes LittleEndian 2 44100 16 4 ++
                       le_bytes 2 30000 ++ le_bytes 2 30000 ]}.

(** ** Streams and predicates for the further properties *)

(** A stream with one format chunk and one data chunk, every field free: the
    four bytes [sz] of the outer size, the format code [fo], the byte rate
    [ta] and block alignment [bl], the bytes [ext] that extend the format
    chunk beyond its sixteen, the declared payload size [tam] and the bytes
    [resto] that follow the data chunk header. *)
Definition flujo_wave (sz : list byte) (fo ca fr ta bl bi : Z) (ext : list byte)
    (tam : Z) (resto : list byte) : list byte :=
  (RIFF ++ sz ++ WAVE) ++
  (id_fmt ++ le_bytes 4 (16 + Z.of_nat (length ext))) ++
  ((le_bytes 2 fo ++ le_bytes 2 ca ++ le_bytes 4 fr ++ le_bytes 4 ta ++
    le_bytes 2 bl ++ le_bytes 2 bi) ++ ext) ++
  (id_data ++ le_bytes 4 tam) ++ resto.

(** What the dictionary of [leer_cabecera] holds while the chunks of the
    stream [c] are scanned: the four format entries are set together, from
    16- and 32-bit fields, and so are the offset and size of the payload,
    the offset lying behind a chunk header that was read in full. *)
Definition info_coherente (c : list byte) (info : dicc_info) : Prop :=
  ((formato info = None /\ canales info = None /\
    frec_muestreo info = None /\ bits_muestra info = None) \/
   (exists fo ca fr bi,
      formato info = Some fo /\ canales info = Some ca /\
      frec_muestreo info = Some fr /\ bits_muestra info = Some bi /\
      uint16 fo /\ uint16 ca /\ uint32 fr /\ uint16 bi)) /\
  ((despl_datos info = None /\ tam_datos info = None) \/
   (exists d t,
      despl_datos info = Some d /\ tam_datos info = Some t /\
      20 <= d <= Z.of_nat (length c) /\ uint32 t)).

(** A stream whose outer size, byte rate and block alignment are zero, with
    seven channels, a format chunk of eighteen bytes and a payload cut to
    three of its eight declared bytes. *)
Definition ej_flujo : list byte :=
  flujo_wave ["000"; "000"; "000"; "000"]%byte 1 7 44100 0 0 16
    ["000"; "000"]%byte 8 ["a"; "b"; "c"]%byte.




(** A stereo stream whose data chunk declares eight bytes and holds six,
    and a 32-bit one that declares and holds six. *)
Definition ej_fs_truncado : gmap string (list byte) :=
  <[ "seis.wav"%string :=
       flujo_wave (le_bytes 4 42) 1 1 8000 32000 4 32 [] 6
                  (flat_map (le_bytes 2) [1; 2; 3]) ]>
  {[ "cortado.wav"%string :=
       flujo_wave (le_bytes 4 44) 1 2 8000 32000 4 16 [] 8
                  (flat_map (le_bytes 2) [1; 2; 3]) ]}.

(** Two stereo files with the same frames, one with a further sample that
    has no partner; and the same payload declared as 16 and as 32 bits. *)
Definition ej_fs_suelta : gmap string (list byte) :=
  <[ "impar.wav"%string := cabecera_bytes LittleEndian 2 8000 16 10 ++
                           flat_map (le_bytes 2) [1; 2; -3; -4; 99] ]>
  {[ "par.wav"%string := cabecera_bytes LittleEndian 2 8000 16 8 ++
                         flat_map (le_bytes 2) [1; 2; -3; -4] ]}.

Definition ej_fs_bits : gmap string (list byte) :=
  <[ "b32.wav"%string := cabecera_bytes LittleEndian 2 8000 32 8 ++
                         flat_map (le_bytes 2) [1; 2; -3; -4] ]>
  {[ "b16.wav"%string := cabecera_bytes LittleEndian 2 8000 16 8 ++
                         flat_map (le_bytes 2) [1; 2; -3; -4] ]}.

(** A 32-bit file that declares two channels and holds arbitrary words. *)
Definition ej_palabras : list Z := [0; 4294967295; 2147483648; 0xEA600000].

Definition ej_fs_palabras : gmap string (list byte) :=
  {[ "cod.wav"%string := cabecera_bytes LittleEndian 2 8000 32 16 ++
                         flat_map (le_bytes 4) ej_palabras ]}.

(** A mono file whose sample rate, 2^30 Hz, fits a mono header but not the
    stereo header of the merged stream. *)
Definition ej_fs_frec_alta : gmap string (list byte) :=
  {[ "alta.wav"%string := cabecera_bytes LittleEndian 1 1073741824 16 2 ++
                          flat_map (le_bytes 2) [5] ]}.

(** A canonical stereo stream followed by a second data chunk. *)
Definition ej_dos_data : list byte :=
  (cabecera_bytes LittleEndian 2 8000 16 4 ++ flat_map (le_bytes 2) [1; 2]) ++
  (id_data ++ le_bytes 4 2) ++ flat_map (le_bytes 2) [7].

(** A mono file and a stereo file side by side. *)
Definition ej_fs_mixto : gmap string (list byte) :=
  <[ "estereo.wav"%string := ej_cab ++ ej_datos ]> ej_fs_mono.

(** A stream whose format chunk declares fourteen bytes. *)
Definition ej_fmt_corto : list byte :=
  (RIFF ++ le_bytes 4 100 ++ WAVE) ++ (id_fmt ++ le_bytes 4 14) ++
  take 14 (cuerpo_fmt 2 8000 16) ++ id_data ++ le_bytes 4 0.

(** Valid mono files whose merged stream has no stereo header: the left
    file declares 2^30 Hz, so the byte rate of the merged stream is 2^32.
    The right file has as many samples as the left in the first file system
    and one more in the second. *)
Definition ej_fs_sin_cabecera : gmap string (list byte) :=
  <[ "der.wav"%string := cabecera_bytes LittleEndian 1 8000 16 2 ++
                         flat_map (le_bytes 2) [6] ]>
  {[ "izq.wav"%string := cabecera_bytes LittleEndian 1 1073741824 16 2 ++
                         flat_map (le_bytes 2) [5] ]}.

Definition ej_fs_sin_cabecera_largo : gmap string (list byte) :=
  <[ "der.wav"%string := cabecera_bytes LittleEndian 1 8000 16 4 ++
                         flat_map (le_bytes 2) [7; 8] ]>
  {[ "izq.wav"%string := cabecera_bytes LittleEndian 1 1073741824 16 2 ++
                         flat_map (le_bytes 2) [5] ]}.

(** * Properties *)

(** ** Bytes and little-endian fields *)

Lemma Z_of_byte_range (b : byte) : 0 <= Z_of_byte b < 256.
Proof.
  unfold Z_of_byte. pose proof (Byte.to_N_bounded b). lia.
Qed.

Lemma Z_of_byte_of_Z (z : Z) : Z_of_byte (byte_of_Z z) = z mod 256.
Proof.
  unfold Z_of_byte, byte_of_Z.
  assert (Hr : 0 <= z mod 256 < 256) by (apply Z.mod_pos_bound; lia).
  destruct (Byte.of_N (Z.to_N (z mod 256))) as [b|] eqn:E.
  - apply Byte.to_of_N in E. rewrite E. lia.
  - apply Byte.of_N_None_iff in E. lia.
Qed.

Lemma byte_of_Z_of_byte (b : byte) : byte_of_Z (Z_of_byte b) = b.
Proof.
  unfold byte_of_Z, Z_of_byte.
  pose proof (Byte.to_N_bounded b) as Hb.
  rewrite Z.mod_small by lia. rewrite N2Z.id, Byte.of_to_N. reflexivity.
Qed.

Lemma length_le_bytes (n : nat) (v : Z) : length (le_bytes n v) = n.
Proof.
  revert v. induction n as [|n IH]; intros v; simpl; [reflexivity|].
  now rewrite IH.
Qed.

Lemma length_codificar (o : orden_bytes) (n : nat) (v : Z) :
  length (codificar o n v) = n.
Proof.
  destruct o; simpl; [|rewrite length_rev]; apply length_le_bytes.
Qed.

Lemma le_value_range (bs : list byte) :
  0 <= le_value bs < 256 ^ Z.of_nat (length bs).
Proof.
  induction bs as [|b t IH].
  - simpl. lia.
  - cbn [le_value length]. rewrite Nat2Z.inj_succ, Z.pow_succ_r by lia.
    pose proof (Z_of_byte_range b). lia.
Qed.

Lemma le_value_le_bytes (n : nat) (v : Z) :
  le_value (le_bytes n v) = v mod 256 ^ Z.of_nat n.
Proof.
  revert v. induction n as [|n IH]; intros v.
  - simpl. now rewrite Z.mod_1_r.
  - cbn [le_bytes le_value]. rewrite Z_of_byte_of_Z, IH.
    rewrite Z.mod_mod by lia.
    rewrite Nat2Z.inj_succ, Z.pow_succ_r by lia.
    rewrite Z.rem_mul_r by lia. reflexivity.
Qed.

Lemma le_bytes_le_value (bs : list byte) :
  le_bytes (length bs) (le_value bs) = bs.
Proof.
  induction bs as [|b t IH]; [reflexivity|].
  cbn [length le_bytes le_value].
  pose proof (Z_of_byte_range b) as Hb.
  assert (E1 : (Z_of_byte b + 256 * le_value t) mod 256 = Z_of_byte b).
  { symmetry. apply (Z.mod_unique _ _ (le_value t)); lia. }
  assert (E2 : (Z_of_byte b + 256 * le_value t) / 256 = le_value t).
  { symmetry. apply (Z.div_unique _ _ _ (Z_of_byte b)); lia. }
  rewrite E1, E2, IH, byte_of_Z_of_byte. reflexivity.
Qed.

Lemma le_value_le_bytes_small (n : nat) (v : Z) :
  0 <= v < 256 ^ Z.of_nat n -> le_value (le_bytes n v) = v.
Proof.
  intros H. rewrite le_value_le_bytes. now apply Z.mod_small.
Qed.

(** A signed 16-bit sample survives its two little-endian bytes. *)
Lemma unpack_h_le_bytes (v : Z) :
  -32768 <= v <= 32767 -> Struct.unpack_h (le_bytes 2 v) = v.
Proof.
  intros H. unfold Struct.unpack_h, con_signo.
  rewrite le_value_le_bytes. change (256 ^ Z.of_nat 2) with 65536.
  change (65536 / 2) with 32768.
  destruct (Z_lt_le_dec v 0) as [Hn|Hp].
  - replace (v mod 65536) with (v + 65536).
    + rewrite decide_False by lia. lia.
    + apply (Z.mod_unique _ _ (-1)); lia.
  - rewrite Z.mod_small by lia. rewrite decide_True by lia. reflexivity.
Qed.

Lemma unpack_h_range (b : list byte) :
  length b = 2%nat -> -32768 <= Struct.unpack_h b <= 32767.
Proof.
  intros H. unfold Struct.unpack_h, con_signo.
  pose proof (le_value_range b) as Hr. rewrite H in Hr.
  change (256 ^ Z.of_nat 2) with 65536 in *. change (65536 / 2) with 32768.
  destruct (decide (le_value b < 32768)); lia.
Qed.

(** ** Packing and unpacking sequences of fields *)

Lemma pack_h_ok (v : Z) :
  int16 v -> Struct.pack_h LittleEndian v = Ok (le_bytes 2 v).
Proof.
  unfold int16, Struct.pack_h, Struct.pack_int. intros H.
  change (256 ^ Z.of_nat 2 / 2) with 32768.
  rewrite decide_True by lia. reflexivity.
Qed.

Lemma pack_h_inv (v : Z) (b : list byte) :
  Struct.pack_h LittleEndian v = Ok b -> int16 v /\ b = le_bytes 2 v.
Proof.
  unfold int16, Struct.pack_h, Struct.pack_int.
  change (256 ^ Z.of_nat 2 / 2) with 32768.
  case_decide; intros E; inversion E. split; [lia | reflexivity].
Qed.

Lemma pack_H_ok (o : orden_bytes) (v : Z) :
  uint16 v -> Struct.pack_H o v = Ok (codificar o 2 v).
Proof.
  unfold uint16, Struct.pack_H, Struct.pack_uint. intros H.
  change (256 ^ Z.of_nat 2) with 65536.
  rewrite decide_True by lia. reflexivity.
Qed.

Lemma pack_H_inv (o : orden_bytes) (v : Z) (b : list byte) :
  Struct.pack_H o v = Ok b -> uint16 v /\ b = codificar o 2 v.
Proof.
  unfold uint16, Struct.pack_H, Struct.pack_uint.
  change (256 ^ Z.of_nat 2) with 65536.
  case_decide; intros E; inversion E. split; [lia | reflexivity].
Qed.

Lemma pack_I_ok (o : orden_bytes) (v : Z) :
  uint32 v -> Struct.pack_I o v = Ok (codificar o 4 v).
Proof.
  unfold uint32, Struct.pack_I, Struct.pack_uint. intros H.
  change (256 ^ Z.of_nat 4) with 4294967296.
  rewrite decide_True by lia. reflexivity.
Qed.

Lemma pack_I_inv (o : orden_bytes) (v : Z) (b : list byte) :
  Struct.pack_I o v = Ok b -> uint32 v /\ b = codificar o 4 v.
Proof.
  unfold uint32, Struct.pack_I, Struct.pack_uint.
  change (256 ^ Z.of_nat 4) with 4294967296.
  case_decide; intros E; inversion E. split; [lia | reflexivity].
Qed.

Section Secuencias.

Variable campo : Z -> resultado (list byte).
Variable enc : Z -> list byte.
Variable dec : list byte -> Z.
Variable ancho : nat.
Variable P : Z -> Prop.

Hypothesis campo_ok : forall v, P v -> campo v = Ok (enc v).
Hypothesis campo_inv : forall v b, campo v = Ok b -> P v /\ b = enc v.
Hypothesis enc_length : forall v, length (enc v) = ancho.
Hypothesis dec_enc : forall v, P v -> dec (enc v) = v.

Lemma pack_map_ok (vals : list Z) :
  Forall P vals -> Struct.pack (map campo vals) = Ok (flat_map enc vals).
Proof.
  induction 1 as [|v vals Hv _ IH]; [reflexivity|].
  cbn [map Struct.pack flat_map]. rewrite (campo_ok v Hv), IH. reflexivity.
Qed.

Lemma pack_map_inv (vals : list Z) (b : list byte) :
  Struct.pack (map campo vals) = Ok b -> Forall P vals /\ b = flat_map enc vals.
Proof.
  revert b. induction vals as [|v vals IH]; intros b H.
  - inversion H. split; [constructor | reflexivity].
  - cbn [map Struct.pack] in H.
    destruct (campo v) as [bv|] eqn:Ev; [|discriminate].
    destruct (Struct.pack (map campo vals)) as [bs|] eqn:Es; [|discriminate].
    inversion H; subst b.
    destruct (campo_inv _ _ Ev) as [Hv ->].
    destruct (IH _ eq_refl) as [Hvs ->].
    split; [constructor; assumption | reflexivity].
Qed.

Lemma pack_rep_ok (n : Z) (vals : list Z) :
  n = Z.of_nat (length vals) -> Forall P vals ->
  Struct.pack_rep campo n vals = Ok (flat_map enc vals).
Proof.
  intros -> H. unfold Struct.pack_rep.
  rewrite decide_True by reflexivity. now apply pack_map_ok.
Qed.

Lemma pack_rep_inv (n : Z) (vals : list Z) (b : list byte) :
  Struct.pack_rep campo n vals = Ok b ->
  n = Z.of_nat (length vals) /\ Forall P vals /\ b = flat_map enc vals.
Proof.
  unfold Struct.pack_rep.
  destruct (decide (Z.of_nat (length vals) = n)) as [<-|]; [|discriminate].
  intros H. apply pack_map_inv in H. tauto.
Qed.

Lemma length_flat_map_enc (vals : list Z) :
  length (flat_map enc vals) = (ancho * length vals)%nat.
Proof.
  induction vals as [|v vals IH]; cbn [flat_map length]; [lia|].
  rewrite length_app, enc_length, IH. lia.
Qed.

Lemma trozos_flat_map (vals : list Z) :
  Forall P vals ->
  Struct.trozos ancho dec (length vals) (flat_map enc vals) = vals.
Proof.
  induction 1 as [|v vals Hv _ IH]; [reflexivity|].
  cbn [length Struct.trozos flat_map].
  rewrite take_app_length' by (symmetry; apply enc_length).
  rewrite drop_app_length' by (symmetry; apply enc_length).
  rewrite (dec_enc v Hv), IH. reflexivity.
Qed.

Lemma unpack_rep_ok (n : Z) (vals : list Z) :
  n = Z.of_nat (length vals) -> Forall P vals ->
  Struct.unpack_rep ancho dec n (flat_map enc vals) = Ok vals.
Proof.
  intros -> H. unfold Struct.unpack_rep.
  rewrite length_flat_map_enc, Nat2Z.id.
  rewrite decide_True by lia. now rewrite trozos_flat_map.
Qed.

End Secuencias.

(** ** The header written by [crear_cabecera] *)

Ltac caso_campo H :=
  match type of H with
  | context [Struct.pack_I ?o ?v] =>
      let E := fresh "E" in
      destruct (Struct.pack_I o v) eqn:E;
      [apply pack_I_inv in E; destruct E as [? ->] | discriminate H]
  | context [Struct.pack_H ?o ?v] =>
      let E := fresh "E" in
      destruct (Struct.pack_H o v) eqn:E;
      [apply pack_H_inv in E; destruct E as [? ->] | discriminate H]
  end.

Lemma crear_cabecera_inv (nativo : orden_bytes) (ca fr bi tam : Z) (cab : list byte) :
  crear_cabecera nativo ca fr bi tam = Ok cab ->
  cabecera_valida ca fr bi tam /\ cab = cabecera_bytes nativo ca fr bi tam.
Proof.
  unfold crear_cabecera. cbn [Struct.pack mbind resultado_bind Struct.pack_s].
  intros H. repeat caso_campo H.
  cbn [mbind resultado_bind] in H. inversion H.
  split.
  - unfold cabecera_valida. unfold uint32, uint16 in *. repeat split; lia.
  - unfold cabecera_bytes, cabecera_riff, cuerpo_fmt. cbn [codificar]. rewrite ?app_nil_r.
    rewrite <- ?app_assoc. reflexivity.
Qed.

Lemma crear_cabecera_ok (nativo : orden_bytes) (ca fr bi tam : Z) :
  cabecera_valida ca fr bi tam ->
  crear_cabecera nativo ca fr bi tam = Ok (cabecera_bytes nativo ca fr bi tam).
Proof.
  intros (H1 & H2 & H3 & H4 & H5 & H6 & H7).
  unfold crear_cabecera. cbn [Struct.pack mbind resultado_bind Struct.pack_s].
  rewrite (pack_I_ok nativo _ H7), (pack_I_ok _ 16), (pack_H_ok _ 1),
    (pack_H_ok _ _ H1), (pack_I_ok _ _ H2), (pack_I_ok _ _ H3),
    (pack_H_ok _ _ H4), (pack_H_ok _ _ H5), (pack_I_ok _ _ H6)
    by (unfold uint32, uint16; lia).
  cbn [mbind resultado_bind]. unfold cabecera_bytes, cabecera_riff, cuerpo_fmt. cbn [codificar].
  rewrite ?app_nil_r. rewrite <- ?app_assoc. reflexivity.
Qed.

Lemma length_cabecera_bytes (nativo : orden_bytes) (ca fr bi tam : Z) :
  length (cabecera_bytes nativo ca fr bi tam) = 44%nat.
Proof.
  unfold cabecera_bytes, cabecera_riff, cuerpo_fmt.
  rewrite !length_app, length_codificar, !length_le_bytes.
  reflexivity.
Qed.

(** ** Reading from a file object *)

Lemma f_read_en (c pre x post : list byte) (p n : Z) :
  c = pre ++ x ++ post -> p = Z.of_nat (length pre) -> n = Z.of_nat (length x) ->
  f_read n (Fichero c p) = (x, Fichero c (p + n)).
Proof.
  intros -> -> ->. unfold f_read. cbn [contenido posicion].
  rewrite !Nat2Z.id, drop_app_length, take_app_length. reflexivity.
Qed.

Lemma f_read_corto (c : list byte) (p n : Z) :
  0 <= p -> 0 < n -> Z.of_nat (length c) < p + n ->
  (length (fst (f_read n (Fichero c p))) < Z.to_nat n)%nat.
Proof.
  intros Hp Hn H. unfold f_read. cbn [contenido posicion fst].
  rewrite length_take, length_drop. lia.
Qed.

Lemma f_read_length (c : list byte) (p n : Z) :
  (length (fst (f_read n (Fichero c p))) <= Z.to_nat n)%nat /\
  (0 <= p -> 0 < n -> Z.of_nat (length (fst (f_read n (Fichero c p)))) = n ->
   p + n <= Z.of_nat (length c)).
Proof.
  unfold f_read. cbn [contenido posicion fst].
  rewrite length_take, length_drop. lia.
Qed.

Lemma campo_en (pre x post : list byte) (off len : nat) :
  off = length pre -> len = length x ->
  Struct.campo off len (pre ++ x ++ post) = x.
Proof.
  intros -> ->. unfold Struct.campo.
  rewrite drop_app_length, take_app_length. reflexivity.
Qed.

Lemma unpack_4sI_ok (ident : list byte) (tam : Z) :
  length ident = 4%nat -> uint32 tam ->
  Struct.unpack_4sI (ident ++ le_bytes 4 tam) = Ok (ident, tam).
Proof.
  intros Hi Ht. unfold Struct.unpack_4sI.
  rewrite decide_True by (rewrite length_app, length_le_bytes; lia).
  rewrite (campo_en [] ident (le_bytes 4 tam)) by (cbn; congruence).
  rewrite <- (app_nil_r (le_bytes 4 tam)).
  rewrite (campo_en ident (le_bytes 4 tam) []) by (rewrite ?length_le_bytes; congruence).
  unfold Struct.unpack_I. rewrite le_value_le_bytes_small; [reflexivity|exact Ht].
Qed.

Lemma unpack_HHIIHH_ok (fo ca fr ta bl bi : Z) :
  uint16 fo -> uint16 ca -> uint32 fr -> uint32 ta -> uint16 bl -> uint16 bi ->
  Struct.unpack_HHIIHH
    (le_bytes 2 fo ++ le_bytes 2 ca ++ le_bytes 4 fr ++ le_bytes 4 ta ++
     le_bytes 2 bl ++ le_bytes 2 bi) = Ok (fo, ca, fr, ta, bl, bi).
Proof.
  intros Hfo Hca Hfr Hta Hbl Hbi. unfold Struct.unpack_HHIIHH.
  rewrite decide_True by (rewrite !length_app, !length_le_bytes; reflexivity).
  unfold Struct.unpack_H, Struct.unpack_I.
  cbn [le_bytes app Struct.campo take drop].
  repeat match goal with
  | |- context [le_value [byte_of_Z (?v mod 256); ?b]] =>
      change (le_value [byte_of_Z (v mod 256); b]) with (le_value (le_bytes 2 v))
  | |- context [le_value [byte_of_Z (?v mod 256); ?b; ?c; ?d]] =>
      change (le_value [byte_of_Z (v mod 256); b; c; d]) with (le_value (le_bytes 4 v))
  end.
  rewrite !le_value_le_bytes_small by assumption. reflexivity.
Qed.

(** ** The chunk loop *)

Lemma leer_subchunks_S (n : nat) (fichero : fichero_bin) (info_audio : dicc_info) :
  leer_subchunks (S n) fichero info_audio =
  let '(cab, fichero) := f_read 8 fichero in
  if decide (length cab < 8)%nat then Ok (info_audio, fichero)
  else
    '(ident, tam) ← Struct.unpack_4sI cab;
    if decide (ident = id_fmt) then
      let '(datos_fmt, fichero) := f_read tam fichero in
      '(fo, ca, fr, _, _, bi) ← Struct.unpack_HHIIHH (take 16 datos_fmt);
      leer_subchunks n fichero
        (InfoAudio (despl_datos info_audio) (tam_datos info_audio)
                   (Some fo) (Some ca) (Some fr) (Some bi))
    else if decide (ident = id_data) then
      leer_subchunks n (f_seek_cur tam fichero)
        (InfoAudio (Some (f_tell fichero)) (Some tam)
                   (formato info_audio) (canales info_audio)
                   (frec_muestreo info_audio) (bits_muestra info_audio))
    else
      leer_subchunks n (f_seek_cur tam fichero) info_audio.
Proof. reflexivity. Qed.

(** More iterations than needed do not change the outcome. *)
Lemma leer_subchunks_mono (n m : nat) (f : fichero_bin) (info : dicc_info)
    (r : resultado (dicc_info * fichero_bin)) :
  leer_subchunks n f info = r -> r <> Err Agotado -> (n <= m)%nat ->
  leer_subchunks m f info = r.
Proof.
  revert m f info. induction n as [|n IH]; intros m f info H Hr Hm.
  - cbn in H. congruence.
  - destruct m as [|m]; [lia|]. rewrite leer_subchunks_S in *.
    destruct (f_read 8 f) as [cab f1].
    case_decide; [assumption|].
    destruct (Struct.unpack_4sI cab) as [[ident tam]|e];
      cbn [mbind resultado_bind] in *; [|assumption].
    repeat case_decide.
    + destruct (f_read tam f1) as [datos f2].
      destruct (Struct.unpack_HHIIHH (take 16 datos))
        as [[[[[[fo ca] fr] x] y] bi]|e]; cbn [mbind resultado_bind] in *;
        [|assumption].
      apply IH; [assumption|assumption|lia].
    + apply IH; [assumption|assumption|lia].
    + apply IH; [assumption|assumption|lia].
Qed.

(** The loop consumes at least eight bytes per iteration, so a budget of one
    iteration per byte is never exhausted. *)
Lemma leer_subchunks_termina (n : nat) (c : list byte) (p : Z) (info : dicc_info) :
  0 <= p -> Z.max 0 (Z.of_nat (length c) - p) < 8 * Z.of_nat n ->
  leer_subchunks n (Fichero c p) info <> Err Agotado.
Proof.
  revert p info. induction n as [|n IH]; intros p info Hp Hn; [lia|].
  rewrite leer_subchunks_S.
  pose proof (f_read_length c p 8) as [_ Hlen].
  destruct (f_read 8 (Fichero c p)) as [cab f1] eqn:E1.
  assert (Ef1 : f1 = Fichero c (p + Z.of_nat (length cab))).
  { unfold f_read in E1. inversion E1. reflexivity. }
  cbn [fst] in Hlen.
  case_decide as Hc; [discriminate|].
  unfold Struct.unpack_4sI. case_decide as H8; [|discriminate].
  cbn [mbind resultado_bind].
  pose proof (le_value_range (Struct.campo 4 4 cab)) as [Htam _].
  fold (Struct.unpack_I (Struct.campo 4 4 cab)) in Htam.
  set (tam := Struct.unpack_I (Struct.campo 4 4 cab)) in *.
  rewrite H8 in Ef1. specialize (Hlen Hp ltac:(lia) ltac:(lia)).
  subst f1.
  repeat case_decide.
  - match goal with
    | |- context [f_read tam ?f] => destruct (f_read tam f) as [datos f2] eqn:E2
    end.
    unfold f_read in E2. cbn [contenido posicion] in E2.
    injection E2 as Ed <-.
    destruct (Struct.unpack_HHIIHH (take 16 datos))
      as [[[[[[fo ca] fr] x] y] bi]|e] eqn:E3; cbn [mbind resultado_bind].
    + apply IH; lia.
    + unfold Struct.unpack_HHIIHH in E3. case_decide; congruence.
  - unfold f_seek_cur. cbn [contenido posicion]. apply IH; lia.
  - unfold f_seek_cur. cbn [contenido posicion]. apply IH; lia.
Qed.

Theorem leer_cabecera_termina (f : fichero_bin) :
  leer_cabecera f <> Err Agotado.
Proof.
  unfold leer_cabecera, f_seek.
  destruct (f_read 12 (Fichero (contenido f) 0)) as [b f1] eqn:E1.
  assert (Ef1 : f1 = Fichero (contenido f) (0 + Z.of_nat (length b))).
  { unfold f_read in E1. inversion E1. reflexivity. }
  subst f1.
  destruct (Struct.unpack_4sI4s b) as [[[cab_riff x] tipo_wave]|e] eqn:E2;
    cbn [mbind resultado_bind].
  - case_decide; [discriminate|].
    cbn [contenido].
    pose proof (leer_subchunks_termina (S (length (contenido f))) (contenido f)
                  (0 + Z.of_nat (length b))
                  (InfoAudio None None None None None None)) as Ht.
    destruct (leer_subchunks _ _ _) as [[info f2]|e] eqn:E3;
      cbn [mbind resultado_bind].
    + case_decide; discriminate.
    + intros Heq. apply Ht; [lia|lia|congruence].
  - unfold Struct.unpack_4sI4s in E2. case_decide; congruence.
Qed.

(** What [leer_cabecera] does on the first twelve bytes. *)
Lemma leer_cabecera_inicio (c : list byte) (p0 : Z) :
  (12 <= length c)%nat ->
  leer_cabecera (Fichero c p0) =
  if decide (take 4 c <> RIFF \/ take 4 (drop 8 c) <> WAVE)
  then Err (TypeError msg_no_wave)
  else
    '(info_audio, fichero) ← leer_subchunks (S (length c)) (Fichero c 12) info_vacia;
    if decide (formato info_audio <> Some 1
               \/ bits_muestra info_audio ∉ [Some 16; Some 32])
    then Err (TypeError msg_formato)
    else Ok (info_audio, fichero).
Proof.
  intros Hlen. unfold leer_cabecera, f_seek. cbn [contenido].
  rewrite (f_read_en c [] (take 12 c) (drop 12 c) 0 12);
    [|cbn [app]; symmetry; apply take_drop|reflexivity|rewrite length_take; lia].
  unfold Struct.unpack_4sI4s.
  rewrite decide_True by (rewrite length_take; lia).
  cbn [mbind resultado_bind contenido].
  assert (E1 : Struct.campo 0 4 (take 12 c) = take 4 c).
  { unfold Struct.campo. rewrite drop_0, take_take. reflexivity. }
  assert (E2 : Struct.campo 8 4 (take 12 c) = take 4 (drop 8 c)).
  { unfold Struct.campo.
    rewrite take_ge by (rewrite length_drop, length_take; lia).
    symmetry. apply (take_drop_commute c 4 8). }
  rewrite E1, E2. reflexivity.
Qed.

Lemma leer_cabecera_corto (c : list byte) (p0 : Z) :
  (length c < 12)%nat -> leer_cabecera (Fichero c p0) = Err StructError.
Proof.
  intros Hlen. unfold leer_cabecera, f_seek, f_read. cbn [contenido posicion].
  unfold Struct.unpack_4sI4s.
  rewrite decide_False; [reflexivity|].
  rewrite length_take, length_drop. lia.
Qed.

Section Pasos.

Variables (n : nat) (c pre post : list byte) (p : Z) (info : dicc_info).
Hypothesis Hp : p = Z.of_nat (length pre).

Lemma paso_fmt (fo ca fr ta bl bi : Z) :
  c = pre ++ (id_fmt ++ le_bytes 4 16) ++
      (le_bytes 2 fo ++ le_bytes 2 ca ++ le_bytes 4 fr ++ le_bytes 4 ta ++
       le_bytes 2 bl ++ le_bytes 2 bi) ++ post ->
  uint16 fo -> uint16 ca -> uint32 fr -> uint32 ta -> uint16 bl -> uint16 bi ->
  leer_subchunks (S n) (Fichero c p) info =
  leer_subchunks n (Fichero c (p + 8 + 16))
    (InfoAudio (despl_datos info) (tam_datos info)
               (Some fo) (Some ca) (Some fr) (Some bi)).
Proof.
  intros Hc Hfo Hca Hfr Hta Hbl Hbi. rewrite leer_subchunks_S.
  rewrite (f_read_en c pre (id_fmt ++ le_bytes 4 16) _ p 8 Hc Hp eq_refl).
  cbv beta iota. rewrite decide_False by (cbn; lia).
  rewrite unpack_4sI_ok by (reflexivity || (unfold uint32; lia)).
  cbn [mbind resultado_bind]. rewrite decide_True by reflexivity.
  rewrite (f_read_en c (pre ++ id_fmt ++ le_bytes 4 16)
             (le_bytes 2 fo ++ le_bytes 2 ca ++ le_bytes 4 fr ++
              le_bytes 4 ta ++ le_bytes 2 bl ++ le_bytes 2 bi) post (p + 8) 16);
    [|rewrite Hc, <- !app_assoc; reflexivity
     |rewrite length_app, Hp; cbn; lia
     |rewrite !length_app, !length_le_bytes; reflexivity].
  cbv beta iota.
  rewrite take_ge by (rewrite !length_app, !length_le_bytes; cbn; lia).
  rewrite unpack_HHIIHH_ok by assumption.
  cbn [mbind resultado_bind]. reflexivity.
Qed.

Lemma paso_data (tam : Z) :
  c = pre ++ (id_data ++ le_bytes 4 tam) ++ post -> uint32 tam ->
  leer_subchunks (S n) (Fichero c p) info =
  leer_subchunks n (Fichero c (p + 8 + tam))
    (InfoAudio (Some (p + 8)) (Some tam) (formato info) (canales info)
               (frec_muestreo info) (bits_muestra info)).
Proof.
  intros Hc Htam. rewrite leer_subchunks_S.
  rewrite (f_read_en c pre (id_data ++ le_bytes 4 tam) _ p 8 Hc Hp eq_refl).
  cbv beta iota. rewrite decide_False by (cbn; lia).
  rewrite unpack_4sI_ok by (reflexivity || assumption).
  cbn [mbind resultado_bind].
  rewrite decide_False by discriminate. rewrite decide_True by reflexivity.
  reflexivity.
Qed.

Lemma paso_otro (ident : list byte) (tam : Z) :
  c = pre ++ (ident ++ le_bytes 4 tam) ++ post -> uint32 tam ->
  length ident = 4%nat -> ident <> id_fmt -> ident <> id_data ->
  leer_subchunks (S n) (Fichero c p) info =
  leer_subchunks n (Fichero c (p + 8 + tam)) info.
Proof.
  intros Hc Htam Hlen H1 H2. rewrite leer_subchunks_S.
  rewrite (f_read_en c pre (ident ++ le_bytes 4 tam) _ p 8 Hc Hp);
    [|rewrite length_app, length_le_bytes; lia].
  cbv beta iota.
  rewrite decide_False by (rewrite length_app, length_le_bytes; lia).
  rewrite unpack_4sI_ok by assumption.
  cbn [mbind resultado_bind].
  rewrite !decide_False by assumption. reflexivity.
Qed.

End Pasos.

Lemma paso_fin (n : nat) (c : list byte) (p : Z) (info : dicc_info) :
  0 <= p -> Z.of_nat (length c) < p + 8 ->
  leer_subchunks (S n) (Fichero c p) info = Ok (info, snd (f_read 8 (Fichero c p))).
Proof.
  intros Hp Hlen. rewrite leer_subchunks_S.
  pose proof (f_read_corto c p 8 Hp ltac:(lia) Hlen) as Hc.
  destruct (f_read 8 (Fichero c p)) as [cab f1]. cbn [fst snd] in *.
  rewrite decide_True by lia. reflexivity.
Qed.

Lemma f_read_final (c : list byte) (p n : Z) :
  Z.of_nat (length c) <= p -> f_read n (Fichero c p) = ([], Fichero c p).
Proof.
  intros H. unfold f_read. cbn [contenido posicion].
  rewrite drop_ge by lia. rewrite take_nil. cbn [length].
  now rewrite Z.add_0_r.
Qed.

(** ** Canonical streams: header, optional unknown chunk, payload *)

Ltac igualar_posiciones :=
  match goal with
  | |- Ok (InfoAudio (Some ?x) _ _ _ _ _, Fichero _ ?y) =
       Ok (InfoAudio (Some ?x') _ _ _ _ _, Fichero _ ?y') =>
      replace x with x' by lia; replace y with y' by lia; reflexivity
  end.

Section Canonico.

Variables (nativo : orden_bytes) (ca fr bi tam : Z) (payload : list byte).
Hypothesis Hval : cabecera_valida ca fr bi tam.
Hypothesis Hpay : Z.of_nat (length payload) = tam.

Local Abbreviation c1 := (cabecera_riff nativo tam).
Local Abbreviation cfmt := (cuerpo_fmt ca fr bi).

Lemma cabecera_partes :
  cabecera_bytes nativo ca fr bi tam =
  c1 ++ (id_fmt ++ le_bytes 4 16 ++ cfmt) ++ (id_data ++ le_bytes 4 tam).
Proof. reflexivity. Qed.

Lemma length_c1 : length c1 = 12%nat.
Proof.
  unfold cabecera_riff. rewrite !length_app, length_codificar. reflexivity.
Qed.

Lemma length_cuerpo_fmt : length cfmt = 16%nat.
Proof.
  unfold cuerpo_fmt. rewrite !length_app, !length_le_bytes. reflexivity.
Qed.

Lemma take_36_cabecera :
  take 36 (cabecera_bytes nativo ca fr bi tam) =
  c1 ++ (id_fmt ++ le_bytes 4 16 ++ cfmt).
Proof.
  rewrite cabecera_partes, app_assoc. apply take_app_length'.
  rewrite !length_app, length_c1, length_cuerpo_fmt, length_le_bytes. reflexivity.
Qed.

Lemma drop_36_cabecera :
  drop 36 (cabecera_bytes nativo ca fr bi tam) = id_data ++ le_bytes 4 tam.
Proof.
  rewrite cabecera_partes, app_assoc. apply drop_app_length'.
  rewrite !length_app, length_c1, length_cuerpo_fmt, length_le_bytes. reflexivity.
Qed.

(** The scan of a stream with an extra chunk [ident], of declared size [s]
    and body [cuerpo], between the format chunk and the data chunk. *)
Lemma leer_subchunks_con_extra (ident cuerpo : list byte) (s : Z) :
  uint32 s -> Z.of_nat (length cuerpo) = s ->
  length ident = 4%nat -> ident <> id_fmt -> ident <> id_data ->
  let c := take 36 (cabecera_bytes nativo ca fr bi tam) ++
           (ident ++ le_bytes 4 s ++ cuerpo) ++
           drop 36 (cabecera_bytes nativo ca fr bi tam) ++ payload in
  leer_subchunks 4 (Fichero c 12) info_vacia =
  Ok (InfoAudio (Some (52 + s)) (Some tam) (Some 1) (Some ca) (Some fr) (Some bi),
      Fichero c (52 + s + tam)).
Proof.
  intros Hs Hcu Hid H1 H2 c.
  destruct Hval as (V1 & V2 & V3 & V4 & V5 & V6 & V7).
  assert (Hc : c = c1 ++ (id_fmt ++ le_bytes 4 16) ++ cfmt ++
                   (ident ++ le_bytes 4 s) ++ cuerpo ++
                   (id_data ++ le_bytes 4 tam) ++ payload).
  { unfold c. rewrite take_36_cabecera, drop_36_cabecera.
    rewrite <- !app_assoc. reflexivity. }
  assert (Hlen : Z.of_nat (length c) = 52 + s + tam).
  { rewrite Hc, !length_app, length_c1, length_cuerpo_fmt, !length_le_bytes.
    cbn [length id_fmt id_data]. rewrite Hid. lia. }
  clearbody c.
  rewrite (paso_fmt 3 c c1 ((ident ++ le_bytes 4 s) ++ cuerpo ++
             (id_data ++ le_bytes 4 tam) ++ payload) 12 info_vacia
             ltac:(now rewrite length_c1) 1 ca fr (fr * ca * bi / 8) (ca * bi / 8) bi);
    [|rewrite Hc; unfold cuerpo_fmt; rewrite <- !app_assoc; reflexivity
     |unfold uint16; lia|assumption..].
  rewrite (paso_otro 2 c (c1 ++ (id_fmt ++ le_bytes 4 16) ++ cfmt)
             (cuerpo ++ (id_data ++ le_bytes 4 tam) ++ payload)
             (12 + 8 + 16) _ ltac:(rewrite !length_app, length_c1,
               length_cuerpo_fmt, length_le_bytes; reflexivity) ident s);
    [|rewrite Hc, <- !app_assoc; reflexivity|assumption..].
  rewrite (paso_data 1 c (c1 ++ (id_fmt ++ le_bytes 4 16) ++ cfmt ++
                          (ident ++ le_bytes 4 s) ++ cuerpo) payload
             (12 + 8 + 16 + 8 + s) _ ltac:(rewrite !length_app, length_c1,
               length_cuerpo_fmt, !length_le_bytes, Hid;
               cbn [length id_fmt]; lia) tam);
    [|rewrite Hc, <- !app_assoc; reflexivity|assumption].
  rewrite paso_fin by lia.
  rewrite f_read_final by lia. cbn [snd despl_datos tam_datos formato canales
    frec_muestreo bits_muestra info_vacia].
  igualar_posiciones.
Qed.

(** The scan of the stream [crear_cabecera] and the payload make. *)
Lemma leer_subchunks_canonica :
  let c := cabecera_bytes nativo ca fr bi tam ++ payload in
  leer_subchunks 3 (Fichero c 12) info_vacia =
  Ok (InfoAudio (Some 44) (Some tam) (Some 1) (Some ca) (Some fr) (Some bi),
      Fichero c (44 + tam)).
Proof.
  intros c.
  destruct Hval as (V1 & V2 & V3 & V4 & V5 & V6 & V7).
  assert (Hc : c = c1 ++ (id_fmt ++ le_bytes 4 16) ++ cfmt ++
                   (id_data ++ le_bytes 4 tam) ++ payload).
  { unfold c. rewrite cabecera_partes. rewrite <- !app_assoc. reflexivity. }
  assert (Hlen : Z.of_nat (length c) = 44 + tam).
  { rewrite Hc, !length_app, length_c1, length_cuerpo_fmt, !length_le_bytes.
    cbn [length id_fmt id_data]. lia. }
  clearbody c.
  rewrite (paso_fmt 2 c c1 ((id_data ++ le_bytes 4 tam) ++ payload) 12 info_vacia
             ltac:(now rewrite length_c1) 1 ca fr (fr * ca * bi / 8) (ca * bi / 8) bi);
    [|rewrite Hc; unfold cuerpo_fmt; rewrite <- !app_assoc; reflexivity
     |unfold uint16; lia|assumption..].
  rewrite (paso_data 1 c (c1 ++ (id_fmt ++ le_bytes 4 16) ++ cfmt) payload
             (12 + 8 + 16) _ ltac:(rewrite !length_app, length_c1,
               length_cuerpo_fmt, !length_le_bytes; reflexivity) tam);
    [|rewrite Hc, <- !app_assoc; reflexivity|assumption].
  rewrite paso_fin by lia.
  rewrite f_read_final by lia. cbn [snd despl_datos tam_datos formato canales
    frec_muestreo bits_muestra info_vacia].
  igualar_posiciones.
Qed.

End Canonico.

(** The outcome of the scan does not depend on the budget, once it is large
    enough for the scan to finish. *)
Lemma leer_subchunks_det (n m : nat) (f : fichero_bin) (info : dicc_info)
    (r : resultado (dicc_info * fichero_bin)) :
  leer_subchunks n f info = r -> r <> Err Agotado ->
  leer_subchunks m f info <> Err Agotado ->
  leer_subchunks m f info = r.
Proof.
  intros Hn Hr Hm. destruct (Nat.le_ge_cases n m) as [Hle|Hge].
  - now apply (leer_subchunks_mono n m).
  - rewrite <- Hn. symmetry. now apply (leer_subchunks_mono m n).
Qed.

(** [leer_cabecera] in terms of a finished scan of the chunks. *)
Lemma leer_cabecera_scan (n : nat) (c : list byte) (p0 : Z)
    (r : resultado (dicc_info * fichero_bin)) :
  (12 <= length c)%nat ->
  leer_subchunks n (Fichero c 12) info_vacia = r -> r <> Err Agotado ->
  leer_cabecera (Fichero c p0) =
  if decide (take 4 c <> RIFF \/ take 4 (drop 8 c) <> WAVE)
  then Err (TypeError msg_no_wave)
  else
    '(info_audio, fichero) ← r;
    if decide (formato info_audio <> Some 1
               \/ bits_muestra info_audio ∉ [Some 16; Some 32])
    then Err (TypeError msg_formato)
    else Ok (info_audio, fichero).
Proof.
  intros Hlen Hn Hr. rewrite leer_cabecera_inicio by assumption.
  case_decide; [reflexivity|].
  rewrite (leer_subchunks_det n (S (length c)) _ _ r Hn Hr); [reflexivity|].
  apply leer_subchunks_termina; lia.
Qed.

Lemma bits_validos (bi : Z) :
  bi = 16 \/ bi = 32 -> ~ (Some 1 <> Some 1 \/ Some bi ∉ [Some 16; Some 32]).
Proof.
  intros H [E|E]; [congruence|]. apply E.
  destruct H as [-> | ->]; set_solver.
Qed.

Lemma marcas_cabecera (nativo : orden_bytes) (ca fr bi tam : Z) (resto : list byte) :
  let c := take 36 (cabecera_bytes nativo ca fr bi tam) ++ resto in
  (12 <= length c)%nat /\ take 4 c = RIFF /\ take 4 (drop 8 c) = WAVE.
Proof.
  intros c. split; [|split].
  - unfold c. rewrite length_app, length_take, length_cabecera_bytes. lia.
  - destruct nativo; reflexivity.
  - destruct nativo; reflexivity.
Qed.

(** Parsing the stream [crear_cabecera] and the payload make. *)
Lemma leer_cabecera_canonica (nativo : orden_bytes) (ca fr bi tam : Z)
    (payload : list byte) (p0 : Z) :
  cabecera_valida ca fr bi tam -> bi = 16 \/ bi = 32 ->
  Z.of_nat (length payload) = tam ->
  leer_cabecera (Fichero (cabecera_bytes nativo ca fr bi tam ++ payload) p0) =
  Ok (InfoAudio (Some 44) (Some tam) (Some 1) (Some ca) (Some fr) (Some bi),
      Fichero (cabecera_bytes nativo ca fr bi tam ++ payload) (44 + tam)).
Proof.
  intros Hval Hbi Hpay. set (c := cabecera_bytes nativo ca fr bi tam ++ payload).
  pose proof (leer_subchunks_canonica nativo ca fr bi tam payload Hval Hpay) as Hs.
  cbv zeta in Hs. fold c in Hs.
  pose proof (marcas_cabecera nativo ca fr bi tam
                (drop 36 (cabecera_bytes nativo ca fr bi tam) ++ payload))
    as (M1 & M2 & M3).
  cbv zeta in M1, M2, M3. rewrite app_assoc, take_drop in M1, M2, M3. fold c in M1, M2, M3.
  rewrite (leer_cabecera_scan 3 c p0 _ M1 Hs) by discriminate.
  rewrite decide_False by (intros [?|?]; congruence).
  cbn [mbind resultado_bind formato bits_muestra].
  rewrite decide_False by (now apply bits_validos). reflexivity.
Qed.

(** ** The container codec: claims C2, C4, C5 *)

(** C2. For every tuple (channels, sample rate, bits per sample in {16, 32},
    data length) whose header fields all fit their width, [crear_cabecera]
    returns a 44-byte header, and [leer_cabecera] on that header followed by
    a payload of the declared length succeeds with format code 1, the same
    channels, sample rate, bits per sample and payload length, and payload
    offset 44, where the payload starts. *)
Theorem leer_cabecera_crear_cabecera (nativo : orden_bytes)
    (n_canales frec bits tam : Z) (payload : list byte) (p0 : Z) :
  cabecera_valida n_canales frec bits tam ->
  bits = 16 \/ bits = 32 ->
  Z.of_nat (length payload) = tam ->
  exists cab,
    crear_cabecera nativo n_canales frec bits tam = Ok cab /\
    length cab = 44%nat /\
    leer_cabecera (Fichero (cab ++ payload) p0) =
      Ok (InfoAudio (Some 44) (Some tam) (Some 1) (Some n_canales)
                    (Some frec) (Some bits),
          Fichero (cab ++ payload) (44 + tam)) /\
    drop 44 (cab ++ payload) = payload.
Proof.
  intros Hval Hbi Hpay.
  exists (cabecera_bytes nativo n_canales frec bits tam).
  split; [now apply crear_cabecera_ok|].
  split; [apply length_cabecera_bytes|].
  split; [now apply leer_cabecera_canonica|].
  apply drop_app_length'. symmetry. apply length_cabecera_bytes.
Qed.

Lemma leer_cabecera_crear_cabecera_witness :
  exists cab,
    crear_cabecera LittleEndian 2 44100 16 4 = Ok cab /\
    length cab = 44%nat /\
    leer_cabecera (Fichero (cab ++ le_bytes 2 7 ++ le_bytes 2 (-7)) 0) =
      Ok (InfoAudio (Some 44) (Some 4) (Some 1) (Some 2) (Some 44100) (Some 16),
          Fichero (cab ++ le_bytes 2 7 ++ le_bytes 2 (-7)) (44 + 4)) /\
    drop 44 (cab ++ le_bytes 2 7 ++ le_bytes 2 (-7)) = le_bytes 2 7 ++ le_bytes 2 (-7).
Proof.
  apply (leer_cabecera_crear_cabecera LittleEndian 2 44100 16 4
           (le_bytes 2 7 ++ le_bytes 2 (-7)) 0).
  - unfold cabecera_valida, uint16, uint32. repeat split; vm_compute; easy.
  - left. reflexivity.
  - reflexivity.
Defined.

(** C5. In a stream made of the header of [crear_cabecera] and its payload,
    an unknown chunk (a 4-byte tag other than [fmt ] and [data], any declared
    size that fits 32 bits, a body of that size) inserted between the format
    chunk and the data chunk is skipped: [leer_cabecera] returns the same
    format fields and payload length as without it, and the payload offset
    moves by the 8 + size bytes of the chunk and points at the payload. *)
Theorem leer_cabecera_subchunk_desconocido (nativo : orden_bytes)
    (n_canales frec bits tam : Z) (payload : list byte)
    (ident cuerpo : list byte) (s p0 : Z) (cab : list byte) :
  crear_cabecera nativo n_canales frec bits tam = Ok cab ->
  bits = 16 \/ bits = 32 ->
  Z.of_nat (length payload) = tam ->
  length ident = 4%nat -> ident <> id_fmt -> ident <> id_data ->
  uint32 s -> Z.of_nat (length cuerpo) = s ->
  let c := take 36 cab ++ (ident ++ le_bytes 4 s ++ cuerpo) ++ drop 36 cab ++ payload in
  leer_cabecera (Fichero (cab ++ payload) p0) =
    Ok (InfoAudio (Some 44) (Some tam) (Some 1) (Some n_canales)
                  (Some frec) (Some bits),
        Fichero (cab ++ payload) (44 + tam)) /\
  leer_cabecera (Fichero c p0) =
    Ok (InfoAudio (Some (44 + 8 + s)) (Some tam) (Some 1) (Some n_canales)
                  (Some frec) (Some bits),
        Fichero c (44 + 8 + s + tam)) /\
  drop (Z.to_nat (44 + 8 + s)) c = payload.
Proof.
  intros Hcab Hbi Hpay Hid H1 H2 Hs Hcu c.
  apply crear_cabecera_inv in Hcab as [Hval ->].
  split; [now apply leer_cabecera_canonica|].
  pose proof (leer_subchunks_con_extra nativo n_canales frec bits tam payload
                Hval Hpay ident cuerpo s Hs Hcu Hid H1 H2) as Hscan.
  cbv zeta in Hscan. fold c in Hscan.
  pose proof (marcas_cabecera nativo n_canales frec bits tam
                ((ident ++ le_bytes 4 s ++ cuerpo) ++
                 drop 36 (cabecera_bytes nativo n_canales frec bits tam) ++ payload))
    as (M1 & M2 & M3).
  cbv zeta in M1, M2, M3. fold c in M1, M2, M3.
  split.
  - rewrite (leer_cabecera_scan 4 c p0 _ M1 Hscan) by discriminate.
    rewrite decide_False by (intros [?|?]; congruence).
    cbn [mbind resultado_bind formato bits_muestra].
    rewrite decide_False by (now apply bits_validos).
    replace (44 + 8 + s) with (52 + s) by lia. reflexivity.
  - set (cab := cabecera_bytes nativo n_canales frec bits tam) in *.
    assert (Hc : c = (take 36 cab ++ (ident ++ le_bytes 4 s ++ cuerpo) ++ drop 36 cab)
                     ++ payload).
    { unfold c. rewrite <- !app_assoc. reflexivity. }
    rewrite Hc. apply drop_app_length'.
    rewrite !length_app, length_take, length_drop, !length_le_bytes, Hid.
    unfold cab. rewrite length_cabecera_bytes.
    cbn [length id_data]. unfold uint32 in Hs. lia.
Qed.

Lemma leer_cabecera_subchunk_desconocido_witness :
  let cab := cabecera_bytes LittleEndian 2 44100 16 4 in
  let payload := le_bytes 2 7 ++ le_bytes 2 (-7) in
  let c := take 36 cab ++ (["L"; "I"; "S"; "T"]%byte ++ le_bytes 4 3 ++
                           ["a"; "b"; "c"]%byte) ++ drop 36 cab ++ payload in
  leer_cabecera (Fichero c 0) =
    Ok (InfoAudio (Some 55) (Some 4) (Some 1) (Some 2) (Some 44100) (Some 16),
        Fichero c 59) /\
  drop 55 c = payload.
Proof.
  intros cab payload c.
  apply (proj2 (leer_cabecera_subchunk_desconocido LittleEndian 2 44100 16 4 payload
                  ["L"; "I"; "S"; "T"]%byte ["a"; "b"; "c"]%byte 3 0 cab
                  eq_refl (or_introl eq_refl) eq_refl eq_refl
                  ltac:(discriminate) ltac:(discriminate)
                  ltac:(unfold uint32; lia) eq_refl)).
Defined.

(** C4. On a stream of at least twelve bytes, [leer_cabecera] raises the
    [TypeError] of an invalid WAVE file (a format error) as soon as the four
    bytes at offset 0 differ from [RIFF] or the four bytes at offset 8 differ
    from [WAVE].  With both markers in place, once the scan of the chunks has
    finished with the dictionary [info], it raises the [TypeError] of an
    unsupported format (a format error) if the format code in [info] is not 1
    or the bits per sample are neither 16 nor 32. *)
Theorem leer_cabecera_errores (c : list byte) (p0 : Z) :
  (12 <= length c)%nat ->
  (take 4 c <> RIFF \/ take 4 (drop 8 c) <> WAVE ->
   leer_cabecera (Fichero c p0) = Err (TypeError msg_no_wave) /\
   clase (TypeError msg_no_wave) = Some FormatError) /\
  (take 4 c = RIFF -> take 4 (drop 8 c) = WAVE ->
   forall (n : nat) (info : dicc_info) (f : fichero_bin),
     leer_subchunks n (Fichero c 12) info_vacia = Ok (info, f) ->
     formato info <> Some 1 \/
     (bits_muestra info <> Some 16 /\ bits_muestra info <> Some 32) ->
     leer_cabecera (Fichero c p0) = Err (TypeError msg_formato) /\
     clase (TypeError msg_formato) = Some FormatError).
Proof.
  intros Hlen. split.
  - intros Hm. split; [|reflexivity].
    rewrite leer_cabecera_inicio by assumption.
    now rewrite decide_True.
  - intros M1 M2 n info f Hscan Hbad. split; [|reflexivity].
    rewrite (leer_cabecera_scan n c p0 _ Hlen Hscan) by discriminate.
    rewrite decide_False by (intros [?|?]; congruence).
    cbn [mbind resultado_bind].
    rewrite decide_True; [reflexivity|].
    destruct Hbad as [?|[? ?]]; [left; assumption|right].
    intros Hin. inversion Hin as [|? ? ? Hin']; subst; [congruence|].
    inversion Hin' as [|? ? ? Hin'']; subst; [congruence|]. inversion Hin''.
Qed.

Lemma leer_cabecera_errores_witness :
  leer_cabecera (Fichero ej_marca_mala 0) = Err (TypeError msg_no_wave) /\
  leer_cabecera (Fichero ej_formato_3 0) = Err (TypeError msg_formato).
Proof.
  split.
  - apply (proj1 (leer_cabecera_errores ej_marca_mala 0 ltac:(vm_compute; lia))).
    left. vm_compute. discriminate.
  - apply (proj2 (leer_cabecera_errores ej_formato_3 0 ltac:(vm_compute; lia))
             eq_refl eq_refl 3%nat
             (InfoAudio (Some 44) (Some 0) (Some 3) (Some 2) (Some 44100) (Some 16))
             (Fichero ej_formato_3 44)).
    + vm_compute. reflexivity.
    + left. discriminate.
Defined.

(** ** Frames, interleaving and the packed word *)

Lemma rebanada2_cons {A : Type} (a : A) (l : list A) :
  rebanada2 (a :: l) = a :: rebanada2 (drop 1 l).
Proof. destruct l; reflexivity. Qed.

Lemma pares_cons2 (a b : Z) (l : list Z) :
  pares (a :: b :: l) = (a, b) :: pares l.
Proof.
  unfold pares. cbn [drop]. rewrite (rebanada2_cons b l). reflexivity.
Qed.

Lemma pares_aplanar (x : list (Z * Z)) : pares (aplanar x) = x.
Proof.
  induction x as [|[l r] x IH]; [reflexivity|].
  cbn [aplanar flat_map app fst snd]. rewrite pares_cons2.
  fold (aplanar x). now rewrite IH.
Qed.

Lemma length_aplanar (x : list (Z * Z)) :
  length (aplanar x) = (2 * length x)%nat.
Proof.
  induction x as [|p x IH]; [reflexivity|].
  cbn [aplanar flat_map app length]. fold (aplanar x). rewrite IH. lia.
Qed.

Lemma Forall_aplanar (P : Z -> Prop) (x : list (Z * Z)) :
  Forall P (aplanar x) <-> Forall (fun p => P (fst p) /\ P (snd p)) x.
Proof.
  induction x as [|p x IH].
  - split; constructor.
  - cbn [aplanar flat_map app]. fold (aplanar x). split.
    + intros H. inversion H as [|? ? H1 H']; subst.
      inversion H' as [|? ? H2 H'']; subst.
      constructor; [tauto|now apply IH].
    + intros H. inversion H as [|? ? [H1 H2] H']; subst.
      repeat constructor; try assumption. now apply IH.
Qed.

Lemma map_fst_zip (a b : list Z) :
  (length a <= length b)%nat -> map (fun p : Z * Z => fst p) (zip a b) = a.
Proof.
  revert b. induction a as [|x a IH]; intros [|y b] H; cbn in *;
    try reflexivity; try lia.
  rewrite IH by lia. reflexivity.
Qed.

Lemma map_snd_zip (a b : list Z) :
  (length b <= length a)%nat -> map (fun p : Z * Z => snd p) (zip a b) = b.
Proof.
  revert b. induction a as [|x a IH]; intros [|y b] H; cbn in *;
    try reflexivity; try lia.
  rewrite IH by lia. reflexivity.
Qed.

Lemma Forall_zip (P : Z -> Prop) (a b : list Z) :
  Forall P a -> Forall P b ->
  Forall (fun p : Z * Z => P (fst p) /\ P (snd p)) (zip a b).
Proof.
  intros Ha. revert b. induction Ha as [|x a Hx Ha IH]; intros b Hb.
  - constructor.
  - destruct Hb as [|y b Hy Hb]; cbn; constructor; auto.
Qed.

(** The packed word: the low 16 bits of the sum above the low 16 bits of
    the difference. *)
Lemma codificado_valor (l r : Z) :
  codificado l r = ((l + r) mod 65536) * 65536 + (l - r) mod 65536.
Proof.
  unfold codificado.
  change 0xFFFF0000 with (Z.shiftl (Z.ones 16) 16).
  change 0xFFFF with (Z.ones 16).
  rewrite <- Z.shiftl_land, !Z.land_ones, Z.shiftl_mul_pow2 by lia.
  change (2 ^ 16) with 65536.
  symmetry. apply Z.add_nocarry_lor.
  apply Z.bits_inj'. intros n Hn.
  rewrite Z.land_spec, Z.bits_0.
  destruct (Z_lt_le_dec n 16) as [Hlt|Hge].
  - change 65536 with (2 ^ 16) at 2.
    rewrite Z.mul_pow2_bits_low by lia. reflexivity.
  - change 65536 with (2 ^ 16) at 3.
    rewrite (Z.mod_pow2_bits_high (l - r) 16 n) by lia.
    apply andb_false_r.
Qed.

Lemma codificado_uint32 (l r : Z) : uint32 (codificado l r).
Proof.
  rewrite codificado_valor. unfold uint32.
  pose proof (Z.mod_pos_bound (l + r) 65536 ltac:(lia)).
  pose proof (Z.mod_pos_bound (l - r) 65536 ltac:(lia)).
  nia.
Qed.

Lemma codificado_alto (l r : Z) :
  Z.land (Z.shiftr (codificado l r) 16) 0xFFFF = (l + r) mod 65536.
Proof.
  rewrite codificado_valor.
  pose proof (Z.mod_pos_bound (l + r) 65536 ltac:(lia)).
  pose proof (Z.mod_pos_bound (l - r) 65536 ltac:(lia)).
  change 0xFFFF with (Z.ones 16).
  rewrite Z.shiftr_div_pow2, Z.land_ones by lia. change (2 ^ 16) with 65536.
  rewrite Z.div_add_l, Z.div_small, Z.add_0_r by lia.
  apply Z.mod_small. lia.
Qed.

Lemma codificado_bajo (l r : Z) :
  Z.land (codificado l r) 0xFFFF = (l - r) mod 65536.
Proof.
  rewrite codificado_valor.
  pose proof (Z.mod_pos_bound (l - r) 65536 ltac:(lia)).
  change 0xFFFF with (Z.ones 16).
  rewrite Z.land_ones by lia. change (2 ^ 16) with 65536.
  rewrite Z.add_comm, Z.mod_add by lia. apply Z.mod_small. lia.
Qed.

(** Reinterpreting the low 16 bits of a value in the signed 16-bit range
    gives the value back. *)
Lemma con_signo_mod (v : Z) : int16 v -> con_signo 2 (v mod 65536) = v.
Proof.
  intros H. rewrite <- (unpack_h_le_bytes v) at 2 by exact H.
  unfold Struct.unpack_h. now rewrite le_value_le_bytes.
Qed.

Lemma con_signo_int16 (v : Z) : uint16 v -> int16 (con_signo 2 v).
Proof.
  unfold uint16, int16, con_signo. change (256 ^ Z.of_nat 2) with 65536.
  change (65536 / 2) with 32768. intros H. case_decide; lia.
Qed.

(** [struct.unpack('<h', struct.pack('<H', v))[0]] *)
Lemma reinterpretar_ok (v : Z) :
  uint16 v ->
  (b ← Struct.pack_H LittleEndian v; Struct.unpack_h1 b) = Ok (con_signo 2 v).
Proof.
  intros H. rewrite pack_H_ok by exact H. cbn [mbind resultado_bind codificar].
  unfold Struct.unpack_h1. rewrite decide_True by apply length_le_bytes.
  unfold Struct.unpack_h. rewrite le_value_le_bytes_small; [reflexivity|exact H].
Qed.

Lemma mascara_uint16 (v : Z) : uint16 (Z.land v 0xFFFF).
Proof.
  change 0xFFFF with (Z.ones 16). rewrite Z.land_ones by lia.
  apply Z.mod_pos_bound. lia.
Qed.

(** ** The loop of [decEstereo] *)

Lemma reconstruir_decodificar (datos reconstruido : list Z) :
  reconstruir datos reconstruido = Ok (reconstruido ++ flat_map decodificar datos).
Proof.
  revert reconstruido. induction datos as [|cod datos IH]; intros acc.
  - cbn. now rewrite app_nil_r.
  - cbn [reconstruir flat_map].
    rewrite !reinterpretar_ok by apply mascara_uint16.
    cbn [mbind resultado_bind]. rewrite IH.
    unfold decodificar at 2. rewrite <- !app_assoc. reflexivity.
Qed.

Lemma decodificar_int16 (cod : Z) : Forall int16 (decodificar cod).
Proof.
  unfold decodificar.
  pose proof (con_signo_int16 _ (mascara_uint16 (Z.shiftr cod 16))) as Hs.
  pose proof (con_signo_int16 _ (mascara_uint16 cod)) as Hd.
  set (suma := con_signo 2 (Z.land (Z.shiftr cod 16) _)) in *.
  set (dif := con_signo 2 (Z.land cod _)) in *.
  unfold int16 in *.
  pose proof (Z.div_mod (suma + dif) 2 ltac:(lia)).
  pose proof (Z.mod_pos_bound (suma + dif) 2 ltac:(lia)).
  pose proof (Z.div_mod (suma - dif) 2 ltac:(lia)).
  pose proof (Z.mod_pos_bound (suma - dif) 2 ltac:(lia)).
  constructor; [lia|constructor; [lia|constructor]].
Qed.

Lemma decodificar_codificado (l r : Z) :
  int16 (l + r) -> int16 (l - r) -> decodificar (codificado l r) = [l; r].
Proof.
  intros Hs Hd. unfold decodificar.
  rewrite codificado_alto, codificado_bajo, !con_signo_mod by assumption.
  replace (l + r + (l - r)) with (l * 2) by lia.
  replace (l + r - (l - r)) with (r * 2) by lia.
  rewrite !Z.div_mul by lia. reflexivity.
Qed.

Lemma Forall_flat_map_decodificar (datos : list Z) :
  Forall int16 (flat_map decodificar datos).
Proof.
  induction datos as [|cod datos IH]; [constructor|].
  cbn [flat_map]. apply Forall_app. split; [apply decodificar_int16|exact IH].
Qed.

Lemma flat_map_decodificar_codificado (x : list (Z * Z)) :
  Forall (fun p => int16 (fst p + snd p) /\ int16 (fst p - snd p)) x ->
  flat_map decodificar (map (fun p : Z * Z => codificado (fst p) (snd p)) x) = aplanar x.
Proof.
  induction 1 as [|[l r] x [Hs Hd] _ IH]; [reflexivity|].
  cbn [map flat_map aplanar fst snd] in *.
  rewrite decodificar_codificado by assumption. fold (aplanar x).
  rewrite IH. reflexivity.
Qed.

(** ** The four conversions on canonical files *)

Lemma pack_rep_h_ok (n : Z) (vals : list Z) :
  n = Z.of_nat (length vals) -> Forall int16 vals ->
  Struct.pack_rep (Struct.pack_h LittleEndian) n vals = Ok (flat_map (le_bytes 2) vals).
Proof. apply pack_rep_ok. exact pack_h_ok. Qed.

Lemma pack_rep_h_inv (n : Z) (vals : list Z) (b : list byte) :
  Struct.pack_rep (Struct.pack_h LittleEndian) n vals = Ok b ->
  n = Z.of_nat (length vals) /\ Forall int16 vals /\ b = flat_map (le_bytes 2) vals.
Proof. apply pack_rep_inv. exact pack_h_inv. Qed.

Lemma pack_rep_I_ok (n : Z) (vals : list Z) :
  n = Z.of_nat (length vals) -> Forall uint32 vals ->
  Struct.pack_rep (Struct.pack_I LittleEndian) n vals = Ok (flat_map (le_bytes 4) vals).
Proof. apply pack_rep_ok. exact (pack_I_ok LittleEndian). Qed.

Lemma unpack_rep_h_ok (n : Z) (vals : list Z) :
  n = Z.of_nat (length vals) -> Forall int16 vals ->
  Struct.unpack_rep 2 Struct.unpack_h n (flat_map (le_bytes 2) vals) = Ok vals.
Proof.
  apply unpack_rep_ok; [apply length_le_bytes|exact unpack_h_le_bytes].
Qed.

Lemma unpack_rep_I_ok (n : Z) (vals : list Z) :
  n = Z.of_nat (length vals) -> Forall uint32 vals ->
  Struct.unpack_rep 4 Struct.unpack_I n (flat_map (le_bytes 4) vals) = Ok vals.
Proof.
  apply unpack_rep_ok; [apply length_le_bytes|].
  intros v Hv. apply le_value_le_bytes_small. exact Hv.
Qed.

Lemma length_muestras (k : nat) (vals : list Z) :
  Z.of_nat (length (flat_map (le_bytes k) vals)) = Z.of_nat k * Z.of_nat (length vals).
Proof.
  rewrite (length_flat_map_enc (le_bytes k) k) by (intros; apply length_le_bytes).
  lia.
Qed.

(** Seeking to the payload of a canonical file and reading it. *)
Lemma f_read_payload (cab payload : list byte) (p : Z) :
  length cab = 44%nat ->
  f_read (Z.of_nat (length payload)) (f_seek 44 (Fichero (cab ++ payload) p)) =
  (payload, Fichero (cab ++ payload) (44 + Z.of_nat (length payload))).
Proof.
  intros Hcab. unfold f_seek. cbn [contenido].
  apply (f_read_en _ cab payload []); [now rewrite app_nil_r|lia|reflexivity].
Qed.

Ltac abrir_canonico Hfs :=
  unfold open_rb; rewrite Hfs; cbn [mbind resultado_bind];
  rewrite leer_cabecera_canonica
    by first [assumption | reflexivity | left; reflexivity | right; reflexivity];
  cbn [mbind resultado_bind canales bits_muestra despl_datos tam_datos
       frec_muestreo].

Ltac leer_payload :=
  cbn [entero mbind resultado_bind];
  rewrite f_read_payload by apply length_cabecera_bytes;
  cbv beta iota.

Lemma estereo2mono_canonico (nativo : orden_bytes) (fs : gmap string (list byte))
    (ent sal : string) (canal ca fr bi : Z) (muestras : list Z) :
  let datos := flat_map (le_bytes 2) muestras in
  cabecera_valida ca fr bi (Z.of_nat (length datos)) -> bi = 16 \/ bi = 32 ->
  Forall int16 muestras ->
  fs !! ent = Some (cabecera_bytes nativo ca fr bi (Z.of_nat (length datos)) ++ datos) ->
  estereo2mono nativo ent sal canal fs =
  if decide (ca <> 2) then (Err (TypeError msg_no_estereo), fs)
  else
    match (mono ← mono_de_pares canal (pares muestras);
           Struct.pack_rep (Struct.pack_h LittleEndian) (Z.of_nat (length mono)) mono)
    with
    | Err e => (Err e, fs)
    | Ok datos_mono =>
        escribir_wb fs sal
          (cab ← crear_cabecera nativo 1 fr 16 (Z.of_nat (length datos_mono));
           Ok (cab ++ datos_mono))
    end.
Proof.
  intros datos Hval Hbi Hm Hfs. subst datos. unfold estereo2mono.
  abrir_canonico Hfs.
  destruct (decide (ca <> 2)) as [Hca|Hca].
  - rewrite decide_True by congruence. reflexivity.
  - rewrite decide_False by (intros E; apply E; f_equal; lia).
    leer_payload.
    rewrite unpack_rep_h_ok;
      [|rewrite length_muestras; change (Z.of_nat 2) with 2;
        rewrite Z.mul_comm, Z.div_mul by lia; reflexivity|assumption].
    cbn [mbind resultado_bind].
    destruct (mono_de_pares canal (pares muestras)) as [mono|e];
      cbn [mbind resultado_bind]; [|reflexivity].
    destruct (Struct.pack_rep _ _ mono) as [datos_mono|e];
      cbn [mbind resultado_bind frec_muestreo entero]; reflexivity.
Qed.

Lemma cabecera_valida_mono16 (fr n : Z) :
  cabecera_valida 2 fr 16 (4 * n) -> cabecera_valida 1 fr 16 (2 * n).
Proof.
  unfold cabecera_valida, uint16, uint32.
  replace (fr * 2 * 16 / 8) with (fr * 4) by (apply Z.div_unique_exact; lia).
  replace (fr * 1 * 16 / 8) with (fr * 2) by (apply Z.div_unique_exact; lia).
  change (2 * 16 / 8) with 4. change (1 * 16 / 8) with 2. lia.
Qed.

Lemma cabecera_valida_mono32 (fr n : Z) :
  cabecera_valida 2 fr 16 (4 * n) <-> cabecera_valida 1 fr 32 (4 * n).
Proof.
  unfold cabecera_valida, uint16, uint32.
  replace (fr * 2 * 16 / 8) with (fr * 4) by (apply Z.div_unique_exact; lia).
  replace (fr * 1 * 32 / 8) with (fr * 4) by (apply Z.div_unique_exact; lia).
  change (2 * 16 / 8) with 4. change (1 * 32 / 8) with 4. lia.
Qed.

Lemma escribir_cabecera_ok (nativo : orden_bytes) (fs : gmap string (list byte))
    (sal : string) (ca fr bi tam : Z) (datos : list byte) :
  cabecera_valida ca fr bi tam ->
  escribir_wb fs sal (cab ← crear_cabecera nativo ca fr bi tam; Ok (cab ++ datos)) =
  (Ok tt, <[sal := cabecera_bytes nativo ca fr bi tam ++ datos]> fs).
Proof.
  intros H. rewrite crear_cabecera_ok by exact H. reflexivity.
Qed.

Lemma semisuma_int16 (x : list (Z * Z)) :
  Forall (fun p => int16 (fst p) /\ int16 (snd p)) x ->
  Forall int16 (map (fun p : Z * Z => (fst p + snd p) / 2) x).
Proof.
  intros H. apply Forall_map. eapply Forall_impl; [exact H|].
  intros [l r] [Hl Hr]. unfold int16 in *. cbn [fst snd] in *.
  pose proof (Z.div_mod (l + r) 2 ltac:(lia)).
  pose proof (Z.mod_pos_bound (l + r) 2 ltac:(lia)). lia.
Qed.

Lemma semidif_int16 (x : list (Z * Z)) :
  Forall (fun p => int16 (fst p) /\ int16 (snd p)) x ->
  Forall int16 (map (fun p : Z * Z => (fst p - snd p) / 2) x).
Proof.
  intros H. apply Forall_map. eapply Forall_impl; [exact H|].
  intros [l r] [Hl Hr]. unfold int16 in *. cbn [fst snd] in *.
  pose proof (Z.div_mod (l - r) 2 ltac:(lia)).
  pose proof (Z.mod_pos_bound (l - r) 2 ltac:(lia)). lia.
Qed.

(** What the hypotheses on a canonical stereo input file say: the samples
    are in range and the header fields fit. *)
Lemma entrada_estereo (nativo : orden_bytes) (fr : Z) (x : list (Z * Z))
    (cab datos : list byte) :
  Struct.pack_rep (Struct.pack_h LittleEndian) (2 * Z.of_nat (length x)) (aplanar x)
    = Ok datos ->
  crear_cabecera nativo 2 fr 16 (Z.of_nat (length datos)) = Ok cab ->
  Forall int16 (aplanar x) /\ datos = flat_map (le_bytes 2) (aplanar x) /\
  Z.of_nat (length datos) = 4 * Z.of_nat (length x) /\
  cabecera_valida 2 fr 16 (4 * Z.of_nat (length x)) /\
  cab = cabecera_bytes nativo 2 fr 16 (4 * Z.of_nat (length x)).
Proof.
  intros Hd Hc. apply pack_rep_h_inv in Hd as (_ & Hx & ->).
  assert (Hlen : Z.of_nat (length (flat_map (le_bytes 2) (aplanar x))) =
                 4 * Z.of_nat (length x)).
  { rewrite length_muestras, length_aplanar. lia. }
  rewrite Hlen in Hc. apply crear_cabecera_inv in Hc as [Hval ->]. tauto.
Qed.

(** ** The channel transform: claims C3, C6 *)

(** C3 (as amended). For every sequence of stereo frames of signed 16-bit
    samples in a canonical stereo file, [estereo2mono] with [canal = 2] writes
    a mono file whose samples are [(left + right) / 2] and with [canal = 3]
    one whose samples are [(left - right) / 2], where [/] is the floor
    division of [Z] (rounding toward minus infinity, as Python's [//]); both
    conversions succeed. *)
Theorem estereo2mono_semisuma_semidiferencia (nativo : orden_bytes)
    (fs : gmap string (list byte)) (ent sal : string) (frec : Z)
    (x : list (Z * Z)) (cab datos : list byte) :
  Struct.pack_rep (Struct.pack_h LittleEndian) (2 * Z.of_nat (length x)) (aplanar x)
    = Ok datos ->
  crear_cabecera nativo 2 frec 16 (Z.of_nat (length datos)) = Ok cab ->
  fs !! ent = Some (cab ++ datos) ->
  exists cab_m datos_s datos_d,
    crear_cabecera nativo 1 frec 16 (2 * Z.of_nat (length x)) = Ok cab_m /\
    Struct.pack_rep (Struct.pack_h LittleEndian) (Z.of_nat (length x))
      (map (fun p : Z * Z => (fst p + snd p) / 2) x) = Ok datos_s /\
    Struct.pack_rep (Struct.pack_h LittleEndian) (Z.of_nat (length x))
      (map (fun p : Z * Z => (fst p - snd p) / 2) x) = Ok datos_d /\
    estereo2mono nativo ent sal 2 fs = (Ok tt, <[sal := cab_m ++ datos_s]> fs) /\
    estereo2mono nativo ent sal 3 fs = (Ok tt, <[sal := cab_m ++ datos_d]> fs).
Proof.
  intros Hd Hc Hfs.
  destruct (entrada_estereo _ _ _ _ _ Hd Hc) as (Hx & -> & Hlen & Hval & ->).
  pose proof (proj1 (Forall_aplanar int16 x) Hx) as Hx'.
  pose proof (cabecera_valida_mono16 _ _ Hval) as Hvm.
  exists (cabecera_bytes nativo 1 frec 16 (2 * Z.of_nat (length x))),
         (flat_map (le_bytes 2) (map (fun p : Z * Z => (fst p + snd p) / 2) x)),
         (flat_map (le_bytes 2) (map (fun p : Z * Z => (fst p - snd p) / 2) x)).
  split; [now apply crear_cabecera_ok|].
  split; [apply pack_rep_h_ok; [now rewrite length_map|now apply semisuma_int16]|].
  split; [apply pack_rep_h_ok; [now rewrite length_map|now apply semidif_int16]|].
  rewrite <- Hlen in Hfs, Hval.
  split.
  - rewrite (estereo2mono_canonico nativo fs ent sal 2 2 frec 16 (aplanar x))
      by (assumption || (right; reflexivity) || (left; reflexivity)).
    rewrite decide_False by (intros E; now apply E).
    rewrite pares_aplanar. unfold mono_de_pares.
    rewrite decide_False, decide_False, decide_True by lia.
    cbn [mbind resultado_bind].
    rewrite pack_rep_h_ok by (reflexivity || now apply semisuma_int16).
    rewrite length_muestras, length_map. change (Z.of_nat 2) with 2.
    now apply escribir_cabecera_ok.
  - rewrite (estereo2mono_canonico nativo fs ent sal 3 2 frec 16 (aplanar x))
      by (assumption || (right; reflexivity) || (left; reflexivity)).
    rewrite decide_False by (intros E; now apply E).
    rewrite pares_aplanar. unfold mono_de_pares.
    rewrite decide_False, decide_False, decide_False, decide_True by lia.
    cbn [mbind resultado_bind].
    rewrite pack_rep_h_ok by (reflexivity || now apply semidif_int16).
    rewrite length_muestras, length_map. change (Z.of_nat 2) with 2.
    now apply escribir_cabecera_ok.
Qed.

Lemma estereo2mono_semisuma_semidiferencia_witness :
  exists cab_m datos_s datos_d,
    crear_cabecera LittleEndian 1 44100 16 (2 * Z.of_nat (length ej_tramas)) = Ok cab_m /\
    Struct.pack_rep (Struct.pack_h LittleEndian) (Z.of_nat (length ej_tramas))
      (map (fun p : Z * Z => (fst p + snd p) / 2) ej_tramas) = Ok datos_s /\
    Struct.pack_rep (Struct.pack_h LittleEndian) (Z.of_nat (length ej_tramas))
      (map (fun p : Z * Z => (fst p - snd p) / 2) ej_tramas) = Ok datos_d /\
    estereo2mono LittleEndian "estereo.wav" "mono.wav" 2 ej_fs =
      (Ok tt, <["mono.wav"%string := cab_m ++ datos_s]> ej_fs) /\
    estereo2mono LittleEndian "estereo.wav" "mono.wav" 3 ej_fs =
      (Ok tt, <["mono.wav"%string := cab_m ++ datos_d]> ej_fs).
Proof.
  apply (estereo2mono_semisuma_semidiferencia LittleEndian ej_fs
           "estereo.wav" "mono.wav" 44100 ej_tramas ej_cab ej_datos).
  - vm_compute. reflexivity.
  - vm_compute. reflexivity.
  - vm_compute. reflexivity.
Defined.

(** Counterexample to C3 as stated: on the frames of [ej_tramas], which
    contain (-1, -2) and (-2, 1), the samples written are [3; -3; 0; -2; -1]
    for the sum and [1; -1; 1; 0; -2] for the difference, while truncation
    toward zero gives -1 for the negative odd dividends. *)
Lemma estereo2mono_no_trunca_hacia_cero :
  estereo2mono LittleEndian "estereo.wav" "mono.wav" 2 ej_fs =
    (Ok tt, <["mono.wav"%string :=
               cabecera_bytes LittleEndian 1 44100 16 10 ++
               flat_map (le_bytes 2) [3; -3; 0; -2; -1]]> ej_fs) /\
  map (fun p : Z * Z => semisuma_hacia_cero (fst p) (snd p)) ej_tramas
    = [3; -3; 0; -1; 0] /\
  estereo2mono LittleEndian "estereo.wav" "mono.wav" 3 ej_fs =
    (Ok tt, <["mono.wav"%string :=
               cabecera_bytes LittleEndian 1 44100 16 10 ++
               flat_map (le_bytes 2) [1; -1; 1; 0; -2]]> ej_fs) /\
  map (fun p : Z * Z => semidif_hacia_cero (fst p) (snd p)) ej_tramas
    = [1; -1; 1; 0; -1] /\
  flat_map (le_bytes 2) [3; -3; 0; -2; -1] <> flat_map (le_bytes 2) [3; -3; 0; -1; 0] /\
  flat_map (le_bytes 2) [1; -1; 1; 0; -2] <> flat_map (le_bytes 2) [1; -1; 1; 0; -1].
Proof.
  repeat split; try (vm_compute; reflexivity); vm_compute; discriminate.
Qed.

(** C6. [estereo2mono] raises the [TypeError] of a non-stereo file (a
    channel mismatch) on every input whose header parses with channel count
    1, whatever the mode; and on a canonical stereo file it raises the
    [TypeError] of an invalid channel (an invalid mode) for every mode other
    than 0, 1, 2 and 3.  In both cases nothing is written. *)
Theorem estereo2mono_errores (nativo : orden_bytes) (fs : gmap string (list byte))
    (ent sal : string) (canal : Z) :
  (forall (c : list byte) (info : dicc_info) (f : fichero_bin),
     fs !! ent = Some c -> leer_cabecera (Fichero c 0) = Ok (info, f) ->
     canales info = Some 1 ->
     estereo2mono nativo ent sal canal fs = (Err (TypeError msg_no_estereo), fs) /\
     clase (TypeError msg_no_estereo) = Some ChannelMismatchError) /\
  (forall (frec : Z) (x : list (Z * Z)) (cab datos : list byte),
     Struct.pack_rep (Struct.pack_h LittleEndian) (2 * Z.of_nat (length x)) (aplanar x)
       = Ok datos ->
     crear_cabecera nativo 2 frec 16 (Z.of_nat (length datos)) = Ok cab ->
     fs !! ent = Some (cab ++ datos) ->
     canal <> 0 -> canal <> 1 -> canal <> 2 -> canal <> 3 ->
     estereo2mono nativo ent sal canal fs = (Err (TypeError msg_canal), fs) /\
     clase (TypeError msg_canal) = Some InvalidChannelModeError).
Proof.
  split.
  - intros c info f Hfs Hleer Hca. split; [|reflexivity].
    unfold estereo2mono, open_rb. rewrite Hfs. cbn [mbind resultado_bind].
    rewrite Hleer. cbn [mbind resultado_bind].
    rewrite decide_True by congruence. reflexivity.
  - intros frec x cab datos Hd Hc Hfs H0 H1 H2 H3. split; [|reflexivity].
    destruct (entrada_estereo _ _ _ _ _ Hd Hc) as (Hx & -> & Hlen & Hval & ->).
    rewrite <- Hlen in Hfs, Hval.
    rewrite (estereo2mono_canonico nativo fs ent sal canal 2 frec 16 (aplanar x))
      by (assumption || (left; reflexivity)).
    rewrite decide_False by (intros E; now apply E).
    unfold mono_de_pares. rewrite !decide_False by assumption. reflexivity.
Qed.

Lemma estereo2mono_errores_witness :
  estereo2mono LittleEndian "mono.wav" "salida.wav" 0 ej_fs_mono =
    (Err (TypeError msg_no_estereo), ej_fs_mono) /\
  estereo2mono LittleEndian "estereo.wav" "salida.wav" 9 ej_fs =
    (Err (TypeError msg_canal), ej_fs).
Proof.
  split.
  - apply (proj1 (estereo2mono_errores LittleEndian ej_fs_mono
                    "mono.wav" "salida.wav" 0)
             (cabecera_bytes LittleEndian 1 44100 16 4 ++ flat_map (le_bytes 2) [5; -5])
             (InfoAudio (Some 44) (Some 4) (Some 1) (Some 1) (Some 44100) (Some 16))
             (Fichero (cabecera_bytes LittleEndian 1 44100 16 4 ++
                       flat_map (le_bytes 2) [5; -5]) 48)).
    + vm_compute. reflexivity.
    + vm_compute. reflexivity.
    + reflexivity.
  - apply (proj2 (estereo2mono_errores LittleEndian ej_fs
                    "estereo.wav" "salida.wav" 9)
             44100 ej_tramas ej_cab ej_datos).
    + vm_compute. reflexivity.
    + vm_compute. reflexivity.
    + vm_compute. reflexivity.
    + discriminate.
    + discriminate.
    + discriminate.
    + discriminate.
Defined.

(** ** Mono merge: claims C7, C9 *)

Lemma mitad_muestras (vals : list Z) :
  Z.of_nat (length (flat_map (le_bytes 2) vals)) / 2 = Z.of_nat (length vals).
Proof.
  rewrite length_muestras. change (Z.of_nat 2) with 2.
  rewrite Z.mul_comm, Z.div_mul by lia. reflexivity.
Qed.

Lemma mono2estereo_canonico (nativo : orden_bytes) (fs : gmap string (list byte))
    (izq der sal : string) (ca_i fr_i bi_i ca_d fr_d bi_d : Z) (L R : list Z) :
  let datos_i := flat_map (le_bytes 2) L in
  let datos_d := flat_map (le_bytes 2) R in
  cabecera_valida ca_i fr_i bi_i (Z.of_nat (length datos_i)) ->
  bi_i = 16 \/ bi_i = 32 -> Forall int16 L ->
  fs !! izq = Some (cabecera_bytes nativo ca_i fr_i bi_i (Z.of_nat (length datos_i))
                    ++ datos_i) ->
  cabecera_valida ca_d fr_d bi_d (Z.of_nat (length datos_d)) ->
  bi_d = 16 \/ bi_d = 32 -> Forall int16 R ->
  fs !! der = Some (cabecera_bytes nativo ca_d fr_d bi_d (Z.of_nat (length datos_d))
                    ++ datos_d) ->
  mono2estereo nativo izq der sal fs =
  if decide (ca_i <> 1) then (Err (TypeError msg_izq_no_mono), fs)
  else if decide (ca_d <> 1) then (Err (TypeError msg_der_no_mono), fs)
  else
    match Struct.pack_rep (Struct.pack_h LittleEndian) (2 * Z.of_nat (length L))
            (aplanar (zip L R)) with
    | Err e => (Err e, fs)
    | Ok datos_est =>
        escribir_wb fs sal
          (cab ← crear_cabecera nativo 2 fr_i 16 (Z.of_nat (length datos_est));
           Ok (cab ++ datos_est))
    end.
Proof.
  intros datos_i datos_d Hvi Hbi HL Hfi Hvd Hbd HR Hfd. subst datos_i datos_d.
  unfold mono2estereo. abrir_canonico Hfi.
  destruct (decide (ca_i <> 1)) as [Hca|Hca].
  { rewrite decide_True by congruence. reflexivity. }
  rewrite decide_False by (intros E; apply E; f_equal; lia).
  leer_payload.
  rewrite unpack_rep_h_ok by (assumption || now rewrite mitad_muestras).
  cbn [mbind resultado_bind]. abrir_canonico Hfd.
  destruct (decide (ca_d <> 1)) as [Hcd|Hcd].
  { rewrite decide_True by congruence. reflexivity. }
  rewrite decide_False by (intros E; apply E; f_equal; lia).
  leer_payload.
  rewrite unpack_rep_h_ok by (assumption || now rewrite mitad_muestras).
  cbn [mbind resultado_bind].
  destruct (Struct.pack_rep _ _ (aplanar (zip L R))) as [datos_est|e];
    cbn [mbind resultado_bind frec_muestreo entero]; reflexivity.
Qed.

(** What the hypotheses on a canonical 16-bit mono input file say. *)
Lemma entrada_mono (nativo : orden_bytes) (fr : Z) (m : list Z)
    (cab datos : list byte) :
  Struct.pack_rep (Struct.pack_h LittleEndian) (Z.of_nat (length m)) m = Ok datos ->
  crear_cabecera nativo 1 fr 16 (Z.of_nat (length datos)) = Ok cab ->
  Forall int16 m /\ datos = flat_map (le_bytes 2) m /\
  cabecera_valida 1 fr 16 (Z.of_nat (length datos)) /\
  cab = cabecera_bytes nativo 1 fr 16 (Z.of_nat (length datos)).
Proof.
  intros Hd Hc. apply pack_rep_h_inv in Hd as (_ & Hm & ->).
  apply crear_cabecera_inv in Hc as [Hval ->]. tauto.
Qed.

Lemma intercalado_ok (L R : list Z) :
  (length L <= length R)%nat -> Forall int16 L -> Forall int16 R ->
  Struct.pack_rep (Struct.pack_h LittleEndian) (2 * Z.of_nat (length L))
    (aplanar (zip L R)) = Ok (flat_map (le_bytes 2) (aplanar (zip L R))) /\
  Z.of_nat (length (flat_map (le_bytes 2) (aplanar (zip L R)))) =
    4 * Z.of_nat (length L).
Proof.
  intros Hlen HL HR.
  assert (Hz : length (zip L R) = length L) by (rewrite length_zip_with; lia).
  split.
  - apply pack_rep_h_ok; [rewrite length_aplanar, Hz; lia|].
    apply Forall_aplanar. now apply Forall_zip.
  - rewrite length_muestras, length_aplanar, Hz. lia.
Qed.

(** C7 (as amended). For two canonical 16-bit mono files with sample
    sequences [L] and [R] of equal length, provided the merged stream fits a
    stereo header (four times the left sample rate and 36 plus four bytes
    per frame stay below 2^32), [mono2estereo] followed by [estereo2mono]
    with [canal = 0] writes the left file again, header and samples, and
    with [canal = 1] writes the samples of [R] under the header of the left
    file (the sample rate of the merged stream is the left one). *)
Theorem mono2estereo_estereo2mono (nativo : orden_bytes) (fs : gmap string (list byte))
    (izq der est sal : string) (frec_i frec_d : Z) (L R : list Z)
    (cab_i cab_d datos_i datos_d : list byte) :
  length L = length R ->
  Struct.pack_rep (Struct.pack_h LittleEndian) (Z.of_nat (length L)) L = Ok datos_i ->
  Struct.pack_rep (Struct.pack_h LittleEndian) (Z.of_nat (length R)) R = Ok datos_d ->
  crear_cabecera nativo 1 frec_i 16 (Z.of_nat (length datos_i)) = Ok cab_i ->
  crear_cabecera nativo 1 frec_d 16 (Z.of_nat (length datos_d)) = Ok cab_d ->
  fs !! izq = Some (cab_i ++ datos_i) ->
  fs !! der = Some (cab_d ++ datos_d) ->
  cabecera_valida 2 frec_i 16 (4 * Z.of_nat (length L)) ->
  exists fs1,
    mono2estereo nativo izq der est fs = (Ok tt, fs1) /\
    estereo2mono nativo est sal 0 fs1 = (Ok tt, <[sal := cab_i ++ datos_i]> fs1) /\
    estereo2mono nativo est sal 1 fs1 = (Ok tt, <[sal := cab_i ++ datos_d]> fs1).
Proof.
  intros Hlen Hdi Hdd Hci Hcd Hfi Hfd Hve.
  destruct (entrada_mono _ _ _ _ _ Hdi Hci) as (HL & -> & Hvi & ->).
  destruct (entrada_mono _ _ _ _ _ Hdd Hcd) as (HR & -> & Hvd & ->).
  destruct (intercalado_ok L R ltac:(lia) HL HR) as [Hpack Hlen4].
  set (datos_e := flat_map (le_bytes 2) (aplanar (zip L R))) in *.
  exists (<[est := cabecera_bytes nativo 2 frec_i 16 (Z.of_nat (length datos_e))
                   ++ datos_e]> fs).
  split.
  - rewrite (mono2estereo_canonico nativo fs izq der est 1 frec_i 16 1 frec_d 16 L R)
      by (assumption || (left; reflexivity)).
    rewrite !decide_False by (intros E; now apply E).
    rewrite Hpack. fold datos_e. apply escribir_cabecera_ok. now rewrite Hlen4.
  - assert (HLR : Forall int16 (aplanar (zip L R))).
    { apply Forall_aplanar. now apply Forall_zip. }
    assert (Hmono : Z.of_nat (length (flat_map (le_bytes 2) R)) =
                    Z.of_nat (length (flat_map (le_bytes 2) L))).
    { rewrite !length_muestras. lia. }
    split.
    + rewrite (estereo2mono_canonico nativo _ est sal 0 2 frec_i 16 (aplanar (zip L R)));
        [|fold datos_e; now rewrite Hlen4|left; reflexivity|assumption
         |apply lookup_insert_eq].
      rewrite decide_False by (intros E; now apply E).
      rewrite pares_aplanar. unfold mono_de_pares. rewrite decide_True by reflexivity.
      cbn [mbind resultado_bind]. rewrite map_fst_zip by lia.
      rewrite pack_rep_h_ok by (reflexivity || assumption).
      now apply escribir_cabecera_ok.
    + rewrite (estereo2mono_canonico nativo _ est sal 1 2 frec_i 16 (aplanar (zip L R)));
        [|fold datos_e; now rewrite Hlen4|left; reflexivity|assumption
         |apply lookup_insert_eq].
      rewrite decide_False by (intros E; now apply E).
      rewrite pares_aplanar. unfold mono_de_pares.
      rewrite decide_False, decide_True by lia.
      cbn [mbind resultado_bind]. rewrite map_snd_zip by lia.
      rewrite pack_rep_h_ok by (reflexivity || assumption).
      rewrite <- Hmono. apply escribir_cabecera_ok. now rewrite Hmono.
Qed.

Lemma mono2estereo_estereo2mono_witness :
  exists fs1,
    mono2estereo LittleEndian "izq.wav" "der.wav" "est.wav" ej_fs_monos = (Ok tt, fs1) /\
    estereo2mono LittleEndian "est.wav" "sal.wav" 0 fs1 =
      (Ok tt, <["sal.wav"%string := cabecera_bytes LittleEndian 1 44100 16 8 ++
                                    flat_map (le_bytes 2) ej_izq]> fs1) /\
    estereo2mono LittleEndian "est.wav" "sal.wav" 1 fs1 =
      (Ok tt, <["sal.wav"%string := cabecera_bytes LittleEndian 1 44100 16 8 ++
                                    flat_map (le_bytes 2) ej_der]> fs1).
Proof.
  apply (mono2estereo_estereo2mono LittleEndian ej_fs_monos
           "izq.wav" "der.wav" "est.wav" "sal.wav" 44100 8000 ej_izq ej_der
           (cabecera_bytes LittleEndian 1 44100 16 8)
           (cabecera_bytes LittleEndian 1 8000 16 8)
           (flat_map (le_bytes 2) ej_izq) (flat_map (le_bytes 2) ej_der)).
  - reflexivity.
  - vm_compute. reflexivity.
  - vm_compute. reflexivity.
  - vm_compute. reflexivity.
  - vm_compute. reflexivity.
  - vm_compute. reflexivity.
  - vm_compute. reflexivity.
  - unfold cabecera_valida, uint16, uint32. repeat split; vm_compute; easy.
Defined.

(** Counterexample to C7 as stated, without the proviso on the merged
    header: the one-sample mono files of [ej_fs_sin_cabecera] are valid
    (their samples pack, their headers can be built), yet [mono2estereo]
    raises [struct.error] on them, because the byte rate 2^32 of the merged
    stream does not fit its field, and leaves an empty output, from which
    [estereo2mono] recovers nothing. *)
Lemma mono2estereo_estereo2mono_sin_proviso :
  Struct.pack_rep (Struct.pack_h LittleEndian) 1 [5] = Ok (flat_map (le_bytes 2) [5]) /\
  Struct.pack_rep (Struct.pack_h LittleEndian) 1 [6] = Ok (flat_map (le_bytes 2) [6]) /\
  crear_cabecera LittleEndian 1 1073741824 16 2 =
    Ok (cabecera_bytes LittleEndian 1 1073741824 16 2) /\
  crear_cabecera LittleEndian 1 8000 16 2 = Ok (cabecera_bytes LittleEndian 1 8000 16 2) /\
  mono2estereo LittleEndian "izq.wav" "der.wav" "est.wav" ej_fs_sin_cabecera =
    (Err StructError, <["est.wav"%string := []]> ej_fs_sin_cabecera) /\
  estereo2mono LittleEndian "est.wav" "sal.wav" 0
    (<["est.wav"%string := []]> ej_fs_sin_cabecera) =
    (Err StructError, <["est.wav"%string := []]> ej_fs_sin_cabecera) /\
  ~ (forall (nativo : orden_bytes) (fs : gmap string (list byte))
       (izq der est sal : string) (frec_i frec_d : Z) (L R : list Z)
       (cab_i cab_d datos_i datos_d : list byte),
       length L = length R ->
       Struct.pack_rep (Struct.pack_h LittleEndian) (Z.of_nat (length L)) L = Ok datos_i ->
       Struct.pack_rep (Struct.pack_h LittleEndian) (Z.of_nat (length R)) R = Ok datos_d ->
       crear_cabecera nativo 1 frec_i 16 (Z.of_nat (length datos_i)) = Ok cab_i ->
       crear_cabecera nativo 1 frec_d 16 (Z.of_nat (length datos_d)) = Ok cab_d ->
       fs !! izq = Some (cab_i ++ datos_i) ->
       fs !! der = Some (cab_d ++ datos_d) ->
       exists fs1,
         mono2estereo nativo izq der est fs = (Ok tt, fs1) /\
         estereo2mono nativo est sal 0 fs1 = (Ok tt, <[sal := cab_i ++ datos_i]> fs1) /\
         estereo2mono nativo est sal 1 fs1 = (Ok tt, <[sal := cab_i ++ datos_d]> fs1)).
Proof.
  repeat (split; [vm_compute; reflexivity|]).
  intros H.
  destruct (H LittleEndian ej_fs_sin_cabecera "izq.wav"%string "der.wav"%string
              "est.wav"%string "sal.wav"%string 1073741824 8000 [5] [6]
              (cabecera_bytes LittleEndian 1 1073741824 16 2)
              (cabecera_bytes LittleEndian 1 8000 16 2)
              (flat_map (le_bytes 2) [5]) (flat_map (le_bytes 2) [6])
              eq_refl ltac:(vm_compute; reflexivity) ltac:(vm_compute; reflexivity)
              ltac:(vm_compute; reflexivity) ltac:(vm_compute; reflexivity)
              ltac:(vm_compute; reflexivity) ltac:(vm_compute; reflexivity))
    as (fs1 & Hm & _).
  vm_compute in Hm. discriminate Hm.
Qed.

(** C9 (as amended). For two canonical 16-bit mono files with sample
    sequences [L] and [R]: when [R] is longer than [L], provided the merged
    stream fits a stereo header (four times the left sample rate and 36 plus
    four bytes per frame stay below 2^32), [mono2estereo] succeeds and
    writes the [length L] frames made of [L] and the first [length L]
    samples of [R], the other samples of [R] being dropped; when [R] is
    shorter than [L], it raises [struct.error], which is none of the three
    error kinds, and nothing is written. *)
Theorem mono2estereo_longitudes_distintas (nativo : orden_bytes)
    (fs : gmap string (list byte)) (izq der sal : string) (frec_i frec_d : Z)
    (L R : list Z) (cab_i cab_d datos_i datos_d : list byte) :
  Struct.pack_rep (Struct.pack_h LittleEndian) (Z.of_nat (length L)) L = Ok datos_i ->
  Struct.pack_rep (Struct.pack_h LittleEndian) (Z.of_nat (length R)) R = Ok datos_d ->
  crear_cabecera nativo 1 frec_i 16 (Z.of_nat (length datos_i)) = Ok cab_i ->
  crear_cabecera nativo 1 frec_d 16 (Z.of_nat (length datos_d)) = Ok cab_d ->
  fs !! izq = Some (cab_i ++ datos_i) ->
  fs !! der = Some (cab_d ++ datos_d) ->
  ((length L < length R)%nat ->
   cabecera_valida 2 frec_i 16 (4 * Z.of_nat (length L)) ->
   exists cab datos,
     crear_cabecera nativo 2 frec_i 16 (4 * Z.of_nat (length L)) = Ok cab /\
     Struct.pack_rep (Struct.pack_h LittleEndian) (2 * Z.of_nat (length L))
       (aplanar (zip L (take (length L) R))) = Ok datos /\
     length (zip L (take (length L) R)) = length L /\
     mono2estereo nativo izq der sal fs = (Ok tt, <[sal := cab ++ datos]> fs)) /\
  ((length R < length L)%nat ->
   mono2estereo nativo izq der sal fs = (Err StructError, fs) /\
   clase StructError = None).
Proof.
  intros Hdi Hdd Hci Hcd Hfi Hfd.
  destruct (entrada_mono _ _ _ _ _ Hdi Hci) as (HL & -> & Hvi & ->).
  destruct (entrada_mono _ _ _ _ _ Hdd Hcd) as (HR & -> & Hvd & ->).
  pose proof (mono2estereo_canonico nativo fs izq der sal 1 frec_i 16 1 frec_d 16 L R
                Hvi (or_introl eq_refl) HL Hfi Hvd (or_introl eq_refl) HR Hfd) as Hm.
  rewrite !decide_False in Hm by (intros E; now apply E).
  split.
  - intros Hlt Hve.
    destruct (intercalado_ok L R ltac:(lia) HL HR) as [Hpack Hlen4].
    rewrite zip_with_take_r.
    exists (cabecera_bytes nativo 2 frec_i 16 (4 * Z.of_nat (length L))),
           (flat_map (le_bytes 2) (aplanar (zip L R))).
    split; [now apply crear_cabecera_ok|].
    split; [exact Hpack|].
    split; [rewrite length_zip_with; lia|].
    rewrite Hm, Hpack, Hlen4. now apply escribir_cabecera_ok.
  - intros Hlt. split; [|reflexivity].
    rewrite Hm. unfold Struct.pack_rep.
    rewrite decide_False; [reflexivity|].
    rewrite length_aplanar, length_zip_with. lia.
Qed.

Lemma mono2estereo_longitudes_distintas_witness :
  mono2estereo LittleEndian "corto.wav" "largo.wav" "est.wav" ej_fs_desiguales =
    (Ok tt, <["est.wav"%string := cabecera_bytes LittleEndian 2 8000 16 8 ++
                                  flat_map (le_bytes 2) [9; 1; -9; -2]]>
              ej_fs_desiguales) /\
  mono2estereo LittleEndian "largo.wav" "corto.wav" "est.wav" ej_fs_desiguales =
    (Err StructError, ej_fs_desiguales).
Proof.
  split.
  - destruct (proj1 (mono2estereo_longitudes_distintas LittleEndian ej_fs_desiguales
                       "corto.wav" "largo.wav" "est.wav" 8000 44100 [9; -9] ej_izq
                       (cabecera_bytes LittleEndian 1 8000 16 4)
                       (cabecera_bytes LittleEndian 1 44100 16 8)
                       (flat_map (le_bytes 2) [9; -9]) (flat_map (le_bytes 2) ej_izq)
                       eq_refl eq_refl eq_refl eq_refl eq_refl eq_refl)
                ltac:(vm_compute; lia)
                ltac:(unfold cabecera_valida, uint16, uint32;
                      repeat split; vm_compute; easy))
      as (cab & datos & Hcab & Hdatos & _ & Hm).
    vm_compute in Hcab, Hdatos. injection Hcab as <-. injection Hdatos as <-.
    rewrite Hm. vm_compute. reflexivity.
  - apply (proj2 (mono2estereo_longitudes_distintas LittleEndian ej_fs_desiguales
                    "largo.wav" "corto.wav" "est.wav" 44100 8000 ej_izq [9; -9]
                    (cabecera_bytes LittleEndian 1 44100 16 8)
                    (cabecera_bytes LittleEndian 1 8000 16 4)
                    (flat_map (le_bytes 2) ej_izq) (flat_map (le_bytes 2) [9; -9])
                    eq_refl eq_refl eq_refl eq_refl eq_refl eq_refl)
             ltac:(vm_compute; lia)).
Defined.

(** Counterexample to C9 as stated, without the proviso on the merged
    header: in [ej_fs_sin_cabecera_largo] both mono files are valid and the
    right one has more samples than the left, yet [mono2estereo] does not
    write [length L] frames: the byte rate 2^32 of the merged stream does
    not fit its field, [struct.error] is raised and the output is left
    empty. *)
Lemma mono2estereo_longitudes_distintas_sin_proviso :
  Struct.pack_rep (Struct.pack_h LittleEndian) 1 [5] = Ok (flat_map (le_bytes 2) [5]) /\
  Struct.pack_rep (Struct.pack_h LittleEndian) 2 [7; 8]
    = Ok (flat_map (le_bytes 2) [7; 8]) /\
  crear_cabecera LittleEndian 1 1073741824 16 2 =
    Ok (cabecera_bytes LittleEndian 1 1073741824 16 2) /\
  crear_cabecera LittleEndian 1 8000 16 4 = Ok (cabecera_bytes LittleEndian 1 8000 16 4) /\
  (length [5] < length [7; 8])%nat /\
  mono2estereo LittleEndian "izq.wav" "der.wav" "est.wav" ej_fs_sin_cabecera_largo =
    (Err StructError, <["est.wav"%string := []]> ej_fs_sin_cabecera_largo) /\
  ~ (forall (nativo : orden_bytes) (fs : gmap string (list byte))
       (izq der sal : string) (frec_i frec_d : Z) (L R : list Z)
       (cab_i cab_d datos_i datos_d : list byte),
       Struct.pack_rep (Struct.pack_h LittleEndian) (Z.of_nat (length L)) L = Ok datos_i ->
       Struct.pack_rep (Struct.pack_h LittleEndian) (Z.of_nat (length R)) R = Ok datos_d ->
       crear_cabecera nativo 1 frec_i 16 (Z.of_nat (length datos_i)) = Ok cab_i ->
       crear_cabecera nativo 1 frec_d 16 (Z.of_nat (length datos_d)) = Ok cab_d ->
       fs !! izq = Some (cab_i ++ datos_i) ->
       fs !! der = Some (cab_d ++ datos_d) ->
       (length L < length R)%nat ->
       exists contenido_salida,
         mono2estereo nativo izq der sal fs = (Ok tt, <[sal := contenido_salida]> fs)).
Proof.
  repeat (split; [first [vm_compute; reflexivity | cbn; lia]|]).
  intros H.
  destruct (H LittleEndian ej_fs_sin_cabecera_largo "izq.wav"%string "der.wav"%string
              "est.wav"%string 1073741824 8000 [5] [7; 8]
              (cabecera_bytes LittleEndian 1 1073741824 16 2)
              (cabecera_bytes LittleEndian 1 8000 16 4)
              (flat_map (le_bytes 2) [5]) (flat_map (le_bytes 2) [7; 8])
              ltac:(vm_compute; reflexivity) ltac:(vm_compute; reflexivity)
              ltac:(vm_compute; reflexivity) ltac:(vm_compute; reflexivity)
              ltac:(vm_compute; reflexivity) ltac:(vm_compute; reflexivity)
              ltac:(cbn; lia))
    as (salida & Hm).
  vm_compute in Hm. discriminate Hm.
Qed.

(** ** Sum/difference packing: claims C1, C8, C10 *)

Lemma Forall_codificado (x : list (Z * Z)) :
  Forall uint32 (map (fun p : Z * Z => codificado (fst p) (snd p)) x).
Proof.
  apply Forall_map. apply Forall_forall. intros p _. apply codificado_uint32.
Qed.

Lemma length_flat_map_decodificar (datos : list Z) :
  length (flat_map decodificar datos) = (2 * length datos)%nat.
Proof.
  induction datos as [|cod datos IH]; [reflexivity|].
  cbn [flat_map decodificar app length]. rewrite IH. lia.
Qed.

Lemma codEstereo_canonico (nativo : orden_bytes) (fs : gmap string (list byte))
    (ent sal : string) (frec : Z) (x : list (Z * Z)) :
  let datos := flat_map (le_bytes 2) (aplanar x) in
  cabecera_valida 2 frec 16 (Z.of_nat (length datos)) ->
  Forall int16 (aplanar x) ->
  fs !! ent = Some (cabecera_bytes nativo 2 frec 16 (Z.of_nat (length datos)) ++ datos) ->
  codEstereo nativo ent sal fs =
  (Ok tt, <[sal := cabecera_bytes nativo 1 frec 32 (4 * Z.of_nat (length x)) ++
                   flat_map (le_bytes 4)
                     (map (fun p : Z * Z => codificado (fst p) (snd p)) x)]> fs).
Proof.
  intros datos Hval Hx Hfs. subst datos. unfold codEstereo.
  abrir_canonico Hfs. rewrite decide_False by (intros E; now apply E).
  leer_payload.
  rewrite unpack_rep_h_ok by (assumption || now rewrite mitad_muestras).
  cbn [mbind resultado_bind]. rewrite pares_aplanar.
  rewrite pack_rep_I_ok by (reflexivity || apply Forall_codificado).
  cbn [mbind resultado_bind frec_muestreo entero].
  rewrite length_muestras, length_map. change (Z.of_nat 4) with 4.
  apply escribir_cabecera_ok. apply cabecera_valida_mono32.
  rewrite length_muestras, length_aplanar in Hval.
  replace (4 * Z.of_nat (length x)) with (Z.of_nat 2 * Z.of_nat (2 * length x)) by lia.
  exact Hval.
Qed.

Lemma decEstereo_canonico (nativo : orden_bytes) (fs : gmap string (list byte))
    (ent sal : string) (ca frec : Z) (palabras : list Z) :
  let datos := flat_map (le_bytes 4) palabras in
  cabecera_valida ca frec 32 (Z.of_nat (length datos)) ->
  Forall uint32 palabras ->
  fs !! ent = Some (cabecera_bytes nativo ca frec 32 (Z.of_nat (length datos)) ++ datos) ->
  decEstereo nativo ent sal fs =
  escribir_wb fs sal
    (cab ← crear_cabecera nativo 2 frec 16 (4 * Z.of_nat (length palabras));
     Ok (cab ++ flat_map (le_bytes 2) (flat_map decodificar palabras))).
Proof.
  intros datos Hval Hp Hfs. subst datos. unfold decEstereo.
  abrir_canonico Hfs. rewrite decide_False by (intros E; now apply E).
  leer_payload.
  rewrite unpack_rep_I_ok;
    [|rewrite length_muestras; change (Z.of_nat 4) with 4;
      rewrite Z.mul_comm, Z.div_mul by lia; reflexivity|assumption].
  cbn [mbind resultado_bind]. rewrite reconstruir_decodificar.
  cbn [mbind resultado_bind app].
  rewrite pack_rep_h_ok by (reflexivity || apply Forall_flat_map_decodificar).
  cbn [mbind resultado_bind frec_muestreo entero].
  rewrite length_muestras, length_flat_map_decodificar.
  replace (Z.of_nat 2 * Z.of_nat (2 * length palabras))
    with (4 * Z.of_nat (length palabras)) by lia.
  reflexivity.
Qed.

(** C1. For every sequence [x] of stereo frames in a canonical 16-bit stereo
    file such that the sum and the difference of every frame fit the signed
    16-bit range, [codEstereo] followed by [decEstereo] succeeds and writes
    the original file again: the same header and the same interleaved
    samples. *)
Theorem decEstereo_codEstereo (nativo : orden_bytes) (fs : gmap string (list byte))
    (ent cod sal : string) (frec : Z) (x : list (Z * Z)) (cab datos : list byte) :
  Forall (fun p => int16 (fst p + snd p) /\ int16 (fst p - snd p)) x ->
  Struct.pack_rep (Struct.pack_h LittleEndian) (2 * Z.of_nat (length x)) (aplanar x)
    = Ok datos ->
  crear_cabecera nativo 2 frec 16 (Z.of_nat (length datos)) = Ok cab ->
  fs !! ent = Some (cab ++ datos) ->
  exists fs1,
    codEstereo nativo ent cod fs = (Ok tt, fs1) /\
    decEstereo nativo cod sal fs1 = (Ok tt, <[sal := cab ++ datos]> fs1).
Proof.
  intros Hsd Hd Hc Hfs.
  destruct (entrada_estereo _ _ _ _ _ Hd Hc) as (Hx & -> & Hlen & Hval & ->).
  set (palabras := map (fun p : Z * Z => codificado (fst p) (snd p)) x).
  exists (<[cod := cabecera_bytes nativo 1 frec 32 (4 * Z.of_nat (length x)) ++
                   flat_map (le_bytes 4) palabras]> fs).
  assert (Hlp : Z.of_nat (length (flat_map (le_bytes 4) palabras)) =
                4 * Z.of_nat (length x)).
  { rewrite length_muestras. unfold palabras. rewrite length_map. lia. }
  split.
  - rewrite <- Hlen in Hfs, Hval. now apply codEstereo_canonico.
  - rewrite (decEstereo_canonico nativo _ cod sal 1 frec palabras);
      [|rewrite Hlp; now apply cabecera_valida_mono32
       |apply Forall_codificado
       |rewrite Hlp; apply lookup_insert_eq].
    unfold palabras at 2. rewrite flat_map_decodificar_codificado by assumption.
    unfold palabras. rewrite length_map. now apply escribir_cabecera_ok.
Qed.

Lemma decEstereo_codEstereo_witness :
  exists fs1,
    codEstereo LittleEndian "estereo.wav" "cod.wav" ej_fs_rango = (Ok tt, fs1) /\
    decEstereo LittleEndian "cod.wav" "dec.wav" fs1 =
      (Ok tt, <["dec.wav"%string := cabecera_bytes LittleEndian 2 44100 16 16 ++
                                    flat_map (le_bytes 2) (aplanar ej_tramas_rango)]> fs1).
Proof.
  apply (decEstereo_codEstereo LittleEndian ej_fs_rango "estereo.wav" "cod.wav"
           "dec.wav" 44100 ej_tramas_rango).
  - unfold ej_tramas_rango, int16. repeat constructor; cbn; lia.
  - vm_compute. reflexivity.
  - vm_compute. reflexivity.
  - vm_compute. reflexivity.
Defined.

(** C8. For the single frame (30000, 30000) the packed word is 0xEA600000:
    its high half is 0xEA60, the low 16 bits of the sum 60000, and its low
    half is 0, the difference.  [codEstereo] on a canonical stereo file
    holding that frame succeeds and writes a 32-bit mono file whose payload
    is that word; the overflow of the sum wraps, and decoding the word gives
    (-2768, -2768), not the original frame. *)
Theorem codEstereo_desbordamiento (nativo : orden_bytes) (fs : gmap string (list byte))
    (ent sal : string) (frec : Z) (cab : list byte) :
  crear_cabecera nativo 2 frec 16 4 = Ok cab ->
  fs !! ent = Some (cab ++ le_bytes 2 30000 ++ le_bytes 2 30000) ->
  codificado 30000 30000 = 0xEA600000 /\
  Z.shiftr (codificado 30000 30000) 16 = 0xEA60 /\
  (30000 + 30000) mod 65536 = 0xEA60 /\
  Z.land (codificado 30000 30000) 0xFFFF = 0 /\
  decodificar (codificado 30000 30000) = [-2768; -2768] /\
  exists cab_c,
    crear_cabecera nativo 1 frec 32 4 = Ok cab_c /\
    codEstereo nativo ent sal fs = (Ok tt, <[sal := cab_c ++ le_bytes 4 0xEA600000]> fs).
Proof.
  intros Hc Hfs. repeat (split; [reflexivity|]).
  apply crear_cabecera_inv in Hc as [Hval ->].
  exists (cabecera_bytes nativo 1 frec 32 4).
  split; [apply crear_cabecera_ok; now apply (cabecera_valida_mono32 frec 1)|].
  rewrite (codEstereo_canonico nativo fs ent sal frec [(30000, 30000)]).
  - cbn [map flat_map fst snd length app]. rewrite app_nil_r. reflexivity.
  - exact Hval.
  - unfold int16. repeat constructor; cbn; lia.
  - rewrite Hfs. cbn [aplanar flat_map app fst snd]. rewrite app_nil_r. reflexivity.
Qed.

Lemma codEstereo_desbordamiento_witness :
  codificado 30000 30000 = 0xEA600000 /\
  codEstereo LittleEndian "e.wav" "c.wav" ej_fs_desborde =
  (Ok tt, <["c.wav"%string := cabecera_bytes LittleEndian 1 44100 32 4 ++
                              le_bytes 4 0xEA600000]> ej_fs_desborde).
Proof.
  destruct (codEstereo_desbordamiento LittleEndian ej_fs_desborde
              "e.wav" "c.wav" 44100 (cabecera_bytes LittleEndian 2 44100 16 4)
              ltac:(vm_compute; reflexivity) ltac:(vm_compute; reflexivity))
    as (Hw & _ & _ & _ & _ & cab_c & Hcab & Hcod).
  split; [exact Hw|].
  vm_compute in Hcab. injection Hcab as <-. rewrite Hcod. vm_compute. reflexivity.
Defined.

(** C10. For every list of input words, whatever their values, the loop of
    [decEstereo] succeeds; for each word it yields [(sum + diff) / 2] and
    [(sum - diff) / 2], with [sum] and [diff] the two 16-bit halves of the
    word read as signed numbers; every reconstructed sample lies in
    [-32768, 32767], so packing the samples as 16-bit fields succeeds. *)
Theorem reconstruir_en_rango (datos : list Z) :
  exists (reconstruido : list Z) (datos_est : list byte),
    reconstruir datos [] = Ok reconstruido /\
    reconstruido = flat_map decodificar datos /\
    Forall int16 reconstruido /\
    Struct.pack_rep (Struct.pack_h LittleEndian) (Z.of_nat (length reconstruido))
      reconstruido = Ok datos_est.
Proof.
  exists (flat_map decodificar datos),
         (flat_map (le_bytes 2) (flat_map decodificar datos)).
  split; [apply (reconstruir_decodificar datos [])|].
  split; [reflexivity|].
  split; [apply Forall_flat_map_decodificar|].
  apply pack_rep_h_ok; [reflexivity|apply Forall_flat_map_decodificar].
Qed.

(** * Further properties of the code *)

(** ** The header builder *)

Lemma pack_uint_casos (o : orden_bytes) (n : nat) (v : Z) :
  Struct.pack_uint o n v = Ok (codificar o n v) \/
  Struct.pack_uint o n v = Err StructError.
Proof. unfold Struct.pack_uint. case_decide; [left|right]; reflexivity. Qed.

Lemma crear_cabecera_error (nativo : orden_bytes) (ca fr bi tam : Z) (e : excepcion) :
  crear_cabecera nativo ca fr bi tam = Err e -> e = StructError.
Proof.
  unfold crear_cabecera, Struct.pack_I, Struct.pack_H.
  cbn [Struct.pack mbind resultado_bind Struct.pack_s].
  intros H.
  repeat match type of H with
  | context [Struct.pack_uint ?o ?n ?v] =>
      destruct (pack_uint_casos o n v) as [E|E]; rewrite E in H; clear E;
      cbn [mbind resultado_bind] in H; [|congruence]
  end.
  discriminate.
Qed.

(** X1. [crear_cabecera] returns 44 bytes exactly when every field of the
    header, the derived byte rate and block alignment included, fits its
    width; otherwise it raises [struct.error]. *)
Theorem crear_cabecera_casos (nativo : orden_bytes) (ca fr bi tam : Z) :
  (cabecera_valida ca fr bi tam ->
   exists cab, crear_cabecera nativo ca fr bi tam = Ok cab /\ length cab = 44%nat) /\
  (~ cabecera_valida ca fr bi tam ->
   crear_cabecera nativo ca fr bi tam = Err StructError).
Proof.
  split.
  - intros H. exists (cabecera_bytes nativo ca fr bi tam).
    split; [now apply crear_cabecera_ok|apply length_cabecera_bytes].
  - intros H. destruct (crear_cabecera nativo ca fr bi tam) as [cab|e] eqn:E.
    + apply crear_cabecera_inv in E. tauto.
    + apply crear_cabecera_error in E. now subst e.
Qed.

Lemma crear_cabecera_casos_witness :
  (exists cab, crear_cabecera BigEndian 2 44100 16 4 = Ok cab /\ length cab = 44%nat) /\
  crear_cabecera LittleEndian 2 1073741824 16 0 = Err StructError.
Proof.
  split.
  - apply (proj1 (crear_cabecera_casos BigEndian 2 44100 16 4)).
    unfold cabecera_valida, uint16, uint32. repeat split; vm_compute; easy.
  - apply (proj2 (crear_cabecera_casos LittleEndian 2 1073741824 16 0)).
    unfold cabecera_valida, uint16, uint32. intros (_ & _ & [_ H] & _).
    vm_compute in H. discriminate.
Defined.

Ltac plegar_le_value :=
  repeat match goal with
  | |- context [le_value [byte_of_Z (?v mod 256); ?b]] =>
      change (le_value [byte_of_Z (v mod 256); b]) with (le_value (le_bytes 2 v))
  | |- context [le_value [byte_of_Z (?v mod 256); ?b; ?c; ?d]] =>
      change (le_value [byte_of_Z (v mod 256); b; c; d]) with (le_value (le_bytes 4 v))
  end.

(** X2. The layout of the header [crear_cabecera] returns: the four tags at
    offsets 0, 8, 12 and 36; 36 + data size at offset 4, in the byte order
    of the host; then, little-endian, the chunk size 16 at offset 16, the
    format code 1 at 20, the channels at 22, the sample rate at 24, the byte
    rate [frec * canales * bits // 8] at 28, the block alignment
    [canales * bits // 8] at 32, the bits per sample at 34 and the data size
    at 40. *)
Theorem crear_cabecera_campos (nativo : orden_bytes) (ca fr bi tam : Z)
    (cab : list byte) :
  crear_cabecera nativo ca fr bi tam = Ok cab ->
  Struct.campo 0 4 cab = RIFF /\ Struct.campo 8 4 cab = WAVE /\
  Struct.campo 12 4 cab = id_fmt /\ Struct.campo 36 4 cab = id_data /\
  le_value (match nativo with
            | LittleEndian => Struct.campo 4 4 cab
            | BigEndian => rev (Struct.campo 4 4 cab)
            end) = 36 + tam /\
  Struct.unpack_I (Struct.campo 16 4 cab) = 16 /\
  Struct.unpack_H (Struct.campo 20 2 cab) = 1 /\
  Struct.unpack_H (Struct.campo 22 2 cab) = ca /\
  Struct.unpack_I (Struct.campo 24 4 cab) = fr /\
  Struct.unpack_I (Struct.campo 28 4 cab) = fr * ca * bi / 8 /\
  Struct.unpack_H (Struct.campo 32 2 cab) = ca * bi / 8 /\
  Struct.unpack_H (Struct.campo 34 2 cab) = bi /\
  Struct.unpack_I (Struct.campo 40 4 cab) = tam.
Proof.
  intros H. apply crear_cabecera_inv in H as [(V1 & V2 & V3 & V4 & V5 & V6 & V7) ->].
  unfold cabecera_bytes, cabecera_riff, cuerpo_fmt, Struct.unpack_I, Struct.unpack_H.
  destruct nativo;
    cbn [codificar le_bytes app rev Struct.campo take drop RIFF WAVE id_fmt id_data];
    plegar_le_value;
    rewrite !le_value_le_bytes_small
      by first [assumption | unfold uint32, uint16 in *; cbn; lia];
    repeat split; reflexivity.
Qed.

Lemma crear_cabecera_campos_witness :
  Struct.unpack_I (Struct.campo 28 4 (cabecera_bytes LittleEndian 2 44100 16 4)) =
    44100 * 2 * 16 / 8 /\
  Struct.unpack_H (Struct.campo 32 2 (cabecera_bytes LittleEndian 2 44100 16 4)) =
    2 * 16 / 8.
Proof.
  pose proof (crear_cabecera_campos LittleEndian 2 44100 16 4
                (cabecera_bytes LittleEndian 2 44100 16 4)
                ltac:(vm_compute; reflexivity)) as H.
  split; apply H.
Defined.

(** ** The header parser on streams it does not validate *)

Lemma paso_fmt_ext (n : nat) (c pre post ext : list byte) (p : Z) (info : dicc_info)
    (fo ca fr ta bl bi : Z) :
  p = Z.of_nat (length pre) ->
  c = pre ++ (id_fmt ++ le_bytes 4 (16 + Z.of_nat (length ext))) ++
      ((le_bytes 2 fo ++ le_bytes 2 ca ++ le_bytes 4 fr ++ le_bytes 4 ta ++
        le_bytes 2 bl ++ le_bytes 2 bi) ++ ext) ++ post ->
  uint32 (16 + Z.of_nat (length ext)) ->
  uint16 fo -> uint16 ca -> uint32 fr -> uint32 ta -> uint16 bl -> uint16 bi ->
  leer_subchunks (S n) (Fichero c p) info =
  leer_subchunks n (Fichero c (p + 8 + (16 + Z.of_nat (length ext))))
    (InfoAudio (despl_datos info) (tam_datos info)
               (Some fo) (Some ca) (Some fr) (Some bi)).
Proof.
  intros Hp Hc Hk Hfo Hca Hfr Hta Hbl Hbi. rewrite leer_subchunks_S.
  set (cuerpo := le_bytes 2 fo ++ le_bytes 2 ca ++ le_bytes 4 fr ++ le_bytes 4 ta ++
                 le_bytes 2 bl ++ le_bytes 2 bi) in *.
  assert (Hcu : length cuerpo = 16%nat).
  { unfold cuerpo. rewrite !length_app, !length_le_bytes. reflexivity. }
  rewrite (f_read_en c pre (id_fmt ++ le_bytes 4 (16 + Z.of_nat (length ext))) _ p 8
             Hc Hp eq_refl).
  cbv beta iota. rewrite decide_False by (cbn; lia).
  rewrite unpack_4sI_ok by (reflexivity || assumption).
  cbn [mbind resultado_bind]. rewrite decide_True by reflexivity.
  rewrite (f_read_en c (pre ++ id_fmt ++ le_bytes 4 (16 + Z.of_nat (length ext)))
             (cuerpo ++ ext) post (p + 8) (16 + Z.of_nat (length ext)));
    [|rewrite Hc, <- !app_assoc; reflexivity
     |rewrite length_app, Hp; cbn; lia
     |rewrite length_app, Hcu; lia].
  cbv beta iota. rewrite take_app_length' by exact Hcu.
  unfold cuerpo. rewrite unpack_HHIIHH_ok by assumption.
  cbn [mbind resultado_bind]. reflexivity.
Qed.

Lemma f_read_cola (c : list byte) (p : Z) :
  0 <= p -> Z.of_nat (length c) < p + 8 ->
  snd (f_read 8 (Fichero c p)) = Fichero c (Z.max p (Z.of_nat (length c))).
Proof.
  intros Hp Hlen. unfold f_read. cbn [snd contenido posicion]. f_equal.
  rewrite length_take, length_drop. lia.
Qed.

Section Flujo.

Variables (sz ext resto : list byte) (fo ca fr ta bl bi tam : Z).
Hypothesis Hsz : length sz = 4%nat.
Hypothesis Hext : uint32 (16 + Z.of_nat (length ext)).
Hypothesis Hfo : uint16 fo.
Hypothesis Hca : uint16 ca.
Hypothesis Hfr : uint32 fr.
Hypothesis Hta : uint32 ta.
Hypothesis Hbl : uint16 bl.
Hypothesis Hbi : uint16 bi.
Hypothesis Htam : uint32 tam.
Hypothesis Hresto : Z.of_nat (length resto) < tam + 8.

Local Abbreviation c := (flujo_wave sz fo ca fr ta bl bi ext tam resto).

Lemma length_flujo_wave :
  Z.of_nat (length c) = 44 + Z.of_nat (length ext) + Z.of_nat (length resto).
Proof.
  unfold flujo_wave. rewrite !length_app, !length_le_bytes, Hsz.
  cbn [length RIFF WAVE id_fmt id_data]. lia.
Qed.

Lemma marcas_flujo_wave :
  (12 <= length c)%nat /\ take 4 c = RIFF /\ take 4 (drop 8 c) = WAVE.
Proof.
  split; [pose proof length_flujo_wave; lia|].
  unfold flujo_wave.
  destruct sz as [|b0 [|b1 [|b2 [|b3 [|b4 sz']]]]]; try discriminate Hsz.
  split; reflexivity.
Qed.

Lemma leer_subchunks_flujo :
  leer_subchunks 3 (Fichero c 12) info_vacia =
  Ok (InfoAudio (Some (44 + Z.of_nat (length ext))) (Some tam)
                (Some fo) (Some ca) (Some fr) (Some bi),
      Fichero c (44 + Z.of_nat (length ext) + Z.max tam (Z.of_nat (length resto)))).
Proof.
  pose proof length_flujo_wave as Hlen.
  assert (H12 : length (RIFF ++ sz ++ WAVE) = 12%nat).
  { rewrite !length_app, Hsz. reflexivity. }
  rewrite (paso_fmt_ext 2 c (RIFF ++ sz ++ WAVE) ((id_data ++ le_bytes 4 tam) ++ resto)
             ext 12 info_vacia fo ca fr ta bl bi);
    [|now rewrite H12|reflexivity|assumption..].
  rewrite (paso_data 1 c
             ((RIFF ++ sz ++ WAVE) ++
              (id_fmt ++ le_bytes 4 (16 + Z.of_nat (length ext))) ++
              ((le_bytes 2 fo ++ le_bytes 2 ca ++ le_bytes 4 fr ++ le_bytes 4 ta ++
                le_bytes 2 bl ++ le_bytes 2 bi) ++ ext))
             resto (12 + 8 + (16 + Z.of_nat (length ext))) _
             ltac:(rewrite length_app, H12, !length_app, !length_le_bytes;
                   cbn [length id_fmt]; lia) tam);
    [|unfold flujo_wave; rewrite <- !app_assoc; reflexivity|assumption].
  unfold uint32 in Htam.
  rewrite paso_fin by (rewrite ?Hlen; lia).
  rewrite f_read_cola by (rewrite ?Hlen; lia).
  cbn [despl_datos tam_datos formato canales frec_muestreo bits_muestra info_vacia].
  rewrite Hlen.
  replace (12 + 8 + (16 + Z.of_nat (length ext)) + 8)
    with (44 + Z.of_nat (length ext)) by lia.
  replace (Z.max (44 + Z.of_nat (length ext) + tam)
             (44 + Z.of_nat (length ext) + Z.of_nat (length resto)))
    with (44 + Z.of_nat (length ext) + Z.max tam (Z.of_nat (length resto))) by lia.
  reflexivity.
Qed.

Lemma leer_cabecera_flujo (p0 : Z) :
  leer_cabecera (Fichero c p0) =
  if decide (fo <> 1 \/ (bi <> 16 /\ bi <> 32))
  then Err (TypeError msg_formato)
  else Ok (InfoAudio (Some (44 + Z.of_nat (length ext))) (Some tam)
                     (Some fo) (Some ca) (Some fr) (Some bi),
           Fichero c (44 + Z.of_nat (length ext) + Z.max tam (Z.of_nat (length resto)))).
Proof.
  destruct marcas_flujo_wave as (M1 & M2 & M3).
  rewrite (leer_cabecera_scan 3 c p0 _ M1 leer_subchunks_flujo) by discriminate.
  rewrite decide_False by (intros [?|?]; congruence).
  cbn [mbind resultado_bind formato bits_muestra].
  destruct (decide (fo <> 1 \/ (bi <> 16 /\ bi <> 32))) as [Hbad|Hok].
  - rewrite decide_True; [reflexivity|].
    destruct Hbad as [?|[? ?]]; [left; congruence|right].
    intros Hin. inversion Hin as [|? ? ? Hin']; subst; [congruence|].
    inversion Hin' as [|? ? ? Hin'']; subst; [congruence|]. inversion Hin''.
  - rewrite decide_False; [reflexivity|].
    intros [E|E]; apply Hok.
    + left. congruence.
    + right. split; intros ->; apply E; [left|right; left].
Qed.

End Flujo.

(** X3. The chunk loop of [leer_cabecera] terminates on every file: an
    iteration that does not stop the loop consumes at least the eight bytes
    of a chunk header, so one iteration per eight bytes of the file, plus
    one, is a budget the loop never exhausts, from any position and with any
    dictionary; and [leer_cabecera] never runs out of its budget. *)
Theorem leer_cabecera_bucle_termina (c : list byte) (p : nat) (info : dicc_info)
    (p0 : Z) :
  leer_subchunks (S (length c / 8)) (Fichero c (Z.of_nat p)) info <> Err Agotado /\
  leer_cabecera (Fichero c p0) <> Err Agotado.
Proof.
  split; [|apply leer_cabecera_termina].
  apply leer_subchunks_termina; [lia|].
  pose proof (Nat.div_mod_eq (length c) 8) as Hd.
  pose proof (Nat.mod_upper_bound (length c) 8 ltac:(lia)) as Hm.
  lia.
Qed.

(** X4. A file shorter than the twelve bytes of the outer triple, the empty
    file included, makes [leer_cabecera] raise [struct.error], which is none
    of the three error kinds, and so does every conversion given such a file
    as its (first) input; nothing is written. *)
Theorem fichero_corto (nativo : orden_bytes) (fs : gmap string (list byte))
    (ent otro sal : string) (canal p0 : Z) (c : list byte) :
  (length c < 12)%nat -> fs !! ent = Some c ->
  leer_cabecera (Fichero c p0) = Err StructError /\
  clase StructError = None /\
  estereo2mono nativo ent sal canal fs = (Err StructError, fs) /\
  mono2estereo nativo ent otro sal fs = (Err StructError, fs) /\
  codEstereo nativo ent sal fs = (Err StructError, fs) /\
  decEstereo nativo ent sal fs = (Err StructError, fs).
Proof.
  intros Hlen Hfs.
  split; [now apply leer_cabecera_corto|]. split; [reflexivity|].
  unfold estereo2mono, mono2estereo, codEstereo, decEstereo, open_rb.
  rewrite Hfs. cbn [mbind resultado_bind].
  rewrite (leer_cabecera_corto c 0 Hlen). cbn [mbind resultado_bind].
  repeat split; reflexivity.
Qed.

Lemma fichero_corto_witness :
  leer_cabecera (Fichero [] 0) = Err StructError /\
  decEstereo LittleEndian "vacio.wav" "sal.wav" {[ "vacio.wav"%string := [] ]} =
    (Err StructError, {[ "vacio.wav"%string := [] ]}).
Proof.
  pose proof (fichero_corto LittleEndian {[ "vacio.wav"%string := [] ]}
                "vacio.wav" "otro.wav" "sal.wav" 0 0 []
                ltac:(cbn; lia) ltac:(vm_compute; reflexivity)) as H.
  split; apply H.
Defined.

(** X5. On every stream made of the [RIFF]/[WAVE] triple, one format chunk
    and one data chunk, [leer_cabecera] does not look at the outer size [sz],
    the byte rate [ta] or the block alignment [bl]; it accepts a format chunk
    extended by any bytes [ext] beyond its sixteen, the payload offset moving
    by their number; it accepts a payload shorter than the declared size
    [tam], and up to seven bytes behind the payload.  It raises the
    [TypeError] of an unsupported format exactly when the format code is not
    1 or the bits per sample are neither 16 nor 32, and returns the decoded
    fields otherwise, the channel count unchecked. *)
Theorem leer_cabecera_un_fmt_un_data (sz ext resto : list byte)
    (fo ca fr ta bl bi tam p0 : Z) :
  length sz = 4%nat -> uint32 (16 + Z.of_nat (length ext)) ->
  uint16 fo -> uint16 ca -> uint32 fr -> uint32 ta -> uint16 bl -> uint16 bi ->
  uint32 tam -> Z.of_nat (length resto) < tam + 8 ->
  leer_cabecera (Fichero (flujo_wave sz fo ca fr ta bl bi ext tam resto) p0) =
  if decide (fo <> 1 \/ (bi <> 16 /\ bi <> 32))
  then Err (TypeError msg_formato)
  else Ok (InfoAudio (Some (44 + Z.of_nat (length ext))) (Some tam)
                     (Some fo) (Some ca) (Some fr) (Some bi),
           Fichero (flujo_wave sz fo ca fr ta bl bi ext tam resto)
                   (44 + Z.of_nat (length ext) + Z.max tam (Z.of_nat (length resto)))).
Proof.
  intros. now apply leer_cabecera_flujo.
Qed.

Lemma leer_cabecera_un_fmt_un_data_witness :
  leer_cabecera (Fichero ej_flujo 0) =
  Ok (InfoAudio (Some 46) (Some 8) (Some 1) (Some 7) (Some 44100) (Some 16),
      Fichero ej_flujo 54).
Proof.
  pose proof (leer_cabecera_un_fmt_un_data ["000"; "000"; "000"; "000"]%byte
                ["000"; "000"]%byte ["a"; "b"; "c"]%byte 1 7 44100 0 0 16 8 0
                eq_refl ltac:(unfold uint32; cbn; lia)
                ltac:(unfold uint16; lia) ltac:(unfold uint16; lia)
                ltac:(unfold uint32; lia) ltac:(unfold uint32; lia)
                ltac:(unfold uint16; lia) ltac:(unfold uint16; lia)
                ltac:(unfold uint32; lia) ltac:(cbn; lia)) as H.
  exact H.
Defined.

Lemma campo_rango (off len : nat) (b : list byte) :
  (off + len <= length b)%nat ->
  0 <= le_value (Struct.campo off len b) < 256 ^ Z.of_nat len.
Proof.
  intros H. pose proof (le_value_range (Struct.campo off len b)) as Hr.
  unfold Struct.campo in *. rewrite length_take, length_drop in Hr.
  replace (len `min` (length b - off))%nat with len in Hr by lia. exact Hr.
Qed.

Lemma leer_subchunks_coherente (n : nat) (c : list byte) (p : Z)
    (info r : dicc_info) (f' : fichero_bin) :
  12 <= p -> info_coherente c info ->
  leer_subchunks n (Fichero c p) info = Ok (r, f') ->
  info_coherente c r /\ contenido f' = c.
Proof.
  revert p info. induction n as [|n IH]; intros p info Hp Hinfo H; [discriminate|].
  rewrite leer_subchunks_S in H.
  pose proof (f_read_length c p 8) as [_ Hlen].
  destruct (f_read 8 (Fichero c p)) as [cab f1] eqn:E1.
  assert (Ef1 : f1 = Fichero c (p + Z.of_nat (length cab))).
  { unfold f_read in E1. inversion E1. reflexivity. }
  cbn [fst] in Hlen.
  case_decide as Hc.
  { injection H as <- <-. subst f1. split; [assumption|reflexivity]. }
  unfold Struct.unpack_4sI in H. case_decide as H8; [|discriminate].
  cbn [mbind resultado_bind] in H.
  pose proof (campo_rango 4 4 cab ltac:(lia)) as Htam.
  change (256 ^ Z.of_nat 4) with 4294967296 in Htam.
  fold (Struct.unpack_I (Struct.campo 4 4 cab)) in Htam.
  set (tam := Struct.unpack_I (Struct.campo 4 4 cab)) in *.
  rewrite H8 in Ef1. specialize (Hlen ltac:(lia) ltac:(lia) ltac:(lia)).
  subst f1. destruct Hinfo as [Hf Hd].
  repeat case_decide.
  - match type of H with
    | context [f_read tam ?f] => destruct (f_read tam f) as [datos f2] eqn:E2
    end.
    unfold f_read in E2. cbn [contenido posicion] in E2. injection E2 as Ed <-.
    unfold Struct.unpack_HHIIHH in H. case_decide as H16; [|discriminate].
    cbn [mbind resultado_bind] in H.
    apply IH in H; [exact H|lia|].
    split; [right|exact Hd].
    eexists _, _, _, _. repeat (split; [reflexivity|]).
    unfold uint16, uint32, Struct.unpack_H, Struct.unpack_I.
    pose proof (campo_rango 0 2 (take 16 datos) ltac:(lia)).
    pose proof (campo_rango 2 2 (take 16 datos) ltac:(lia)).
    pose proof (campo_rango 4 4 (take 16 datos) ltac:(lia)).
    pose proof (campo_rango 14 2 (take 16 datos) ltac:(lia)).
    change (256 ^ Z.of_nat 4) with 4294967296 in *.
    change (256 ^ Z.of_nat 2) with 65536 in *. tauto.
  - unfold f_seek_cur, f_tell in H. cbn [contenido posicion] in H.
    apply IH in H; [exact H|lia|].
    split; [exact Hf|right].
    eexists _, tam. unfold uint32.
    split; [reflexivity|]. split; [reflexivity|]. lia.
  - unfold f_seek_cur in H. cbn [contenido posicion] in H.
    apply IH in H; [exact H|lia|]. split; assumption.
Qed.

(** X6. Whenever [leer_cabecera] returns, the format code in the dictionary
    is 1, the bits per sample are 16 or 32, the channels are some 16-bit
    value and the sample rate some 32-bit value (neither is checked further,
    a channel count of 0 included); the payload offset and size are either
    both missing, when the stream has no data chunk, or both present, the
    offset lying between 20 and the length of the file; and the file object
    still holds the same contents. *)
Theorem leer_cabecera_invariante (f f' : fichero_bin) (info : dicc_info) :
  leer_cabecera f = Ok (info, f') ->
  contenido f' = contenido f /\
  formato info = Some 1 /\
  (bits_muestra info = Some 16 \/ bits_muestra info = Some 32) /\
  (exists ca, canales info = Some ca /\ uint16 ca) /\
  (exists fr, frec_muestreo info = Some fr /\ uint32 fr) /\
  ((despl_datos info = None /\ tam_datos info = None) \/
   (exists d t, despl_datos info = Some d /\ tam_datos info = Some t /\
                20 <= d <= Z.of_nat (length (contenido f)) /\ uint32 t)).
Proof.
  destruct f as [c p0]. cbn [contenido]. intros H.
  destruct (Nat.lt_ge_cases (length c) 12) as [Hc|Hc].
  { rewrite leer_cabecera_corto in H by exact Hc. discriminate. }
  rewrite leer_cabecera_inicio in H by exact Hc.
  case_decide; [discriminate|].
  destruct (leer_subchunks (S (length c)) (Fichero c 12) info_vacia)
    as [[r f1]|e] eqn:E; cbn [mbind resultado_bind] in H; [|discriminate].
  case_decide as Hbad; [discriminate|]. injection H as -> ->.
  apply leer_subchunks_coherente in E as [[Hf Hd] Hcont]; [|lia|].
  2: { split; left; repeat split; reflexivity. }
  assert (Hfo : formato info = Some 1).
  { destruct (decide (formato info = Some 1)); [assumption|tauto]. }
  assert (Hbi : bits_muestra info = Some 16 \/ bits_muestra info = Some 32).
  { destruct (decide (bits_muestra info = Some 16)); [now left|].
    destruct (decide (bits_muestra info = Some 32)); [now right|].
    exfalso. apply Hbad. right. intros Hin.
    inversion Hin as [|? ? ? Hin']; subst; [congruence|].
    inversion Hin' as [|? ? ? Hin'']; subst; [congruence|]. inversion Hin''. }
  destruct Hf as [(Hn & _)|(fo & ca & fr & bi & E1 & E2 & E3 & E4 & _ & R2 & R3 & _)];
    [congruence|].
  repeat split; try assumption; eauto.
Qed.

Lemma leer_cabecera_invariante_witness :
  contenido (Fichero ej_flujo 54) = contenido (Fichero ej_flujo 0) /\
  formato (InfoAudio (Some 46) (Some 8) (Some 1) (Some 7) (Some 44100) (Some 16))
    = Some 1.
Proof.
  pose proof (leer_cabecera_invariante (Fichero ej_flujo 0) (Fichero ej_flujo 54)
                (InfoAudio (Some 46) (Some 8) (Some 1) (Some 7) (Some 44100) (Some 16))
                ltac:(vm_compute; reflexivity)) as H.
  split; apply H.
Defined.

(** ** Streams the conversions cannot read *)




Lemma f_read_resto (c pre resto : list byte) (p n : Z) :
  c = pre ++ resto -> p = Z.of_nat (length pre) ->
  f_read n (Fichero c p) =
  (take (Z.to_nat n) resto,
   Fichero c (p + Z.of_nat (length (take (Z.to_nat n) resto)))).
Proof.
  intros -> ->. unfold f_read. cbn [contenido posicion].
  rewrite Nat2Z.id, drop_app_length. reflexivity.
Qed.

Lemma flujo_wave_prefijo (sz ext resto : list byte) (fo ca fr ta bl bi tam : Z) :
  length sz = 4%nat ->
  exists pre,
    flujo_wave sz fo ca fr ta bl bi ext tam resto = pre ++ resto /\
    Z.of_nat (length pre) = 44 + Z.of_nat (length ext).
Proof.
  intros Hsz.
  exists ((RIFF ++ sz ++ WAVE) ++
          (id_fmt ++ le_bytes 4 (16 + Z.of_nat (length ext))) ++
          ((le_bytes 2 fo ++ le_bytes 2 ca ++ le_bytes 4 fr ++ le_bytes 4 ta ++
            le_bytes 2 bl ++ le_bytes 2 bi) ++ ext) ++
          (id_data ++ le_bytes 4 tam)).
  split.
  - unfold flujo_wave. rewrite <- !app_assoc. reflexivity.
  - rewrite !length_app, !length_le_bytes, Hsz.
    cbn [length RIFF WAVE id_fmt id_data]. lia.
Qed.

Lemma length_take_Z (n : Z) (l : list byte) :
  0 <= n -> Z.of_nat (length (take (Z.to_nat n) l)) = Z.min n (Z.of_nat (length l)).
Proof. intros H. rewrite length_take. lia. Qed.

(** X8. When the bytes read from the data chunk are not a whole number of
    samples (the payload is shorter than the declared size, or that size is
    odd for the 16-bit readers, not a multiple of four for [decEstereo]),
    the conversion raises [struct.error] and nothing is written. *)
Theorem payload_incompleto (nativo : orden_bytes) (fs : gmap string (list byte))
    (ent otro sal : string) (sz ext resto : list byte)
    (ca fr ta bl bi tam canal : Z) :
  length sz = 4%nat -> uint32 (16 + Z.of_nat (length ext)) ->
  uint16 ca -> uint32 fr -> uint32 ta -> uint16 bl -> bi = 16 \/ bi = 32 ->
  uint32 tam -> Z.of_nat (length resto) < tam + 8 ->
  fs !! ent = Some (flujo_wave sz 1 ca fr ta bl bi ext tam resto) ->
  (Z.min tam (Z.of_nat (length resto)) <> 2 * (tam / 2) ->
   (ca = 2 -> estereo2mono nativo ent sal canal fs = (Err StructError, fs) /\
              codEstereo nativo ent sal fs = (Err StructError, fs)) /\
   (ca = 1 -> mono2estereo nativo ent otro sal fs = (Err StructError, fs))) /\
  (Z.min tam (Z.of_nat (length resto)) <> 4 * (tam / 4) -> bi = 32 ->
   decEstereo nativo ent sal fs = (Err StructError, fs)).
Proof.
  intros Hsz Hext Hca Hfr Hta Hbl Hbi Htam Hresto Hfs.
  destruct (flujo_wave_prefijo sz ext resto 1 ca fr ta bl bi tam Hsz)
    as (pre & Hpre & Hlpre).
  assert (Hbi16 : uint16 bi) by (destruct Hbi as [-> | ->]; unfold uint16; lia).
  assert (Hleer := leer_cabecera_flujo sz ext resto 1 ca fr ta bl bi tam Hsz Hext
                     ltac:(unfold uint16; lia) Hca Hfr Hta Hbl Hbi16 Htam Hresto 0).
  rewrite decide_False in Hleer by (intros [?|[? ?]]; [congruence|lia]).
  assert (Hread :
    forall p, f_read tam (f_seek (44 + Z.of_nat (length ext))
                (Fichero (flujo_wave sz 1 ca fr ta bl bi ext tam resto) p)) =
              (take (Z.to_nat tam) resto,
               Fichero (flujo_wave sz 1 ca fr ta bl bi ext tam resto)
                 (44 + Z.of_nat (length ext) +
                  Z.of_nat (length (take (Z.to_nat tam) resto))))).
  { intros p. unfold f_seek. cbn [contenido].
    apply (f_read_resto _ pre resto); [exact Hpre|lia]. }
  assert (H0 : 0 <= tam) by (unfold uint32 in Htam; lia).
  unfold estereo2mono, mono2estereo, codEstereo, decEstereo, open_rb.
  rewrite Hfs. cbn [mbind resultado_bind]. rewrite Hleer.
  cbn [mbind resultado_bind canales bits_muestra despl_datos tam_datos entero].
  rewrite Hread. cbv beta iota. unfold Struct.unpack_rep.
  rewrite length_take_Z by exact H0.
  assert (Hq2 : 0 <= tam / 2) by (apply Z.div_pos; lia).
  assert (Hq4 : 0 <= tam / 4) by (apply Z.div_pos; lia).
  split.
  - intros Hne. split.
    + intros ->. rewrite !decide_False by (intros E; now apply E).
      rewrite !(decide_False (P := _ = Z.of_nat 2 * _)) by (change (Z.of_nat 2) with 2; lia).
      split; reflexivity.
    + intros ->. rewrite !decide_False by (intros E; now apply E).
      rewrite !(decide_False (P := _ = Z.of_nat 2 * _)) by (change (Z.of_nat 2) with 2; lia).
      reflexivity.
  - intros Hne ->. rewrite !decide_False by (intros E; now apply E).
    rewrite !(decide_False (P := _ = Z.of_nat 4 * _)) by (change (Z.of_nat 4) with 4; lia).
    reflexivity.
Qed.

Lemma payload_incompleto_witness :
  estereo2mono LittleEndian "cortado.wav" "sal.wav" 0 ej_fs_truncado =
    (Err StructError, ej_fs_truncado) /\
  decEstereo LittleEndian "seis.wav" "sal.wav" ej_fs_truncado =
    (Err StructError, ej_fs_truncado).
Proof.
  split.
  - apply (proj1 (payload_incompleto LittleEndian ej_fs_truncado
                    "cortado.wav" "otro.wav" "sal.wav" (le_bytes 4 44) []
                    (flat_map (le_bytes 2) [1; 2; 3]) 2 8000 32000 4 16 8 0
                    eq_refl ltac:(unfold uint32; cbn; lia)
                    ltac:(unfold uint16; lia) ltac:(unfold uint32; lia)
                    ltac:(unfold uint32; lia) ltac:(unfold uint16; lia)
                    (or_introl eq_refl) ltac:(unfold uint32; lia)
                    ltac:(cbn; lia) ltac:(vm_compute; reflexivity))
             ltac:(vm_compute; discriminate)).
    reflexivity.
  - apply (proj2 (payload_incompleto LittleEndian ej_fs_truncado
                    "seis.wav" "otro.wav" "sal.wav" (le_bytes 4 42) []
                    (flat_map (le_bytes 2) [1; 2; 3]) 1 8000 32000 4 32 6 0
                    eq_refl ltac:(unfold uint32; cbn; lia)
                    ltac:(unfold uint16; lia) ltac:(unfold uint32; lia)
                    ltac:(unfold uint32; lia) ltac:(unfold uint16; lia)
                    (or_intror eq_refl) ltac:(unfold uint32; lia)
                    ltac:(cbn; lia) ltac:(vm_compute; reflexivity))
             ltac:(vm_compute; discriminate) eq_refl).
Defined.

(** ** The conversions on stereo input *)

Lemma pares_aplanar_suelta (x : list (Z * Z)) (m : Z) :
  pares (aplanar x ++ [m]) = x.
Proof.
  induction x as [|[l r] x IH]; [reflexivity|].
  cbn [aplanar flat_map app fst snd].
  rewrite pares_cons2. fold (aplanar x). now rewrite IH.
Qed.

Lemma codEstereo_muestras (nativo : orden_bytes) (fs : gmap string (list byte))
    (ent sal : string) (fr bi : Z) (muestras : list Z) :
  let datos := flat_map (le_bytes 2) muestras in
  cabecera_valida 2 fr bi (Z.of_nat (length datos)) -> bi = 16 \/ bi = 32 ->
  Forall int16 muestras ->
  fs !! ent = Some (cabecera_bytes nativo 2 fr bi (Z.of_nat (length datos)) ++ datos) ->
  codEstereo nativo ent sal fs =
  escribir_wb fs sal
    (cab ← crear_cabecera nativo 1 fr 32 (4 * Z.of_nat (length (pares muestras)));
     Ok (cab ++ flat_map (le_bytes 4)
                  (map (fun p : Z * Z => codificado (fst p) (snd p)) (pares muestras)))).
Proof.
  intros datos Hval Hbi Hm Hfs. subst datos. unfold codEstereo.
  abrir_canonico Hfs. rewrite decide_False by (intros E; now apply E).
  leer_payload.
  rewrite unpack_rep_h_ok by (assumption || now rewrite mitad_muestras).
  cbn [mbind resultado_bind].
  rewrite pack_rep_I_ok by (reflexivity || apply Forall_codificado).
  cbn [mbind resultado_bind frec_muestreo entero].
  rewrite length_muestras, length_map. change (Z.of_nat 4) with 4. reflexivity.
Qed.

(** What the hypotheses on a canonical stereo input file with any list of
    16-bit samples say. *)
Lemma entrada_muestras (nativo : orden_bytes) (ca fr bi n : Z) (m : list Z)
    (cab datos : list byte) :
  Struct.pack_rep (Struct.pack_h LittleEndian) n m = Ok datos ->
  crear_cabecera nativo ca fr bi (Z.of_nat (length datos)) = Ok cab ->
  Forall int16 m /\ datos = flat_map (le_bytes 2) m /\
  cabecera_valida ca fr bi (Z.of_nat (length datos)) /\
  cab = cabecera_bytes nativo ca fr bi (Z.of_nat (length datos)).
Proof.
  intros Hd Hc. apply pack_rep_h_inv in Hd as (_ & Hm & ->).
  apply crear_cabecera_inv in Hc as [Hval ->]. tauto.
Qed.

(** X9. A stereo file with an odd number of samples is converted as if its
    last sample, which has no partner, were not there: [estereo2mono] (in
    every mode, the invalid ones included) and [codEstereo] give the same
    result and write the same output as on the file holding the whole frames
    only. *)
Theorem muestra_suelta_ignorada (nativo : orden_bytes) (fs : gmap string (list byte))
    (impar par sal : string) (canal frec m n1 n2 : Z) (x : list (Z * Z))
    (cab1 cab2 datos1 datos2 : list byte) :
  Struct.pack_rep (Struct.pack_h LittleEndian) n1 (aplanar x ++ [m]) = Ok datos1 ->
  crear_cabecera nativo 2 frec 16 (Z.of_nat (length datos1)) = Ok cab1 ->
  fs !! impar = Some (cab1 ++ datos1) ->
  Struct.pack_rep (Struct.pack_h LittleEndian) n2 (aplanar x) = Ok datos2 ->
  crear_cabecera nativo 2 frec 16 (Z.of_nat (length datos2)) = Ok cab2 ->
  fs !! par = Some (cab2 ++ datos2) ->
  estereo2mono nativo impar sal canal fs = estereo2mono nativo par sal canal fs /\
  codEstereo nativo impar sal fs = codEstereo nativo par sal fs.
Proof.
  intros Hd1 Hc1 Hf1 Hd2 Hc2 Hf2.
  destruct (entrada_muestras _ _ _ _ _ _ _ _ Hd1 Hc1) as (Hm1 & -> & Hv1 & ->).
  destruct (entrada_muestras _ _ _ _ _ _ _ _ Hd2 Hc2) as (Hm2 & -> & Hv2 & ->).
  split.
  - rewrite (estereo2mono_canonico nativo fs impar sal canal 2 frec 16 (aplanar x ++ [m]))
      by (assumption || (left; reflexivity)).
    rewrite (estereo2mono_canonico nativo fs par sal canal 2 frec 16 (aplanar x))
      by (assumption || (left; reflexivity)).
    now rewrite pares_aplanar_suelta, pares_aplanar.
  - rewrite (codEstereo_muestras nativo fs impar sal frec 16 (aplanar x ++ [m]))
      by (assumption || (left; reflexivity)).
    rewrite (codEstereo_muestras nativo fs par sal frec 16 (aplanar x))
      by (assumption || (left; reflexivity)).
    now rewrite pares_aplanar_suelta, pares_aplanar.
Qed.

Lemma muestra_suelta_ignorada_witness :
  estereo2mono LittleEndian "impar.wav" "sal.wav" 2 ej_fs_suelta =
    estereo2mono LittleEndian "par.wav" "sal.wav" 2 ej_fs_suelta /\
  codEstereo LittleEndian "impar.wav" "sal.wav" ej_fs_suelta =
    codEstereo LittleEndian "par.wav" "sal.wav" ej_fs_suelta.
Proof.
  apply (muestra_suelta_ignorada LittleEndian ej_fs_suelta "impar.wav" "par.wav"
           "sal.wav" 2 8000 99 5 4 [(1, 2); (-3, -4)]
           (cabecera_bytes LittleEndian 2 8000 16 10)
           (cabecera_bytes LittleEndian 2 8000 16 8)
           (flat_map (le_bytes 2) [1; 2; -3; -4; 99])
           (flat_map (le_bytes 2) [1; 2; -3; -4]));
    vm_compute; reflexivity.
Defined.

(** X10. [estereo2mono] and [codEstereo] do not look at the bits per sample
    the header declares, beyond [leer_cabecera] accepting 16 and 32: a stereo
    file declared as 32 bits is read as 16-bit samples and gives the same
    result and output as the file with the same payload declared as 16
    bits. *)
Theorem bits_declarados_ignorados (nativo : orden_bytes) (fs : gmap string (list byte))
    (e16 e32 sal : string) (canal frec n : Z) (muestras : list Z)
    (cab16 cab32 datos : list byte) :
  Struct.pack_rep (Struct.pack_h LittleEndian) n muestras = Ok datos ->
  crear_cabecera nativo 2 frec 16 (Z.of_nat (length datos)) = Ok cab16 ->
  crear_cabecera nativo 2 frec 32 (Z.of_nat (length datos)) = Ok cab32 ->
  fs !! e16 = Some (cab16 ++ datos) ->
  fs !! e32 = Some (cab32 ++ datos) ->
  estereo2mono nativo e32 sal canal fs = estereo2mono nativo e16 sal canal fs /\
  codEstereo nativo e32 sal fs = codEstereo nativo e16 sal fs.
Proof.
  intros Hd Hc16 Hc32 Hf16 Hf32.
  destruct (entrada_muestras _ _ _ _ _ _ _ _ Hd Hc16) as (Hm & -> & Hv16 & ->).
  apply crear_cabecera_inv in Hc32 as [Hv32 ->].
  split.
  - rewrite (estereo2mono_canonico nativo fs e32 sal canal 2 frec 32 muestras)
      by (assumption || (right; reflexivity)).
    rewrite (estereo2mono_canonico nativo fs e16 sal canal 2 frec 16 muestras)
      by (assumption || (left; reflexivity)).
    reflexivity.
  - rewrite (codEstereo_muestras nativo fs e32 sal frec 32 muestras)
      by (assumption || (right; reflexivity)).
    rewrite (codEstereo_muestras nativo fs e16 sal frec 16 muestras)
      by (assumption || (left; reflexivity)).
    reflexivity.
Qed.

Lemma bits_declarados_ignorados_witness :
  estereo2mono LittleEndian "b32.wav" "sal.wav" 3 ej_fs_bits =
    estereo2mono LittleEndian "b16.wav" "sal.wav" 3 ej_fs_bits /\
  codEstereo LittleEndian "b32.wav" "sal.wav" ej_fs_bits =
    codEstereo LittleEndian "b16.wav" "sal.wav" ej_fs_bits.
Proof.
  apply (bits_declarados_ignorados LittleEndian ej_fs_bits "b16.wav" "b32.wav"
           "sal.wav" 3 8000 4 [1; 2; -3; -4]
           (cabecera_bytes LittleEndian 2 8000 16 8)
           (cabecera_bytes LittleEndian 2 8000 32 8)
           (flat_map (le_bytes 2) [1; 2; -3; -4]));
    vm_compute; reflexivity.
Defined.

Lemma Forall_map_fst (x : list (Z * Z)) :
  Forall (fun p => int16 (fst p) /\ int16 (snd p)) x ->
  Forall int16 (map (fun p : Z * Z => fst p) x) /\
  Forall int16 (map (fun p : Z * Z => snd p) x).
Proof.
  intros H. split; apply Forall_map; (eapply Forall_impl; [exact H|]);
    intros p [? ?]; assumption.
Qed.

(** X11. On a canonical stereo file with frames [x], [estereo2mono] with
    [canal = 0] writes a mono file with the left sample of every frame and
    with [canal = 1] one with the right sample of every frame, under a
    header of one channel, 16 bits, the same sample rate and two bytes per
    frame. *)
Theorem estereo2mono_izquierdo_derecho (nativo : orden_bytes)
    (fs : gmap string (list byte)) (ent sal : string) (frec : Z)
    (x : list (Z * Z)) (cab datos : list byte) :
  Struct.pack_rep (Struct.pack_h LittleEndian) (2 * Z.of_nat (length x)) (aplanar x)
    = Ok datos ->
  crear_cabecera nativo 2 frec 16 (Z.of_nat (length datos)) = Ok cab ->
  fs !! ent = Some (cab ++ datos) ->
  exists cab_m datos_i datos_d,
    crear_cabecera nativo 1 frec 16 (2 * Z.of_nat (length x)) = Ok cab_m /\
    Struct.pack_rep (Struct.pack_h LittleEndian) (Z.of_nat (length x))
      (map (fun p : Z * Z => fst p) x) = Ok datos_i /\
    Struct.pack_rep (Struct.pack_h LittleEndian) (Z.of_nat (length x))
      (map (fun p : Z * Z => snd p) x) = Ok datos_d /\
    estereo2mono nativo ent sal 0 fs = (Ok tt, <[sal := cab_m ++ datos_i]> fs) /\
    estereo2mono nativo ent sal 1 fs = (Ok tt, <[sal := cab_m ++ datos_d]> fs).
Proof.
  intros Hd Hc Hfs.
  destruct (entrada_estereo _ _ _ _ _ Hd Hc) as (Hx & -> & Hlen & Hval & ->).
  pose proof (proj1 (Forall_aplanar int16 x) Hx) as Hx'.
  destruct (Forall_map_fst x Hx') as [Hi Hde].
  pose proof (cabecera_valida_mono16 _ _ Hval) as Hvm.
  exists (cabecera_bytes nativo 1 frec 16 (2 * Z.of_nat (length x))),
         (flat_map (le_bytes 2) (map (fun p : Z * Z => fst p) x)),
         (flat_map (le_bytes 2) (map (fun p : Z * Z => snd p) x)).
  split; [now apply crear_cabecera_ok|].
  split; [apply pack_rep_h_ok; [now rewrite length_map|assumption]|].
  split; [apply pack_rep_h_ok; [now rewrite length_map|assumption]|].
  rewrite <- Hlen in Hfs, Hval.
  split.
  - rewrite (estereo2mono_canonico nativo fs ent sal 0 2 frec 16 (aplanar x))
      by (assumption || (left; reflexivity)).
    rewrite decide_False by (intros E; now apply E).
    rewrite pares_aplanar. unfold mono_de_pares. rewrite decide_True by reflexivity.
    cbn [mbind resultado_bind].
    rewrite pack_rep_h_ok by (reflexivity || assumption).
    rewrite length_muestras, length_map. change (Z.of_nat 2) with 2.
    now apply escribir_cabecera_ok.
  - rewrite (estereo2mono_canonico nativo fs ent sal 1 2 frec 16 (aplanar x))
      by (assumption || (left; reflexivity)).
    rewrite decide_False by (intros E; now apply E).
    rewrite pares_aplanar. unfold mono_de_pares.
    rewrite decide_False, decide_True by lia.
    cbn [mbind resultado_bind].
    rewrite pack_rep_h_ok by (reflexivity || assumption).
    rewrite length_muestras, length_map. change (Z.of_nat 2) with 2.
    now apply escribir_cabecera_ok.
Qed.

Lemma estereo2mono_izquierdo_derecho_witness :
  exists cab_m datos_i datos_d,
    crear_cabecera LittleEndian 1 44100 16 (2 * Z.of_nat (length ej_tramas)) = Ok cab_m /\
    Struct.pack_rep (Struct.pack_h LittleEndian) (Z.of_nat (length ej_tramas))
      (map (fun p : Z * Z => fst p) ej_tramas) = Ok datos_i /\
    Struct.pack_rep (Struct.pack_h LittleEndian) (Z.of_nat (length ej_tramas))
      (map (fun p : Z * Z => snd p) ej_tramas) = Ok datos_d /\
    estereo2mono LittleEndian "estereo.wav" "mono.wav" 0 ej_fs =
      (Ok tt, <["mono.wav"%string := cab_m ++ datos_i]> ej_fs) /\
    estereo2mono LittleEndian "estereo.wav" "mono.wav" 1 ej_fs =
      (Ok tt, <["mono.wav"%string := cab_m ++ datos_d]> ej_fs).
Proof.
  apply (estereo2mono_izquierdo_derecho LittleEndian ej_fs
           "estereo.wav" "mono.wav" 44100 ej_tramas ej_cab ej_datos);
    vm_compute; reflexivity.
Defined.

(** ** The packer and the unpacker *)

(** X12. [codEstereo] succeeds on every canonical stereo file, whatever the
    sums and differences of its frames: the packed word always fits 32 bits.
    It writes one word per frame under a header of one channel, 32 bits and
    the same sample rate. *)
Theorem codEstereo_siempre (nativo : orden_bytes) (fs : gmap string (list byte))
    (ent sal : string) (frec : Z) (x : list (Z * Z)) (cab datos : list byte) :
  Struct.pack_rep (Struct.pack_h LittleEndian) (2 * Z.of_nat (length x)) (aplanar x)
    = Ok datos ->
  crear_cabecera nativo 2 frec 16 (Z.of_nat (length datos)) = Ok cab ->
  fs !! ent = Some (cab ++ datos) ->
  exists cab_c datos_c,
    crear_cabecera nativo 1 frec 32 (4 * Z.of_nat (length x)) = Ok cab_c /\
    Struct.pack_rep (Struct.pack_I LittleEndian) (Z.of_nat (length x))
      (map (fun p : Z * Z => codificado (fst p) (snd p)) x) = Ok datos_c /\
    Z.of_nat (length datos_c) = 4 * Z.of_nat (length x) /\
    codEstereo nativo ent sal fs = (Ok tt, <[sal := cab_c ++ datos_c]> fs).
Proof.
  intros Hd Hc Hfs.
  destruct (entrada_estereo _ _ _ _ _ Hd Hc) as (Hx & -> & Hlen & Hval & ->).
  exists (cabecera_bytes nativo 1 frec 32 (4 * Z.of_nat (length x))),
         (flat_map (le_bytes 4) (map (fun p : Z * Z => codificado (fst p) (snd p)) x)).
  split; [apply crear_cabecera_ok; now apply cabecera_valida_mono32|].
  split; [apply pack_rep_I_ok; [now rewrite length_map|apply Forall_codificado]|].
  split; [rewrite length_muestras, length_map; lia|].
  rewrite <- Hlen in Hfs, Hval. now apply codEstereo_canonico.
Qed.

Lemma codEstereo_siempre_witness :
  exists cab_c datos_c,
    crear_cabecera LittleEndian 1 44100 32 (4 * Z.of_nat (length [(30000, 30000)]))
      = Ok cab_c /\
    Struct.pack_rep (Struct.pack_I LittleEndian) (Z.of_nat (length [(30000, 30000)]))
      (map (fun p : Z * Z => codificado (fst p) (snd p)) [(30000, 30000)])
      = Ok datos_c /\
    Z.of_nat (length datos_c) = 4 * Z.of_nat (length [(30000, 30000)]) /\
    codEstereo LittleEndian "e.wav" "c.wav" ej_fs_desborde =
      (Ok tt, <["c.wav"%string := cab_c ++ datos_c]> ej_fs_desborde).
Proof.
  apply (codEstereo_siempre LittleEndian ej_fs_desborde "e.wav" "c.wav" 44100
           [(30000, 30000)] (cabecera_bytes LittleEndian 2 44100 16 4)
           (le_bytes 2 30000 ++ le_bytes 2 30000));
    vm_compute; reflexivity.
Defined.

Lemma entrada_palabras (nativo : orden_bytes) (ca fr n : Z) (palabras : list Z)
    (cab datos : list byte) :
  Struct.pack_rep (Struct.pack_I LittleEndian) n palabras = Ok datos ->
  crear_cabecera nativo ca fr 32 (Z.of_nat (length datos)) = Ok cab ->
  Forall uint32 palabras /\ datos = flat_map (le_bytes 4) palabras /\
  cabecera_valida ca fr 32 (Z.of_nat (length datos)) /\
  cab = cabecera_bytes nativo ca fr 32 (Z.of_nat (length datos)).
Proof.
  intros Hd Hc.
  apply (pack_rep_inv _ (le_bytes 4) uint32 (pack_I_inv LittleEndian)) in Hd
    as (_ & Hp & ->).
  apply crear_cabecera_inv in Hc as [Hval ->]. tauto.
Qed.

(** X13. [decEstereo] succeeds on every canonical 32-bit file, whatever its
    words and whatever channel count its header declares (only the bits per
    sample are checked), provided the sample rate fits a stereo 16-bit
    header.  It writes two 16-bit samples per word, as many bytes as it
    read, under a header of two channels, 16 bits and the same sample
    rate. *)
Theorem decEstereo_siempre (nativo : orden_bytes) (fs : gmap string (list byte))
    (ent sal : string) (ca frec n : Z) (palabras : list Z) (cab datos : list byte) :
  Struct.pack_rep (Struct.pack_I LittleEndian) n palabras = Ok datos ->
  crear_cabecera nativo ca frec 32 (Z.of_nat (length datos)) = Ok cab ->
  fs !! ent = Some (cab ++ datos) ->
  frec * 4 < 4294967296 ->
  exists cab_s datos_s,
    crear_cabecera nativo 2 frec 16 (Z.of_nat (length datos)) = Ok cab_s /\
    Struct.pack_rep (Struct.pack_h LittleEndian) (2 * Z.of_nat (length palabras))
      (flat_map decodificar palabras) = Ok datos_s /\
    length datos_s = length datos /\
    decEstereo nativo ent sal fs = (Ok tt, <[sal := cab_s ++ datos_s]> fs).
Proof.
  intros Hd Hc Hfs Hfr.
  destruct (entrada_palabras _ _ _ _ _ _ _ Hd Hc) as (Hp & -> & Hval & ->).
  assert (Hlen : Z.of_nat (length (flat_map (le_bytes 4) palabras)) =
                 4 * Z.of_nat (length palabras)).
  { rewrite length_muestras. lia. }
  assert (Hvs : cabecera_valida 2 frec 16 (4 * Z.of_nat (length palabras))).
  { rewrite Hlen in Hval. unfold cabecera_valida, uint16, uint32 in *.
    replace (frec * 2 * 16 / 8) with (frec * 4) by (apply Z.div_unique_exact; lia).
    change (2 * 16 / 8) with 4. lia. }
  exists (cabecera_bytes nativo 2 frec 16 (4 * Z.of_nat (length palabras))),
         (flat_map (le_bytes 2) (flat_map decodificar palabras)).
  split; [rewrite Hlen; now apply crear_cabecera_ok|].
  split; [apply pack_rep_h_ok;
          [rewrite length_flat_map_decodificar; lia
          |apply Forall_flat_map_decodificar]|].
  split.
  - apply Nat2Z.inj. rewrite Hlen, length_muestras, length_flat_map_decodificar. lia.
  - rewrite (decEstereo_canonico nativo fs ent sal ca frec palabras)
      by (assumption || exact Hfs).
    now apply escribir_cabecera_ok.
Qed.

Lemma decEstereo_siempre_witness :
  exists cab_s datos_s,
    crear_cabecera LittleEndian 2 8000 16
      (Z.of_nat (length (flat_map (le_bytes 4) ej_palabras))) = Ok cab_s /\
    Struct.pack_rep (Struct.pack_h LittleEndian) (2 * Z.of_nat (length ej_palabras))
      (flat_map decodificar ej_palabras) = Ok datos_s /\
    length datos_s = length (flat_map (le_bytes 4) ej_palabras) /\
    decEstereo LittleEndian "cod.wav" "dec.wav" ej_fs_palabras =
      (Ok tt, <["dec.wav"%string := cab_s ++ datos_s]> ej_fs_palabras).
Proof.
  apply (decEstereo_siempre LittleEndian ej_fs_palabras "cod.wav" "dec.wav"
           2 8000 4 ej_palabras (cabecera_bytes LittleEndian 2 8000 32 16)
           (flat_map (le_bytes 4) ej_palabras));
    [vm_compute; reflexivity..|lia].
Defined.

(** X14. For 16-bit samples [l] and [r], unpacking the packed word of the
    frame gives the frame back exactly when both [l + r] and [l - r] fit the
    signed 16-bit range: outside it the packing always loses the frame. *)
Theorem ida_y_vuelta_sii (l r : Z) :
  int16 l -> int16 r ->
  (reconstruir [codificado l r] [] = Ok [l; r] <->
   int16 (l + r) /\ int16 (l - r)).
Proof.
  intros Hl Hr. rewrite reconstruir_decodificar. cbn [app flat_map].
  rewrite app_nil_r. split.
  - intros H. injection H as H1 H2.
    rewrite codificado_alto, codificado_bajo in H1, H2.
    unfold con_signo in H1, H2. change (256 ^ Z.of_nat 2) with 65536 in H1, H2.
    change (65536 / 2) with 32768 in H1, H2. unfold int16 in *.
    repeat case_decide; Z.to_euclidean_division_equations; lia.
  - intros [Hs Hd]. now rewrite decodificar_codificado.
Qed.

Lemma ida_y_vuelta_sii_witness :
  (reconstruir [codificado 30000 30000] [] = Ok [30000; 30000] <->
   int16 (30000 + 30000) /\ int16 (30000 - 30000)) /\
  reconstruir [codificado (-3) 4] [] = Ok [-3; 4].
Proof.
  split.
  - apply (ida_y_vuelta_sii 30000 30000); unfold int16; lia.
  - apply (ida_y_vuelta_sii (-3) 4); unfold int16; lia.
Defined.

(** ** What the conversions write and what they refuse *)

Lemma snd_escribir_wb (fs : gmap string (list byte)) (sal otro : string)
    (r : resultado (list byte)) :
  otro <> sal -> snd (escribir_wb fs sal r) !! otro = fs !! otro.
Proof.
  intros H. destruct r; cbn [escribir_wb snd]; now rewrite lookup_insert_ne.
Qed.

Ltac caso_calculo :=
  match goal with
  | |- context [match ?x with Ok _ => _ | Err _ => _ end] =>
      destruct x as [[? ?]|?]; [apply snd_escribir_wb; assumption|reflexivity]
  end.

(** X15. No conversion ever changes a file other than its output file,
    whatever the inputs are and whether it succeeds or raises. *)
Theorem solo_escribe_salida (nativo : orden_bytes) (fs : gmap string (list byte))
    (a b sal otro : string) (canal : Z) :
  otro <> sal ->
  snd (estereo2mono nativo a sal canal fs) !! otro = fs !! otro /\
  snd (mono2estereo nativo a b sal fs) !! otro = fs !! otro /\
  snd (codEstereo nativo a sal fs) !! otro = fs !! otro /\
  snd (decEstereo nativo a sal fs) !! otro = fs !! otro.
Proof.
  intros H. unfold estereo2mono, mono2estereo, codEstereo, decEstereo. cbv zeta.
  repeat split; caso_calculo.
Qed.

Lemma solo_escribe_salida_witness :
  snd (estereo2mono LittleEndian "estereo.wav" "mono.wav" 2 ej_fs) !! "estereo.wav"%string
    = ej_fs !! "estereo.wav"%string /\
  snd (decEstereo LittleEndian "estereo.wav" "mono.wav" ej_fs) !! "estereo.wav"%string
    = ej_fs !! "estereo.wav"%string.
Proof.
  pose proof (solo_escribe_salida LittleEndian ej_fs "estereo.wav" "b.wav"
                "mono.wav" "estereo.wav" 2 ltac:(discriminate)) as H.
  split; apply H.
Defined.

(** X16. [mono2estereo] checks its inputs in order.  A left file whose header
    parses with a channel count other than 1 gives the [TypeError] of a
    non-mono left channel, whatever the right path is.  With a canonical mono
    left file, a missing right file gives [FileNotFoundError] and a right
    file whose header parses with a channel count other than 1 gives the
    [TypeError] of a non-mono right channel.  Nothing is written. *)
Theorem mono2estereo_errores (nativo : orden_bytes) (fs : gmap string (list byte))
    (izq der sal : string) :
  (forall (c : list byte) (info : dicc_info) (f : fichero_bin),
     fs !! izq = Some c -> leer_cabecera (Fichero c 0) = Ok (info, f) ->
     canales info <> Some 1 ->
     mono2estereo nativo izq der sal fs = (Err (TypeError msg_izq_no_mono), fs) /\
     clase (TypeError msg_izq_no_mono) = Some ChannelMismatchError) /\
  (forall (frec : Z) (L : list Z) (cab datos : list byte),
     Struct.pack_rep (Struct.pack_h LittleEndian) (Z.of_nat (length L)) L = Ok datos ->
     crear_cabecera nativo 1 frec 16 (Z.of_nat (length datos)) = Ok cab ->
     fs !! izq = Some (cab ++ datos) ->
     (fs !! der = None ->
      mono2estereo nativo izq der sal fs = (Err FileNotFoundError, fs)) /\
     (forall (c : list byte) (info : dicc_info) (f : fichero_bin),
        fs !! der = Some c -> leer_cabecera (Fichero c 0) = Ok (info, f) ->
        canales info <> Some 1 ->
        mono2estereo nativo izq der sal fs = (Err (TypeError msg_der_no_mono), fs) /\
        clase (TypeError msg_der_no_mono) = Some ChannelMismatchError)).
Proof.
  split.
  - intros c info f Hfs Hleer Hca. split; [|reflexivity].
    unfold mono2estereo, open_rb. rewrite Hfs. cbn [mbind resultado_bind].
    rewrite Hleer. cbn [mbind resultado_bind].
    rewrite decide_True by assumption. reflexivity.
  - intros frec L cab datos Hd Hc Hfs.
    destruct (entrada_mono _ _ _ _ _ Hd Hc) as (HL & -> & Hval & ->).
    split.
    + intros Hder. unfold mono2estereo. cbv zeta.
      abrir_canonico Hfs. rewrite decide_False by (intros E; now apply E).
      leer_payload.
      rewrite unpack_rep_h_ok by (assumption || now rewrite mitad_muestras).
      cbn [mbind resultado_bind]. unfold open_rb. rewrite Hder. reflexivity.
    + intros c info f Hder Hleer Hca. split; [|reflexivity].
      unfold mono2estereo. cbv zeta.
      abrir_canonico Hfs. rewrite decide_False by (intros E; now apply E).
      leer_payload.
      rewrite unpack_rep_h_ok by (assumption || now rewrite mitad_muestras).
      cbn [mbind resultado_bind]. unfold open_rb. rewrite Hder.
      cbn [mbind resultado_bind]. rewrite Hleer. cbn [mbind resultado_bind].
      rewrite decide_True by assumption. reflexivity.
Qed.

Lemma mono2estereo_errores_witness :
  mono2estereo LittleEndian "estereo.wav" "nada.wav" "sal.wav" ej_fs_mixto =
    (Err (TypeError msg_izq_no_mono), ej_fs_mixto) /\
  mono2estereo LittleEndian "mono.wav" "nada.wav" "sal.wav" ej_fs_mixto =
    (Err FileNotFoundError, ej_fs_mixto) /\
  mono2estereo LittleEndian "mono.wav" "estereo.wav" "sal.wav" ej_fs_mixto =
    (Err (TypeError msg_der_no_mono), ej_fs_mixto).
Proof.
  split; [|split].
  - apply (proj1 (mono2estereo_errores LittleEndian ej_fs_mixto
                    "estereo.wav" "nada.wav" "sal.wav")
             (ej_cab ++ ej_datos)
             (InfoAudio (Some 44) (Some 20) (Some 1) (Some 2) (Some 44100) (Some 16))
             (Fichero (ej_cab ++ ej_datos) 64));
      [vm_compute; reflexivity..|discriminate].
  - apply (proj2 (mono2estereo_errores LittleEndian ej_fs_mixto
                    "mono.wav" "nada.wav" "sal.wav")
             44100 [5; -5] (cabecera_bytes LittleEndian 1 44100 16 4)
             (flat_map (le_bytes 2) [5; -5])
             ltac:(vm_compute; reflexivity) ltac:(vm_compute; reflexivity)
             ltac:(vm_compute; reflexivity)).
    vm_compute. reflexivity.
  - apply (proj2 (proj2 (mono2estereo_errores LittleEndian ej_fs_mixto
                    "mono.wav" "estereo.wav" "sal.wav")
             44100 [5; -5] (cabecera_bytes LittleEndian 1 44100 16 4)
             (flat_map (le_bytes 2) [5; -5])
             ltac:(vm_compute; reflexivity) ltac:(vm_compute; reflexivity)
             ltac:(vm_compute; reflexivity))
             (ej_cab ++ ej_datos)
             (InfoAudio (Some 44) (Some 20) (Some 1) (Some 2) (Some 44100) (Some 16))
             (Fichero (ej_cab ++ ej_datos) 64));
      [vm_compute; reflexivity..|discriminate].
Defined.

(** X17. [codEstereo] raises the [TypeError] of a non-stereo file on every
    input whose header parses with a channel count other than 2, and
    [decEstereo] the [TypeError] of a signal not coded in 32 bits on every
    input whose header parses with bits per sample other than 32, whatever
    its channel count; nothing is written. *)
Theorem codEstereo_decEstereo_errores (nativo : orden_bytes)
    (fs : gmap string (list byte)) (ent sal : string) (c : list byte)
    (info : dicc_info) (f : fichero_bin) :
  fs !! ent = Some c -> leer_cabecera (Fichero c 0) = Ok (info, f) ->
  (canales info <> Some 2 ->
   codEstereo nativo ent sal fs = (Err (TypeError msg_no_estereo), fs) /\
   clase (TypeError msg_no_estereo) = Some ChannelMismatchError) /\
  (bits_muestra info <> Some 32 ->
   decEstereo nativo ent sal fs = (Err (TypeError msg_no_32), fs) /\
   clase (TypeError msg_no_32) = Some FormatError).
Proof.
  intros Hfs Hleer. unfold codEstereo, decEstereo, open_rb. rewrite Hfs.
  cbn [mbind resultado_bind]. rewrite Hleer. cbn [mbind resultado_bind].
  split; intros H; (split; [|reflexivity]); rewrite decide_True by assumption;
    reflexivity.
Qed.

Lemma codEstereo_decEstereo_errores_witness :
  codEstereo LittleEndian "mono.wav" "sal.wav" ej_fs_mono =
    (Err (TypeError msg_no_estereo), ej_fs_mono) /\
  decEstereo LittleEndian "mono.wav" "sal.wav" ej_fs_mono =
    (Err (TypeError msg_no_32), ej_fs_mono).
Proof.
  pose proof (codEstereo_decEstereo_errores LittleEndian ej_fs_mono
                "mono.wav" "sal.wav"
                (cabecera_bytes LittleEndian 1 44100 16 4 ++ flat_map (le_bytes 2) [5; -5])
                (InfoAudio (Some 44) (Some 4) (Some 1) (Some 1) (Some 44100) (Some 16))
                (Fichero (cabecera_bytes LittleEndian 1 44100 16 4 ++
                          flat_map (le_bytes 2) [5; -5]) 48)
                ltac:(vm_compute; reflexivity) ltac:(vm_compute; reflexivity))
    as [H1 H2].
  split; [apply H1|apply H2]; discriminate.
Defined.

(** X18. When the merged stream does not fit a stereo header (four times the
    sample rate of the left file, or 36 plus four bytes per frame, reaches
    2^32), [mono2estereo] raises [struct.error] after it has opened the
    output file, which is left empty. *)
Theorem mono2estereo_salida_vacia (nativo : orden_bytes) (fs : gmap string (list byte))
    (izq der sal : string) (frec_i frec_d : Z) (L R : list Z)
    (cab_i cab_d datos_i datos_d : list byte) :
  Struct.pack_rep (Struct.pack_h LittleEndian) (Z.of_nat (length L)) L = Ok datos_i ->
  Struct.pack_rep (Struct.pack_h LittleEndian) (Z.of_nat (length R)) R = Ok datos_d ->
  crear_cabecera nativo 1 frec_i 16 (Z.of_nat (length datos_i)) = Ok cab_i ->
  crear_cabecera nativo 1 frec_d 16 (Z.of_nat (length datos_d)) = Ok cab_d ->
  fs !! izq = Some (cab_i ++ datos_i) ->
  fs !! der = Some (cab_d ++ datos_d) ->
  (length L <= length R)%nat ->
  4294967296 <= frec_i * 4 \/ 4294967296 <= 36 + 4 * Z.of_nat (length L) ->
  mono2estereo nativo izq der sal fs = (Err StructError, <[sal := []]> fs).
Proof.
  intros Hdi Hdd Hci Hcd Hfi Hfd Hlen Hgrande.
  destruct (entrada_mono _ _ _ _ _ Hdi Hci) as (HL & -> & Hvi & ->).
  destruct (entrada_mono _ _ _ _ _ Hdd Hcd) as (HR & -> & Hvd & ->).
  rewrite (mono2estereo_canonico nativo fs izq der sal 1 frec_i 16 1 frec_d 16 L R)
    by (assumption || (left; reflexivity)).
  rewrite !decide_False by (intros E; now apply E).
  destruct (intercalado_ok L R Hlen HL HR) as [Hpack Hlen4].
  rewrite Hpack, Hlen4.
  assert (Hno : ~ cabecera_valida 2 frec_i 16 (4 * Z.of_nat (length L))).
  { unfold cabecera_valida, uint16, uint32.
    replace (frec_i * 2 * 16 / 8) with (frec_i * 4) by (apply Z.div_unique_exact; lia).
    lia. }
  destruct (crear_cabecera nativo 2 frec_i 16 (4 * Z.of_nat (length L)))
    as [cab|e] eqn:E.
  - apply crear_cabecera_inv in E. tauto.
  - apply crear_cabecera_error in E. subst e. reflexivity.
Qed.

Lemma mono2estereo_salida_vacia_witness :
  mono2estereo LittleEndian "alta.wav" "alta.wav" "sal.wav" ej_fs_frec_alta =
    (Err StructError, <["sal.wav"%string := []]> ej_fs_frec_alta).
Proof.
  apply (mono2estereo_salida_vacia LittleEndian ej_fs_frec_alta
           "alta.wav" "alta.wav" "sal.wav" 1073741824 1073741824 [5] [5]
           (cabecera_bytes LittleEndian 1 1073741824 16 2)
           (cabecera_bytes LittleEndian 1 1073741824 16 2)
           (flat_map (le_bytes 2) [5]) (flat_map (le_bytes 2) [5]));
    [vm_compute; reflexivity..|cbn; lia|left; lia].
Defined.

(** ** Chunks behind the data chunk *)

(** X19. A chunk that follows the payload of a canonical stream is scanned
    too.  If its tag is neither [fmt ] nor [data] it is skipped and
    [leer_cabecera] returns what it returns without it; if it is a second
    data chunk, [leer_cabecera] returns the offset and the size of that
    chunk: the last data chunk of the stream is the one the conversions
    read. *)
Theorem leer_cabecera_chunk_final (nativo : orden_bytes) (ca fr bi tam s p0 : Z)
    (payload ident resto cab : list byte) :
  crear_cabecera nativo ca fr bi tam = Ok cab ->
  bi = 16 \/ bi = 32 -> Z.of_nat (length payload) = tam ->
  length ident = 4%nat -> ident <> id_fmt -> uint32 s ->
  Z.of_nat (length resto) < s + 8 ->
  let c := (cab ++ payload) ++ (ident ++ le_bytes 4 s) ++ resto in
  leer_cabecera (Fichero c p0) =
  Ok (if decide (ident = id_data)
      then InfoAudio (Some (44 + tam + 8)) (Some s) (Some 1) (Some ca) (Some fr) (Some bi)
      else InfoAudio (Some 44) (Some tam) (Some 1) (Some ca) (Some fr) (Some bi),
      Fichero c (44 + tam + 8 + Z.max s (Z.of_nat (length resto)))).
Proof.
  intros Hcab Hbi Hpay Hid Hnf Hs Hresto c.
  apply crear_cabecera_inv in Hcab as [Hval ->].
  destruct Hval as (V1 & V2 & V3 & V4 & V5 & V6 & V7).
  assert (H12 : length (cabecera_riff nativo tam) = 12%nat).
  { unfold cabecera_riff. rewrite !length_app, length_codificar. reflexivity. }
  assert (H16 : length (cuerpo_fmt ca fr bi) = 16%nat).
  { unfold cuerpo_fmt. rewrite !length_app, !length_le_bytes. reflexivity. }
  assert (Hc : c = cabecera_riff nativo tam ++ (id_fmt ++ le_bytes 4 16) ++
                   cuerpo_fmt ca fr bi ++ (id_data ++ le_bytes 4 tam) ++
                   payload ++ (ident ++ le_bytes 4 s) ++ resto).
  { unfold c, cabecera_bytes. rewrite <- !app_assoc. reflexivity. }
  assert (Hlen : Z.of_nat (length c) = 44 + tam + 8 + Z.of_nat (length resto)).
  { rewrite Hc, !length_app, H12, H16, !length_le_bytes, Hid.
    cbn [length id_fmt id_data]. lia. }
  assert (M : (12 <= length c)%nat /\ take 4 c = RIFF /\ take 4 (drop 8 c) = WAVE).
  { split; [unfold uint32 in V6; lia|].
    rewrite Hc. unfold cabecera_riff. destruct nativo; split; reflexivity. }
  destruct M as (M1 & M2 & M3). unfold uint32 in V6, Hs.
  assert (Hscan :
    leer_subchunks 4 (Fichero c 12) info_vacia =
    Ok (if decide (ident = id_data)
        then InfoAudio (Some (44 + tam + 8)) (Some s) (Some 1) (Some ca) (Some fr) (Some bi)
        else InfoAudio (Some 44) (Some tam) (Some 1) (Some ca) (Some fr) (Some bi),
        Fichero c (44 + tam + 8 + Z.max s (Z.of_nat (length resto))))).
  { clearbody c.
    rewrite (paso_fmt 3 c (cabecera_riff nativo tam)
               ((id_data ++ le_bytes 4 tam) ++ payload ++ (ident ++ le_bytes 4 s) ++ resto)
               12 info_vacia ltac:(now rewrite H12)
               1 ca fr (fr * ca * bi / 8) (ca * bi / 8) bi);
      [|rewrite Hc; unfold cuerpo_fmt; rewrite <- !app_assoc; reflexivity
       |unfold uint16; lia|assumption..].
    rewrite (paso_data 2 c
               (cabecera_riff nativo tam ++ (id_fmt ++ le_bytes 4 16) ++ cuerpo_fmt ca fr bi)
               (payload ++ (ident ++ le_bytes 4 s) ++ resto) (12 + 8 + 16) _
               ltac:(rewrite !length_app, H12, H16, length_le_bytes;
                     reflexivity) tam);
      [|rewrite Hc, <- !app_assoc; reflexivity|unfold uint32; lia].
    cbn [formato canales frec_muestreo bits_muestra despl_datos tam_datos].
    assert (Hp3 : 12 + 8 + 16 + 8 + tam =
                  Z.of_nat (length (cabecera_riff nativo tam ++
                    (id_fmt ++ le_bytes 4 16) ++ cuerpo_fmt ca fr bi ++
                    (id_data ++ le_bytes 4 tam) ++ payload))).
    { rewrite !length_app, H12, H16, !length_le_bytes.
      cbn [length id_fmt id_data]. lia. }
    destruct (decide (ident = id_data)) as [->|Hnd].
    - rewrite (paso_data 1 c _ resto (12 + 8 + 16 + 8 + tam) _ Hp3 s);
        [|rewrite Hc, <- !app_assoc; reflexivity|unfold uint32; lia].
      rewrite paso_fin by (rewrite ?Hlen; lia).
      rewrite f_read_cola by (rewrite ?Hlen; lia).
      rewrite Hlen.
      cbn [formato canales frec_muestreo bits_muestra despl_datos tam_datos].
      replace (12 + 8 + 16 + 8 + tam + 8) with (44 + tam + 8) by lia.
      replace (Z.max (44 + tam + 8 + s) (44 + tam + 8 + Z.of_nat (length resto)))
        with (44 + tam + 8 + Z.max s (Z.of_nat (length resto))) by lia.
      reflexivity.
    - rewrite (paso_otro 1 c _ resto (12 + 8 + 16 + 8 + tam) _ Hp3 ident s);
        [|rewrite Hc, <- !app_assoc; reflexivity|unfold uint32; lia|assumption..].
      rewrite paso_fin by (rewrite ?Hlen; lia).
      rewrite f_read_cola by (rewrite ?Hlen; lia).
      rewrite Hlen.
      replace (12 + 8 + 16 + 8) with 44 by lia.
      replace (Z.max (44 + tam + 8 + s) (44 + tam + 8 + Z.of_nat (length resto)))
        with (44 + tam + 8 + Z.max s (Z.of_nat (length resto))) by lia.
      reflexivity. }
  rewrite (leer_cabecera_scan 4 c p0 _ M1 Hscan) by discriminate.
  rewrite decide_False by (intros [?|?]; congruence).
  cbn [mbind resultado_bind].
  rewrite decide_False; [reflexivity|].
  destruct (decide (ident = id_data)); cbn [formato bits_muestra];
    now apply bits_validos.
Qed.

Lemma leer_cabecera_chunk_final_witness :
  leer_cabecera (Fichero ej_dos_data 0) =
  Ok (InfoAudio (Some 56) (Some 2) (Some 1) (Some 2) (Some 8000) (Some 16),
      Fichero ej_dos_data 58).
Proof.
  exact (leer_cabecera_chunk_final LittleEndian 2 8000 16 4 2 0
           (flat_map (le_bytes 2) [1; 2]) id_data (flat_map (le_bytes 2) [7])
           (cabecera_bytes LittleEndian 2 8000 16 4)
           ltac:(vm_compute; reflexivity) (or_introl eq_refl) eq_refl eq_refl
           ltac:(discriminate) ltac:(unfold uint32; lia) ltac:(cbn; lia)).
Defined.

(** X20. When the first chunk of a stream with the two markers is a format
    chunk from which fewer than sixteen bytes can be read (it declares fewer,
    or the file ends inside it), [leer_cabecera] raises [struct.error], not
    the [TypeError] of an unsupported format. *)
Theorem leer_cabecera_fmt_corto (sz resto : list byte) (k p0 : Z) :
  length sz = 4%nat -> uint32 k ->
  Z.min k (Z.of_nat (length resto)) < 16 ->
  leer_cabecera
    (Fichero ((RIFF ++ sz ++ WAVE) ++ (id_fmt ++ le_bytes 4 k) ++ resto) p0)
  = Err StructError /\
  clase StructError = None.
Proof.
  intros Hsz Hk Hmin. split; [|reflexivity].
  set (c := (RIFF ++ sz ++ WAVE) ++ (id_fmt ++ le_bytes 4 k) ++ resto).
  assert (H12 : length (RIFF ++ sz ++ WAVE) = 12%nat).
  { rewrite !length_app, Hsz. reflexivity. }
  assert (M : (12 <= length c)%nat /\ take 4 c = RIFF /\ take 4 (drop 8 c) = WAVE).
  { split; [unfold c; rewrite length_app, H12; lia|]. unfold c.
    destruct sz as [|b0 [|b1 [|b2 [|b3 [|b4 sz']]]]]; try discriminate Hsz.
    split; reflexivity. }
  destruct M as (M1 & M2 & M3).
  assert (Hscan : leer_subchunks 1 (Fichero c 12) info_vacia = Err StructError).
  { rewrite leer_subchunks_S.
    rewrite (f_read_en c (RIFF ++ sz ++ WAVE) (id_fmt ++ le_bytes 4 k) resto 12 8);
      [|reflexivity|now rewrite H12|reflexivity].
    cbv beta iota. rewrite decide_False by (cbn; lia).
    rewrite unpack_4sI_ok by (reflexivity || assumption).
    cbn [mbind resultado_bind]. rewrite decide_True by reflexivity.
    rewrite (f_read_resto c ((RIFF ++ sz ++ WAVE) ++ id_fmt ++ le_bytes 4 k) resto);
      [|unfold c; rewrite <- !app_assoc; reflexivity
       |rewrite length_app, H12, length_app, length_le_bytes; reflexivity].
    cbv beta iota. unfold Struct.unpack_HHIIHH.
    rewrite decide_False; [reflexivity|].
    unfold uint32 in Hk. rewrite length_take, length_take. lia. }
  rewrite (leer_cabecera_scan 1 c p0 _ M1 Hscan) by discriminate.
  rewrite decide_False by (intros [?|?]; congruence). reflexivity.
Qed.

Lemma leer_cabecera_fmt_corto_witness :
  leer_cabecera (Fichero ej_fmt_corto 0) = Err StructError.
Proof.
  apply (leer_cabecera_fmt_corto (le_bytes 4 100)
           (take 14 (cuerpo_fmt 2 8000 16) ++ id_data ++ le_bytes 4 0) 14 0);
    [reflexivity|unfold uint32; lia|cbn; lia].
Defined.

(** ** Splitting a stereo file and merging it again *)

Lemma zip_map_fst_snd (x : list (Z * Z)) :
  zip (map (fun p : Z * Z => fst p) x) (map (fun p : Z * Z => snd p) x) = x.
Proof.
  induction x as [|[l r] x IH]; [reflexivity|]. cbn. now rewrite IH.
Qed.

Lemma estereo2mono_lados (nativo : orden_bytes) (fs : gmap string (list byte))
    (ent sal : string) (frec : Z) (x : list (Z * Z)) :
  Forall int16 (aplanar x) ->
  cabecera_valida 2 frec 16 (4 * Z.of_nat (length x)) ->
  fs !! ent = Some (cabecera_bytes nativo 2 frec 16 (4 * Z.of_nat (length x)) ++
                    flat_map (le_bytes 2) (aplanar x)) ->
  estereo2mono nativo ent sal 0 fs =
    (Ok tt, <[sal := cabecera_bytes nativo 1 frec 16 (2 * Z.of_nat (length x)) ++
                     flat_map (le_bytes 2) (map (fun p : Z * Z => fst p) x)]> fs) /\
  estereo2mono nativo ent sal 1 fs =
    (Ok tt, <[sal := cabecera_bytes nativo 1 frec 16 (2 * Z.of_nat (length x)) ++
                     flat_map (le_bytes 2) (map (fun p : Z * Z => snd p) x)]> fs).
Proof.
  intros Hx Hval Hfs.
  assert (Hlen : Z.of_nat (length (flat_map (le_bytes 2) (aplanar x))) =
                 4 * Z.of_nat (length x)).
  { rewrite length_muestras, length_aplanar. lia. }
  pose proof (proj1 (Forall_aplanar int16 x) Hx) as Hx'.
  destruct (Forall_map_fst x Hx') as [Hi Hd].
  pose proof (cabecera_valida_mono16 _ _ Hval) as Hvm.
  rewrite <- Hlen in Hfs, Hval.
  split.
  - rewrite (estereo2mono_canonico nativo fs ent sal 0 2 frec 16 (aplanar x))
      by (assumption || (left; reflexivity)).
    rewrite decide_False by (intros E; now apply E).
    rewrite pares_aplanar. unfold mono_de_pares. rewrite decide_True by reflexivity.
    cbn [mbind resultado_bind].
    rewrite pack_rep_h_ok by (reflexivity || assumption).
    rewrite length_muestras, length_map. change (Z.of_nat 2) with 2.
    now apply escribir_cabecera_ok.
  - rewrite (estereo2mono_canonico nativo fs ent sal 1 2 frec 16 (aplanar x))
      by (assumption || (left; reflexivity)).
    rewrite decide_False by (intros E; now apply E).
    rewrite pares_aplanar. unfold mono_de_pares.
    rewrite decide_False, decide_True by lia.
    cbn [mbind resultado_bind].
    rewrite pack_rep_h_ok by (reflexivity || assumption).
    rewrite length_muestras, length_map. change (Z.of_nat 2) with 2.
    now apply escribir_cabecera_ok.
Qed.

(** X21. Splitting a canonical stereo file into its left channel
    ([estereo2mono] with [canal = 0]) and its right channel ([canal = 1])
    and merging the two mono files with [mono2estereo] writes the original
    stereo file again, header and samples, provided the left output does not
    overwrite the stereo input or the right output. *)
Theorem separar_y_unir (nativo : orden_bytes) (fs : gmap string (list byte))
    (ent izq der sal : string) (frec : Z) (x : list (Z * Z))
    (cab datos : list byte) :
  Struct.pack_rep (Struct.pack_h LittleEndian) (2 * Z.of_nat (length x)) (aplanar x)
    = Ok datos ->
  crear_cabecera nativo 2 frec 16 (Z.of_nat (length datos)) = Ok cab ->
  fs !! ent = Some (cab ++ datos) ->
  izq <> ent -> izq <> der ->
  exists fs1 fs2,
    estereo2mono nativo ent izq 0 fs = (Ok tt, fs1) /\
    estereo2mono nativo ent der 1 fs1 = (Ok tt, fs2) /\
    mono2estereo nativo izq der sal fs2 = (Ok tt, <[sal := cab ++ datos]> fs2).
Proof.
  intros Hd Hc Hfs Hie Hid.
  destruct (entrada_estereo _ _ _ _ _ Hd Hc) as (Hx & -> & Hlen & Hval & ->).
  pose proof (proj1 (Forall_aplanar int16 x) Hx) as Hx'.
  destruct (Forall_map_fst x Hx') as [Hi Hde].
  pose proof (cabecera_valida_mono16 _ _ Hval) as Hvm.
  set (L := map (fun p : Z * Z => fst p) x) in *.
  set (R := map (fun p : Z * Z => snd p) x) in *.
  set (fich_i := cabecera_bytes nativo 1 frec 16 (2 * Z.of_nat (length x)) ++
                 flat_map (le_bytes 2) L).
  set (fich_d := cabecera_bytes nativo 1 frec 16 (2 * Z.of_nat (length x)) ++
                 flat_map (le_bytes 2) R).
  exists (<[izq := fich_i]> fs), (<[der := fich_d]> (<[izq := fich_i]> fs)).
  split; [apply (estereo2mono_lados nativo fs ent izq frec x); assumption|].
  split.
  { apply (estereo2mono_lados nativo _ ent der frec x); try assumption.
    rewrite lookup_insert_ne by assumption. exact Hfs. }
  assert (HlL : Z.of_nat (length (flat_map (le_bytes 2) L)) = 2 * Z.of_nat (length x)).
  { rewrite length_muestras. unfold L. rewrite length_map. lia. }
  assert (HlR : Z.of_nat (length (flat_map (le_bytes 2) R)) = 2 * Z.of_nat (length x)).
  { rewrite length_muestras. unfold R. rewrite length_map. lia. }
  rewrite (mono2estereo_canonico nativo _ izq der sal 1 frec 16 1 frec 16 L R);
    [|rewrite HlL; assumption|left; reflexivity|assumption
     |rewrite HlL, lookup_insert_ne, lookup_insert_eq by congruence; reflexivity
     |rewrite HlR; assumption|left; reflexivity|assumption
     |rewrite HlR, lookup_insert_eq; reflexivity].
  rewrite !decide_False by (intros E; now apply E).
  unfold L at 2, R. rewrite zip_map_fst_snd.
  rewrite pack_rep_h_ok
    by first [assumption | unfold L; rewrite length_map, length_aplanar; lia].
  rewrite Hlen. now apply escribir_cabecera_ok.
Qed.

Lemma separar_y_unir_witness :
  exists fs1 fs2,
    estereo2mono LittleEndian "estereo.wav" "i.wav" 0 ej_fs = (Ok tt, fs1) /\
    estereo2mono LittleEndian "estereo.wav" "d.wav" 1 fs1 = (Ok tt, fs2) /\
    mono2estereo LittleEndian "i.wav" "d.wav" "estereo.wav" fs2 =
      (Ok tt, <["estereo.wav"%string := ej_cab ++ ej_datos]> fs2).
Proof.
  apply (separar_y_unir LittleEndian ej_fs "estereo.wav" "i.wav" "d.wav"
           "estereo.wav" 44100 ej_tramas ej_cab ej_datos);
    [vm_compute; reflexivity..|discriminate|discriminate].
Defined.
